(** * DaisyUI widgets and templates for react-jsonschema-form

    A shallow embedding of the five components of the package
    (FileWidget, TextareaWidget, SelectWidget, TitleField and
    BaseInputTemplate): the React elements they return, the hooks they
    use, and what their event handlers do to the host's callbacks.

    The file has three parts.  Part I holds the definitions: JavaScript
    values and the built-ins the components call, React's memoising
    hooks, and one module per component.  Part II holds the theorems on
    what the specification says of the components, Part III further
    properties of their code. *)

From Stdlib Require Import ZArith NArith String Ascii Bool Lia.
From Stdlib Require Import DecimalNat.
From stdpp Require Import base tactics option list.

Local Open Scope string_scope.
Local Open Scope list_scope.
Local Open Scope stdpp_scope.
Local Open Scope Z_scope.
Set Warnings "-register-all".

(* ===================================================================== *)
(** * Part I.  Definitions                                                *)
(* ===================================================================== *)

(** ** JavaScript values *)

Module Js.

(** A JavaScript string is a sequence of UTF-16 code units. *)
Definition jsstring := list N.

(** An ASCII literal of the source, as code units. *)
Definition lit (s : string) : jsstring :=
  map N_of_ascii (list_ascii_of_string s).

(** Numbers.  The components only meet array indexes, byte counts and the
    configured byte limit, so the model has the integers and NaN. *)
Inductive jsnum :=
| NaN
| Int (z : Z).

Inductive jsval :=
| JUndefined
| JNull
| JBool (b : bool)
| JNum (n : jsnum)
| JStr (s : jsstring)
| JArr (items : list jsval)
| JObj (fields : list (jsstring * jsval)).

(** [ToBoolean]. *)
Definition truthy_num (n : jsnum) : bool :=
  match n with
  | NaN => false
  | Int z => negb (z =? 0)
  end.

Definition truthy (v : jsval) : bool :=
  match v with
  | JUndefined | JNull => false
  | JBool b => b
  | JNum n => truthy_num n
  | JStr s => match s with [] => false | _ => true end
  | JArr _ | JObj _ => true
  end.

(** [a || b] and [a && b] return one of their operands. *)
Definition js_or (a b : jsval) : jsval := if truthy a then a else b.
Definition js_and (a b : jsval) : jsval := if truthy a then b else a.

(** [typeof v === "object"]: objects, arrays and null. *)
Definition typeof_object (v : jsval) : bool :=
  match v with
  | JNull | JArr _ | JObj _ => true
  | _ => false
  end.

(** Property read [o.k] on a value; a missing property is [undefined]. *)
Fixpoint assoc (k : jsstring) (fields : list (jsstring * jsval)) : jsval :=
  match fields with
  | [] => JUndefined
  | (k', v) :: rest => if bool_decide (k = k') then v else assoc k rest
  end.

Definition get (v : jsval) (k : string) : jsval :=
  match v with
  | JObj fields => assoc (lit k) fields
  | _ => JUndefined
  end.

(** *** [Object.is], the comparison React applies to hook dependencies.
    Values are immutable here, so two values are the same when they are
    built the same way. *)

Definition same_list {A} (same : A -> A -> bool) : list A -> list A -> bool :=
  fix go (l1 l2 : list A) : bool :=
    match l1, l2 with
    | [], [] => true
    | x :: l1', y :: l2' => same x y && go l1' l2'
    | _, _ => false
    end.

Definition same_string : jsstring -> jsstring -> bool := same_list N.eqb.

Definition same_num (a b : jsnum) : bool :=
  match a, b with
  | NaN, NaN => true
  | Int x, Int y => x =? y
  | _, _ => false
  end.

Fixpoint same_value (a b : jsval) : bool :=
  match a, b with
  | JUndefined, JUndefined => true
  | JNull, JNull => true
  | JBool x, JBool y => Bool.eqb x y
  | JNum x, JNum y => same_num x y
  | JStr x, JStr y => same_string x y
  | JArr x, JArr y => same_list same_value x y
  | JObj x, JObj y =>
      same_list (fun p q =>
                   match p, q with
                   | (k1, v1), (k2, v2) => same_string k1 k2 && same_value v1 v2
                   end) x y
  | _, _ => false
  end.

Definition same_option {A} (same : A -> A -> bool) (a b : option A) : bool :=
  match a, b with
  | None, None => true
  | Some x, Some y => same x y
  | _, _ => false
  end.

(** *** Decimal numerals: [String(i)] and [Number(s)] *)

Fixpoint uint_units (d : Decimal.uint) : jsstring :=
  match d with
  | Decimal.Nil => []
  | Decimal.D0 d => 48%N :: uint_units d
  | Decimal.D1 d => 49%N :: uint_units d
  | Decimal.D2 d => 50%N :: uint_units d
  | Decimal.D3 d => 51%N :: uint_units d
  | Decimal.D4 d => 52%N :: uint_units d
  | Decimal.D5 d => 53%N :: uint_units d
  | Decimal.D6 d => 54%N :: uint_units d
  | Decimal.D7 d => 55%N :: uint_units d
  | Decimal.D8 d => 56%N :: uint_units d
  | Decimal.D9 d => 57%N :: uint_units d
  end.

Fixpoint units_uint (s : jsstring) : option Decimal.uint :=
  match s with
  | [] => Some Decimal.Nil
  | c :: rest =>
      match units_uint rest with
      | None => None
      | Some d =>
          match c with
          | 48%N => Some (Decimal.D0 d)
          | 49%N => Some (Decimal.D1 d)
          | 50%N => Some (Decimal.D2 d)
          | 51%N => Some (Decimal.D3 d)
          | 52%N => Some (Decimal.D4 d)
          | 53%N => Some (Decimal.D5 d)
          | 54%N => Some (Decimal.D6 d)
          | 55%N => Some (Decimal.D7 d)
          | 56%N => Some (Decimal.D8 d)
          | 57%N => Some (Decimal.D9 d)
          | _ => None
          end
      end
  end.

(** [String(i)] for an array index [i]. *)
Definition String_of_nat (i : nat) : jsstring := uint_units (Nat.to_uint i).

(** [String(n)].  Exact for NaN and for the integers below 10^21, which
    JavaScript prints in plain decimal. *)
Definition String_of_num (n : jsnum) : jsstring :=
  match n with
  | NaN => lit "NaN"
  | Int z =>
      if z <? 0 then 45%N :: String_of_nat (Z.to_nat (- z))
      else String_of_nat (Z.to_nat z)
  end.

(** [Number(s)].  The empty string is 0 and a string of decimal digits is
    the number it spells; every other string is NaN in this model.  That
    is exact for the option values a select element carries (the empty
    placeholder and the decimal indexes) and for text that is no numeral;
    signs, fractions, exponents, radix prefixes and surrounding white
    space are outside the model. *)
Definition Number (s : jsstring) : jsnum :=
  match units_uint s with
  | Some d => Int (Z.of_nat (Nat.of_uint d))
  | None => NaN
  end.

(** [arr[n]] for a number [n]: an element for an index in range,
    [undefined] (here [None]) otherwise. *)
Definition index {A} (arr : list A) (n : jsnum) : option A :=
  match n with
  | NaN => None
  | Int z => if z <? 0 then None else arr !! Z.to_nat z
  end.
#[global] Arguments index : simpl never.
#[global] Arguments Number : simpl never.
#[global] Arguments String_of_num : simpl never.
#[global] Arguments String_of_nat : simpl never.

(** *** [ToString], for [String(v)] and for [TextEncoder.encode(v)] *)

Fixpoint join (sep : jsstring) (parts : list jsstring) : jsstring :=
  match parts with
  | [] => []
  | [p] => p
  | p :: rest => p ++ sep ++ join sep rest
  end.

Fixpoint ToString (v : jsval) : jsstring :=
  match v with
  | JUndefined => lit "undefined"
  | JNull => lit "null"
  | JBool true => lit "true"
  | JBool false => lit "false"
  | JNum n => String_of_num n
  | JStr s => s
  | JArr items =>
      join (lit ",")
           (map (fun x => match x with
                          | JUndefined | JNull => []
                          | _ => ToString x
                          end) items)
  | JObj _ => lit "[object Object]"
  end.

(** *** [new TextEncoder().encode(s)]: the UTF-8 bytes of a string.
    A surrogate pair is one code point of four bytes; a lone surrogate is
    replaced by U+FFFD, three bytes. *)

Definition high_surrogate (c : N) : bool := (0xD800 <=? c)%N && (c <=? 0xDBFF)%N.
Definition low_surrogate (c : N) : bool := (0xDC00 <=? c)%N && (c <=? 0xDFFF)%N.

Definition utf8_code_point (cp : N) : list N :=
  if (cp <? 0x80)%N then [cp]
  else if (cp <? 0x800)%N then
    [0xC0 + cp / 64; 0x80 + cp mod 64]%N
  else if (cp <? 0x10000)%N then
    [0xE0 + cp / 4096; 0x80 + (cp / 64) mod 64; 0x80 + cp mod 64]%N
  else
    [0xF0 + cp / 262144; 0x80 + (cp / 4096) mod 64;
     0x80 + (cp / 64) mod 64; 0x80 + cp mod 64]%N.

Definition replacement : list N := utf8_code_point 0xFFFD.

Fixpoint utf8 (s : jsstring) : list N :=
  match s with
  | [] => []
  | c :: rest =>
      if high_surrogate c then
        match rest with
        | d :: rest' =>
            if low_surrogate d
            then utf8_code_point (0x10000 + (c - 0xD800) * 1024 + (d - 0xDC00))%N
                   ++ utf8 rest'
            else replacement ++ utf8 rest
        | [] => replacement
        end
      else if low_surrogate c then replacement ++ utf8 rest
      else utf8_code_point c ++ utf8 rest
  end.

(** [new TextEncoder().encode(v).length]; an undefined argument is the
    default argument, the empty string. *)
Definition encode_length (v : jsval) : nat :=
  match v with
  | JUndefined => 0%nat
  | _ => length (utf8 (ToString v))
  end.

(** [len > max] for a byte count and the configured limit, which is a
    number or undefined; a comparison with NaN or undefined is false. *)
Definition exceeds (len : nat) (max : option jsnum) : bool :=
  match max with
  | Some (Int m) => m <? Z.of_nat len
  | _ => false
  end.

Definition opt_num (n : option jsnum) : jsval :=
  match n with
  | Some n => JNum n
  | None => JUndefined
  end.

End Js.
Import Js.

(** ** React: elements, host callbacks and memoising hooks *)

Module React.

(** A callback the host passes in the props, known by its identity. *)
Definition callback := nat.

(** What a handler does to the world around the component.  Calls of the
    host's callbacks carry the callback that was called and its
    arguments; [SetIsLoading] is the file widget's own state update. *)
Inductive effect :=
| OnChange (f : callback) (v : jsval)
| OnFocus (f : callback) (id v : jsval)
| OnBlur (f : callback) (id v : jsval)
| OnChangeOverride (f : callback) (targetValue : jsstring)
| ConsoleError (error : jsval)
| SetIsLoading (b : bool).

(** The element tree a component returns.  Handlers are not part of it:
    a render returns them next to the tree. *)
Inductive element :=
| Elem (tag : string) (attrs : list (string * jsval)) (children : list element)
| Val (v : jsval).

(** [{c && <x/>}] in child position. *)
Definition when (c : jsval) (x : element) : element :=
  if truthy c then x else Val c.

(** [useMemo(create, deps)]: the cell keeps the dependencies of the render
    that last ran [create] and what it returned. *)
Definition useMemo {D E} (same : D -> D -> bool) (cell : option (D * E))
           (deps : D) (create : unit -> E) : E * option (D * E) :=
  match cell with
  | Some (d, e) =>
      if same d deps then (e, cell)
      else let e' := create tt in (e', Some (deps, e'))
  | None => let e' := create tt in (e', Some (deps, e'))
  end.

(** [useCallback(fn, deps)] is [useMemo(() => fn, deps)]; a function is
    kept as the variables it closes over. *)
Definition useCallback {D E} (same : D -> D -> bool) (cell : option (D * E))
           (deps : D) (fn : E) : E * option (D * E) :=
  useMemo same cell deps (fun _ => fn).

Definition same_callback : callback -> callback -> bool := Nat.eqb.

(** What a cell keeps stands in relation [R] to the dependencies it
    keeps; the cell is coherent with [g] when what it keeps is [g] of
    them. *)
Definition kept {D E} (R : D -> E -> Prop) (cell : option (D * E)) : Prop :=
  forall d e, cell = Some (d, e) -> R d e.

Definition coherent {D E} (g : D -> E) (cell : option (D * E)) : Prop :=
  kept (fun d e => e = g d) cell.

Definition same_pair {A B} (sa : A -> A -> bool) (sb : B -> B -> bool)
           (x y : A * B) : bool :=
  sa (fst x) (fst y) && sb (snd x) (snd y).

End React.
Import React.

(** ** The props contract of the host library *)

Module EnumOption.
Record t := { value : jsval; label : jsval }.
Definition same (a b : t) : bool :=
  same_value (value a) (value b) && same_value (label a) (label b).
End EnumOption.

Module Options.
(** The [options] bag, with the entries the components read.  An entry
    that is absent is [undefined]; [maxByteLength] is a number or
    absent. *)
Record t := {
  multiple : jsval;
  accept : jsval;
  maxByteLength : option jsnum;
  rows : jsval;
  emptyValue : jsval;
  enumOptions : option (list EnumOption.t)
}.

Definition same (a b : t) : bool :=
  same_value (multiple a) (multiple b)
  && same_value (accept a) (accept b)
  && same_option same_num (maxByteLength a) (maxByteLength b)
  && same_value (rows a) (rows b)
  && same_value (emptyValue a) (emptyValue b)
  && same_option (same_list EnumOption.same) (enumOptions a) (enumOptions b).

Definition empty : t :=
  {| multiple := JUndefined; accept := JUndefined; maxByteLength := None;
     rows := JUndefined; emptyValue := JUndefined; enumOptions := None |}.
End Options.

Module Schema.
Record t := {
  type : jsval;
  examples : jsval;
  default : jsval;
  enumNames : jsval
}.
Definition empty : t :=
  {| type := JUndefined; examples := JUndefined; default := JUndefined;
     enumNames := JUndefined |}.
End Schema.

Module Props.
(** [WidgetProps], with the fields the four widgets read. *)
Record t := {
  id : jsstring;
  value : jsval;
  required : jsval;
  disabled : jsval;
  readonly : jsval;
  autofocus : jsval;
  multiple : jsval;
  label : jsval;
  placeholder : jsval;
  type : jsval;
  schema : Schema.t;
  options : Options.t;
  onChange : callback;
  onFocus : option callback;
  onBlur : option callback;
  onChangeOverride : option callback
}.
End Props.

(** The three events of an input, and the call each one may make: the
    callback of the current props that goes with the event. *)
Module Event.
Inductive kind := Change | Focus | Blur.

Definition permitted (p : Props.t) (k : kind) (e : effect) : Prop :=
  match k, e with
  | Change, OnChange f _ => f = Props.onChange p
  | Focus, OnFocus f _ _ => Props.onFocus p = Some f
  | Blur, OnBlur f _ _ => Props.onBlur p = Some f
  | _, _ => False
  end.
End Event.

(** A handler that reports focus or blur closes over the callback and the
    id, which are also its dependencies. *)
Module Report.
Record env := { cb : option callback; id : jsstring }.
Definition deps := (option callback * jsstring)%type.
Definition same : deps -> deps -> bool :=
  same_pair (same_option same_callback) same_string.
Definition cell := option (deps * env).
(** The handler a render makes from its dependencies. *)
Definition fresh (d : deps) : env := {| cb := fst d; id := snd d |}.
End Report.

(** ** FileWidget *)

Module FileWidget.

(** A [File] of the input's [FileList] is an opaque object to the widget;
    what reading it yields is the browser's business. *)
Definition File := jsval.

(** [event.target.files]: a [FileList], or null. *)
Record InputEvent := { files : option (list File) }.

(** How a [FileReader] ends: [onload] with the data URL in [result], or
    [onerror] with the error event. *)
Inductive read_result :=
| Loaded (url : jsstring)
| Failed (error : jsval).

(** [schema.type === "array" || Boolean(options.multiple)] *)
Definition isMulti (p : Props.t) : bool :=
  same_value (Schema.type (Props.schema p)) (JStr (lit "array"))
  || truthy (Options.multiple (Props.options p)).

(** [typeof options.accept === "string" ? options.accept : undefined] *)
Definition accept (p : Props.t) : jsval :=
  match Options.accept (Props.options p) with
  | JStr s => JStr s
  | _ => JUndefined
  end.

(** *** The change handler *)

(** What [handleChange] closes over. *)
Record ChangeEnv := { onChange : callback; multi : bool }.

(** The [then] callback of the aggregated promise, with a host whose
    [onChange] returns; a call that throws is followed in [FileChange]. *)
Definition on_fulfilled (env : ChangeEnv) (dataUrls : list jsval) : list effect :=
  [ SetIsLoading false;
    if multi env then OnChange (onChange env) (JArr dataUrls)
    else OnChange (onChange env) (js_or (default JUndefined (dataUrls !! 0%nat)) JNull) ].

(** The [catch] callback. *)
Definition on_rejected (error : jsval) : list effect :=
  [ SetIsLoading false; ConsoleError error ].

(** [Promise.all(dataUrls)] with its two reactions attached: the list of
    values, a flag per element promise that has settled, the count of
    elements still to come, and whether the aggregate has settled. *)
Record Aggregate := {
  env : ChangeEnv;
  values : list jsval;
  alreadyCalled : list bool;
  remaining : nat;
  settled : bool
}.

(** The reader of file [i] ends with [r]. *)
Definition reader_done (a : Aggregate) (i : nat) (r : read_result)
  : list effect * Aggregate :=
  match alreadyCalled a !! i with
  | Some false =>
      let called := <[i := true]> (alreadyCalled a) in
      match r with
      | Loaded url =>
          let vals := <[i := JStr url]> (values a) in
          let left := pred (remaining a) in
          if settled a then
            ([], {| env := env a; values := vals; alreadyCalled := called;
                    remaining := left; settled := true |})
          else if (left =? 0)%nat then
            (on_fulfilled (env a) vals,
             {| env := env a; values := vals; alreadyCalled := called;
                remaining := left; settled := true |})
          else
            ([], {| env := env a; values := vals; alreadyCalled := called;
                    remaining := left; settled := false |})
      | Failed error =>
          if settled a then
            ([], {| env := env a; values := values a; alreadyCalled := called;
                    remaining := remaining a; settled := true |})
          else
            (on_rejected error,
             {| env := env a; values := values a; alreadyCalled := called;
                remaining := remaining a; settled := true |})
      end
  | _ => ([], a)
  end.

(** The history of one change event: reads that ended, and what the
    widget did. *)
Inductive item :=
| Ended (i : nat) (r : read_result)
| Did (e : effect).

(** The readers end in the order [order]; [reads] gives what each reader
    ends with.  An index that names no reader, or a reader that has ended
    before, changes nothing but the history. *)
Fixpoint run (reads : list read_result) (a : Aggregate) (order : list nat)
  : list item :=
  match order with
  | [] => []
  | i :: rest =>
      match reads !! i with
      | Some r =>
          let '(effs, a') := reader_done a i r in
          Ended i r :: map Did effs ++ run reads a' rest
      | None => run reads a rest
      end
  end.

(** [handleChange(event)], followed by the reads ending in [order]. *)
Definition handleChange (env : ChangeEnv) (event : InputEvent)
           (reads : list read_result) (order : list nat) : list item :=
  match files event with
  | None => []
  | Some fileList =>
      let n := length fileList in
      Did (SetIsLoading true) ::
      if (n =? 0)%nat then map Did (on_fulfilled env [])
      else run (take n reads)
               {| env := env; values := replicate n JUndefined;
                  alreadyCalled := replicate n false;
                  remaining := n; settled := false |}
               order
  end.

Definition effects (log : list item) : list effect :=
  omap (fun it => match it with Did e => Some e | Ended _ _ => None end) log.

(** *** Focus and blur *)

Definition files_value (event : InputEvent) : jsval :=
  match files event with
  | Some fileList => JArr fileList
  | None => JNull
  end.

Definition handleFocus (env : Report.env) (event : InputEvent) : list effect :=
  match Report.cb env with
  | Some f => [OnFocus f (JStr (Report.id env)) (files_value event)]
  | None => []
  end.

Definition handleBlur (env : Report.env) (event : InputEvent) : list effect :=
  match Report.cb env with
  | Some f => [OnBlur f (JStr (Report.id env)) (files_value event)]
  | None => []
  end.

(** *** The component *)

Definition change_deps := (callback * bool)%type.
Definition same_change_deps : change_deps -> change_deps -> bool :=
  same_pair same_callback Bool.eqb.

(** The hooks of one mounted widget: the [isLoading] state and the three
    memoised handlers. *)
Record Hooks := {
  isLoading : bool;
  handleChange_cell : option (change_deps * ChangeEnv);
  handleFocus_cell : Report.cell;
  handleBlur_cell : Report.cell
}.

Definition mount : Hooks :=
  {| isLoading := false; handleChange_cell := None;
     handleFocus_cell := None; handleBlur_cell := None |}.

Record Rendered := {
  markup : element;
  change : ChangeEnv;
  focus : Report.env;
  blur : Report.env;
  hooks : Hooks
}.

Definition render (p : Props.t) (h : Hooks) : Rendered :=
  let multi := isMulti p in
  let '(hc, c1) :=
    useCallback same_change_deps (handleChange_cell h) (Props.onChange p, multi)
                {| onChange := Props.onChange p; multi := multi |} in
  let '(hf, c2) :=
    useCallback Report.same (handleFocus_cell h) (Props.onFocus p, Props.id p)
                {| Report.cb := Props.onFocus p; Report.id := Props.id p |} in
  let '(hb, c3) :=
    useCallback Report.same (handleBlur_cell h) (Props.onBlur p, Props.id p)
                {| Report.cb := Props.onBlur p; Report.id := Props.id p |} in
  {| markup :=
       Elem "div" [("className", JStr (lit "relative"))]
         [ Elem "input"
             [ ("id", JStr (Props.id p));
               ("type", JStr (lit "file"));
               ("className", JStr (lit "file-input w-full"));
               ("required", Props.required p);
               ("disabled",
                js_or (js_or (Props.disabled p) (Props.readonly p))
                      (JBool (isLoading h)));
               ("multiple", JBool multi);
               ("accept", accept p) ]
             [];
           when (JBool (isLoading h))
             (Elem "div"
                [("className",
                  JStr (lit "absolute bottom-0 left-0 right-0 leading-0"))]
                [Elem "progress"
                   [("className", JStr (lit "progress w-full h-1"))] []]) ];
     change := hc; focus := hf; blur := hb;
     hooks := {| isLoading := isLoading h; handleChange_cell := c1;
                 handleFocus_cell := c2; handleBlur_cell := c3 |} |}.

(** [setIsLoading(b)] reaches the state; nothing else does. *)
Definition apply (h : Hooks) (e : effect) : Hooks :=
  match e with
  | SetIsLoading b =>
      {| isLoading := b; handleChange_cell := handleChange_cell h;
         handleFocus_cell := handleFocus_cell h;
         handleBlur_cell := handleBlur_cell h |}
  | _ => h
  end.

(** What has happened to a mounted widget: renders, and updates of its
    state. *)
Inductive past :=
| Render (p : Props.t)
| Update (e : effect).

Definition replay (history : list past) : Hooks :=
  fold_left (fun h x => match x with
                        | Render p => hooks (render p h)
                        | Update e => apply h e
                        end) history mount.

(** The element tree as a function of the props and the loading state. *)
Definition view (p : Props.t) (loading : bool) : element :=
  markup (render p {| isLoading := loading; handleChange_cell := None;
                      handleFocus_cell := None; handleBlur_cell := None |}).

(** The handler a render makes from its dependencies, and the hooks in
    which every kept handler is of that form. *)
Definition change_of (d : change_deps) : ChangeEnv :=
  {| onChange := fst d; multi := snd d |}.

Definition hooks_ok (h : Hooks) : Prop :=
  coherent change_of (handleChange_cell h)
  /\ coherent Report.fresh (handleFocus_cell h)
  /\ coherent Report.fresh (handleBlur_cell h).

(** How many element promises have not settled yet. *)
Fixpoint waiting (called : list bool) : nat :=
  match called with
  | [] => 0%nat
  | b :: rest => ((if b then 0 else 1) + waiting rest)%nat
  end.

(** The state of an aggregate over [n] readers that has not settled:
    every reader that has ended has loaded, and its data URL sits at its
    own index of the values. *)
Definition pending (reads : list read_result) (n : nat) (e : ChangeEnv)
           (a : Aggregate) : Prop :=
  env a = e /\ settled a = false
  /\ length (alreadyCalled a) = n /\ length (values a) = n
  /\ remaining a = waiting (alreadyCalled a)
  /\ forall i, alreadyCalled a !! i = Some true ->
               exists url, reads !! i = Some (Loaded url)
                           /\ values a !! i = Some (JStr url).

(** A data URL starts with its scheme. *)
Definition is_data_url (s : jsstring) : Prop :=
  exists rest, s = lit "data:" ++ rest.

Definition is_OnChange (it : item) : Prop :=
  exists f v, it = Did (OnChange f v).

End FileWidget.

(** ** What the components import

    The functions of the host library (@rjsf/utils) that the components
    call are not part of this package, and neither is [JSON.stringify]; the
    embedding takes them as an interface and holds for every
    implementation of it. *)

Module Host.
Class utils := {
  enumOptionsValueForIndex :
    jsstring -> option (list EnumOption.t) -> jsval -> jsval;
  enumOptionsIndexForValue :
    jsval -> option (list EnumOption.t) -> bool -> jsval;
  getUiOptions : jsval -> jsval;
  getInputProps : Schema.t -> jsval -> Options.t -> list (string * jsval);
  examplesId : jsstring -> jsval;
  ariaDescribedByIds : jsstring -> bool -> jsval;
  JSON_stringify : jsval -> jsval
}.
End Host.
Import Host.

(** ** TextareaWidget *)

Module TextareaWidget.

(** What [handleChange] closes over. *)
Record ChangeEnv := { onChange : callback; maxByteLength : option jsnum }.

(** [handleChange(event)], with [value] for [event.target.value]. *)
Definition handleChange (env : ChangeEnv) (value : jsstring) : list effect :=
  if truthy (js_and (opt_num (maxByteLength env))
                    (JBool (exceeds (length (utf8 value)) (maxByteLength env))))
  then []
  else [OnChange (onChange env) (JStr value)].

Definition handleFocus (env : Report.env) (value : jsstring) : list effect :=
  match Report.cb env with
  | Some f => [OnFocus f (JStr (Report.id env)) (JStr value)]
  | None => []
  end.

Definition handleBlur (env : Report.env) (value : jsstring) : list effect :=
  match Report.cb env with
  | Some f => [OnBlur f (JStr (Report.id env)) (JStr value)]
  | None => []
  end.

(** The dependencies of [handleChange]:
    [[onChange, byteLength > maxByteLength]]. *)
Definition change_deps := (callback * bool)%type.
Definition same_change_deps : change_deps -> change_deps -> bool :=
  same_pair same_callback Bool.eqb.

Record Hooks := {
  handleFocus_cell : Report.cell;
  handleBlur_cell : Report.cell;
  byteLength_cell : option (jsval * nat);
  handleChange_cell : option (change_deps * ChangeEnv)
}.

Definition mount : Hooks :=
  {| handleFocus_cell := None; handleBlur_cell := None;
     byteLength_cell := None; handleChange_cell := None |}.

Record Rendered := {
  markup : element;
  change : ChangeEnv;
  focus : Report.env;
  blur : Report.env;
  hooks : Hooks
}.

Definition render (p : Props.t) (h : Hooks) : Rendered :=
  let '(hf, c1) :=
    useCallback Report.same (handleFocus_cell h) (Props.onFocus p, Props.id p)
                {| Report.cb := Props.onFocus p; Report.id := Props.id p |} in
  let '(hb, c2) :=
    useCallback Report.same (handleBlur_cell h) (Props.onBlur p, Props.id p)
                {| Report.cb := Props.onBlur p; Report.id := Props.id p |} in
  let max := Options.maxByteLength (Props.options p) in
  let '(byteLength, c3) :=
    useMemo same_value (byteLength_cell h) (Props.value p)
            (fun _ => encode_length (Props.value p)) in
  let '(hc, c4) :=
    useCallback same_change_deps (handleChange_cell h)
                (Props.onChange p, exceeds byteLength max)
                {| onChange := Props.onChange p; maxByteLength := max |} in
  {| markup :=
       Elem "div" [("className", JStr (lit "form-control"))]
         [ Elem "textarea"
             [ ("id", JStr (Props.id p));
               ("value", js_or (Props.value p) (JStr []));
               ("required", Props.required p);
               ("disabled", js_or (Props.disabled p) (Props.readonly p));
               ("readOnly", Props.readonly p);
               ("rows", js_or (Options.rows (Props.options p)) (JNum (Int 5)));
               ("className", JStr (lit "textarea textarea-bordered w-full")) ]
             [];
           when (opt_num max)
             (Elem "div"
                [("className",
                  JStr (lit "text-right text-xs text-base-content/50 mt-2"))]
                [ Val (JNum (Int (Z.of_nat byteLength)));
                  Val (JStr (lit "/"));
                  Val (opt_num max) ]) ];
     change := hc; focus := hf; blur := hb;
     hooks := {| handleFocus_cell := c1; handleBlur_cell := c2;
                 byteLength_cell := c3; handleChange_cell := c4 |} |}.

(** The widget mounted and rendered with each of [history] in turn. *)
Definition renders (history : list Props.t) : Hooks :=
  fold_left (fun h p => hooks (render p h)) history mount.

(** [maxByteLength && encode(value).length > maxByteLength]: the limit
    is set and the value is longer. *)
Definition over_limit (max : option jsnum) (value : jsstring) : bool :=
  truthy (opt_num max) && exceeds (length (utf8 value)) max.

(** Hooks in which the kept change handler calls the [onChange] it was
    kept for and has a limit in [P], the kept byte length is that of the
    value it was computed from, and the other handlers are those of
    their dependencies. *)
Definition hooks_ok (P : option jsnum -> Prop) (h : Hooks) : Prop :=
  kept (fun d env => onChange env = fst d /\ P (maxByteLength env))
       (handleChange_cell h)
  /\ coherent encode_length (byteLength_cell h)
  /\ coherent Report.fresh (handleFocus_cell h)
  /\ coherent Report.fresh (handleBlur_cell h).

(** The element tree as a function of the props alone. *)
Definition view (p : Props.t) : element :=
  markup (render p mount).

End TextareaWidget.

(** ** TitleField *)

Module TitleField.

Record Props := { id : jsstring; title : jsstring; uiSchema : jsval }.

Definition render `{utils} (p : Props) : element :=
  let uiOptions := getUiOptions (uiSchema p) in
  Elem "div" [("id", JStr (id p)); ("className", JStr (lit "title-field"))]
    [ Elem "h2" [("className", JStr (lit "text-xl font-bold"))]
        [Val (js_or (get uiOptions "title") (JStr (title p)))];
      Elem "div" [("className", JStr (lit "divider my-2"))] [] ].

(** The children of the first [h2] among the children of the root. *)
Fixpoint first_h2 (children : list element) : option (list element) :=
  match children with
  | [] => None
  | Elem tag _ cs :: rest =>
      if String.eqb tag "h2" then Some cs else first_h2 rest
  | Val _ :: rest => first_h2 rest
  end.

Definition heading (e : element) : option (list element) :=
  match e with
  | Elem _ _ children => first_h2 children
  | Val _ => None
  end.

End TitleField.

(** ** BaseInputTemplate *)

Module BaseInputTemplate.

(** What [_onChange] closes over: [onChange], [options], and the
    [maxByteLength] that the render which made it read from [options]. *)
Record ChangeEnv := {
  onChange : callback;
  options : Options.t;
  maxByteLength : option jsnum
}.

(** [_onChange({ target: { value } })] *)
Definition _onChange (env : ChangeEnv) (value : jsstring) : list effect :=
  if truthy (js_and (opt_num (maxByteLength env))
                    (JBool (exceeds (length (utf8 value)) (maxByteLength env))))
  then []
  else [OnChange (onChange env)
                 (match value with
                  | [] => Options.emptyValue (options env)
                  | _ => JStr value
                  end)].

(** [onBlur && onBlur(id, target.value)] *)
Definition _onBlur (env : Report.env) (value : jsstring) : list effect :=
  match Report.cb env with
  | Some f => [OnBlur f (JStr (Report.id env)) (JStr value)]
  | None => []
  end.

Definition _onFocus (env : Report.env) (value : jsstring) : list effect :=
  match Report.cb env with
  | Some f => [OnFocus f (JStr (Report.id env)) (JStr value)]
  | None => []
  end.

(** The handler the input gets: [onChangeOverride || _onChange]. *)
Inductive ChangeHandler :=
| Override (f : callback)
| Own (env : ChangeEnv).

Definition dispatch (h : ChangeHandler) (value : jsstring) : list effect :=
  match h with
  | Override f => [OnChangeOverride f value]
  | Own env => _onChange env value
  end.

Definition change_deps := (callback * Options.t)%type.
Definition same_change_deps : change_deps -> change_deps -> bool :=
  same_pair same_callback Options.same.

Record Hooks := {
  byteLength_cell : option (jsval * nat);
  onChange_cell : option (change_deps * ChangeEnv);
  onBlur_cell : Report.cell;
  onFocus_cell : Report.cell
}.

Definition mount : Hooks :=
  {| byteLength_cell := None; onChange_cell := None;
     onBlur_cell := None; onFocus_cell := None |}.

Record Rendered := {
  markup : element;
  change : ChangeHandler;
  blur : Report.env;
  focus : Report.env;
  hooks : Hooks
}.

(** [o.k] on the object [getInputProps] returns. *)
Fixpoint prop (k : string) (o : list (string * jsval)) : jsval :=
  match o with
  | [] => JUndefined
  | (k', v) :: rest => if String.eqb k k' then v else prop k rest
  end.

Definition extracted : list string := ["step"; "min"; "max"; "accept"].

(** [schema.examples.includes(schema.default)], comparing contents: that
    is what [includes] does on primitive values; an object it finds only
    if it is the very same object. *)
Definition includes (l : list jsval) (v : jsval) : bool :=
  existsb (same_value v) l.

(** The attributes are listed in the order of the source; where a name
    comes twice, the later entry is the one React keeps. *)
Definition render `{utils} (p : Props.t) (h : Hooks) : Rendered :=
  let id := Props.id p in
  let value := Props.value p in
  let schema := Props.schema p in
  let inputProps := getInputProps schema (Props.type p) (Props.options p) in
  let rest :=
    filter (fun kv => negb (existsb (String.eqb (fst kv)) extracted) = true)
           inputProps in
  let htmlInputProps :=
    [ ("step", prop "step" inputProps);
      ("min", prop "min" inputProps);
      ("max", prop "max" inputProps);
      ("accept", prop "accept" inputProps) ]
    ++ (if truthy (Schema.examples schema) then [("list", examplesId id)] else [])
  in
  let max := Options.maxByteLength (Props.options p) in
  let '(byteLength, c1) :=
    useMemo same_value (byteLength_cell h) value
            (fun _ => encode_length value) in
  let '(oc, c2) :=
    useCallback same_change_deps (onChange_cell h)
                (Props.onChange p, Props.options p)
                {| onChange := Props.onChange p; options := Props.options p;
                   maxByteLength := max |} in
  let '(ob, c3) :=
    useCallback Report.same (onBlur_cell h) (Props.onBlur p, id)
                {| Report.cb := Props.onBlur p; Report.id := id |} in
  let '(fo, c4) :=
    useCallback Report.same (onFocus_cell h) (Props.onFocus p, id)
                {| Report.cb := Props.onFocus p; Report.id := id |} in
  {| markup :=
       Elem "React.Fragment" []
         [ Elem "div" [("className", JStr (lit "form-control"))]
             [ Elem "label"
                 [ ("htmlFor", JStr id);
                   ("className", JStr (lit "label hidden"));
                   ("style", JObj [(lit "display", JStr (lit "none"))]) ]
                 [ Elem "span" [("className", JStr (lit "label-text mb-2"))]
                     [Val (Props.label p)] ];
               Elem "input"
                 ([ ("id", JStr id);
                    ("name", JStr id);
                    ("value",
                     if truthy value || same_value value (JNum (Int 0))
                     then value else JStr []);
                    ("placeholder", Props.placeholder p);
                    ("required", Props.required p);
                    ("disabled", js_or (Props.disabled p) (Props.readonly p));
                    ("autoFocus", Props.autofocus p);
                    ("className", JStr (lit "input input-bordered w-full")) ]
                  ++ rest ++ htmlInputProps
                  ++ [("aria-describedby",
                       ariaDescribedByIds id (truthy (Schema.examples schema)))])
                 [];
               when (opt_num max)
                 (Elem "div"
                    [("className",
                      JStr (lit "text-right text-xs text-base-content/50 mt-2"))]
                    [ Val (JNum (Int (Z.of_nat byteLength)));
                      Val (JStr (lit "/"));
                      Val (opt_num max) ]) ];
           match Schema.examples schema with
           | JArr examples =>
               Elem "datalist" [("id", examplesId id)]
                 (map (fun example =>
                         Elem "option" [("key", example); ("value", example)] [])
                      (examples ++
                         if truthy (js_and (Schema.default schema)
                                           (JBool (negb (includes examples
                                                           (Schema.default schema)))))
                         then [Schema.default schema] else []))
           | _ => Val (JBool false)
           end ];
     change := match Props.onChangeOverride p with
               | Some f => Override f
               | None => Own oc
               end;
     blur := ob; focus := fo;
     hooks := {| byteLength_cell := c1; onChange_cell := c2;
                 onBlur_cell := c3; onFocus_cell := c4 |} |}.

Definition renders `{utils} (history : list Props.t) : Hooks :=
  fold_left (fun h p => hooks (render p h)) history mount.

Definition over_limit (max : option jsnum) (value : jsstring) : bool :=
  truthy (opt_num max) && exceeds (length (utf8 value)) max.

(** The handler a render makes from its dependencies. *)
Definition change_of (d : change_deps) : ChangeEnv :=
  {| onChange := fst d; options := snd d;
     maxByteLength := Options.maxByteLength (snd d) |}.

Definition hooks_ok (h : Hooks) : Prop :=
  coherent change_of (onChange_cell h)
  /\ coherent encode_length (byteLength_cell h)
  /\ coherent Report.fresh (onBlur_cell h)
  /\ coherent Report.fresh (onFocus_cell h).

Definition view `{utils} (p : Props.t) : element :=
  markup (render p mount).

End BaseInputTemplate.

(** ** SelectWidget *)

Module SelectWidget.

(** [event.target] of the select element: its [value], and the [value] of
    each of its [selectedOptions]. *)
Record ChangeEvent := { value : jsstring; selectedOptions : list jsstring }.

(** What [handleChange] closes over; the same five values are its
    dependencies. *)
Record ChangeEnv := {
  multiple : bool;
  isEnumeratedObject : jsval;
  enumOptions : option (list EnumOption.t);
  optEmptyVal : jsval;
  onChange : callback
}.

Definition same_env (a b : ChangeEnv) : bool :=
  Bool.eqb (multiple a) (multiple b)
  && same_value (isEnumeratedObject a) (isEnumeratedObject b)
  && same_option (same_list EnumOption.same) (enumOptions a) (enumOptions b)
  && same_value (optEmptyVal a) (optEmptyVal b)
  && same_callback (onChange a) (onChange b).

(** A handler returns after its effects, or throws before any. *)
Inductive outcome :=
| Done (effs : list effect)
| TypeError.

(** [enumOptions[index].value]; reading [value] of undefined throws. *)
Definition direct (env : ChangeEnv) (i : jsnum) : option jsval :=
  l ← enumOptions env; o ← index l i; Some (EnumOption.value o).

Definition handleChange `{utils} (env : ChangeEnv) (event : ChangeEvent)
  : outcome :=
  if multiple env then
    match
      mapM (fun option_value =>
              let index := Number option_value in
              if truthy (isEnumeratedObject env) then direct env index
              else Some (enumOptionsValueForIndex (String_of_num index)
                           (enumOptions env) (optEmptyVal env)))
           (selectedOptions event)
    with
    | Some newValue => Done [OnChange (onChange env) (JArr newValue)]
    | None => TypeError
    end
  else
    let index := value event in
    match index with
    | [] => Done [OnChange (onChange env) (optEmptyVal env)]
    | _ =>
        if truthy (isEnumeratedObject env) then
          match direct env (Number index) with
          | Some v => Done [OnChange (onChange env) v]
          | None => TypeError
          end
        else
          Done [OnChange (onChange env)
                  (enumOptionsValueForIndex index (enumOptions env)
                     (optEmptyVal env))]
    end.

Definition _onBlur (env : Report.env) (value : jsstring) : list effect :=
  match Report.cb env with
  | Some f => [OnBlur f (JStr (Report.id env)) (JStr value)]
  | None => []
  end.

Definition _onFocus (env : Report.env) (value : jsstring) : list effect :=
  match Report.cb env with
  | Some f => [OnFocus f (JStr (Report.id env)) (JStr value)]
  | None => []
  end.

(** [getDisplayValue(val)] *)
Definition getDisplayValue `{utils} (val : jsval) : jsval :=
  if negb (truthy val) then JStr []
  else if typeof_object val then
    if truthy (get val "name") then get val "name"
    else js_or (get val "label") (JSON_stringify val)
  else JStr (ToString val).

(** [enumOptions && enumOptions[0]?.value
     && typeof enumOptions[0].value === "object"] *)
Definition enumerated_object (enumOptions : option (list EnumOption.t)) : jsval :=
  match enumOptions with
  | None => JUndefined
  | Some l =>
      let v := default JUndefined (EnumOption.value <$> l !! 0%nat) in
      js_and v (JBool (typeof_object v))
  end.

(** [typeof multiple === "undefined" ? false : !!multiple] *)
Definition is_multiple (m : jsval) : bool :=
  match m with
  | JUndefined => false
  | _ => truthy m
  end.

(** [schema.enumNames?.[i]] *)
Definition enumName (enumNames : jsval) (i : nat) : jsval :=
  match enumNames with
  | JArr l => default JUndefined (l !! i)
  | JObj fields => assoc (String_of_nat i) fields
  | JStr s => match s !! i with Some c => JStr [c] | None => JUndefined end
  | _ => JUndefined
  end.

(** [enumOptions || (Array.isArray(schema.examples)
     ? schema.examples.map((example) => ({ value: example, label: example }))
     : [])] *)
Definition optionsList (p : Props.t) : list EnumOption.t :=
  match Options.enumOptions (Props.options p) with
  | Some l => l
  | None =>
      match Schema.examples (Props.schema p) with
      | JArr examples =>
          map (fun example =>
                 {| EnumOption.value := example; EnumOption.label := example |})
              examples
      | _ => []
      end
  end.

Record Hooks := {
  handleChange_cell : option (ChangeEnv * ChangeEnv);
  onBlur_cell : Report.cell;
  onFocus_cell : Report.cell
}.

Definition mount : Hooks :=
  {| handleChange_cell := None; onBlur_cell := None; onFocus_cell := None |}.

Record Rendered := {
  markup : element;
  change : ChangeEnv;
  blur : Report.env;
  focus : Report.env;
  hooks : Hooks
}.

(** The five values [handleChange] depends on and closes over. *)
Definition closure (p : Props.t) : ChangeEnv :=
  let enumOptions := Options.enumOptions (Props.options p) in
  {| multiple := is_multiple (Props.multiple p);
     isEnumeratedObject := enumerated_object enumOptions;
     enumOptions := enumOptions;
     optEmptyVal := Options.emptyValue (Props.options p);
     onChange := Props.onChange p |}.

Definition render `{utils} (p : Props.t) (h : Hooks) : Rendered :=
  let schema := Props.schema p in
  let enumOptions := Options.enumOptions (Props.options p) in
  let multiple := is_multiple (Props.multiple p) in
  let isEnumeratedObject := enumerated_object enumOptions in
  let '(hc, c1) :=
    useCallback same_env (handleChange_cell h) (closure p) (closure p) in
  let '(ob, c2) :=
    useCallback Report.same (onBlur_cell h) (Props.onBlur p, Props.id p)
                {| Report.cb := Props.onBlur p; Report.id := Props.id p |} in
  let '(fo, c3) :=
    useCallback Report.same (onFocus_cell h) (Props.onFocus p, Props.id p)
                {| Report.cb := Props.onFocus p; Report.id := Props.id p |} in
  let selectedIndexes :=
    enumOptionsIndexForValue (Props.value p) enumOptions multiple in
  let selectedValues :=
    match selectedIndexes with
    | JArr l => l
    | v => [v]
    end in
  {| markup :=
       Elem "div" [("className", JStr (lit "form-control w-full"))]
         [ Elem "select"
             [ ("id", JStr (Props.id p));
               ("className",
                JStr (lit "select select-bordered w-full "
                        ++ (if truthy (js_or (Props.disabled p) (Props.readonly p))
                            then lit "select-disabled" else [])));
               ("value",
                if multiple then JUndefined
                else js_or (default JUndefined (selectedValues !! 0%nat)) (JStr []));
               ("multiple", JBool multiple);
               ("disabled", js_or (Props.disabled p) (Props.readonly p)) ]
             (when (JBool (negb multiple))
                (Elem "option" [("value", JStr []); ("disabled", JBool true)]
                   [Val (js_or (js_or (Props.placeholder p) (Props.label p))
                               (JStr (lit "Select...")))])
              :: imap (fun i o =>
                         Elem "option"
                           [ ("key", JNum (Int (Z.of_nat i)));
                             ("value", JNum (Int (Z.of_nat i)));
                             ("selected",
                              if multiple
                              then JBool (existsb
                                            (same_value (JStr (String_of_nat i)))
                                            selectedValues)
                              else JUndefined) ]
                           [Val (js_or (enumName (Schema.enumNames schema) i)
                                       (if truthy isEnumeratedObject
                                        then EnumOption.label o
                                        else getDisplayValue (EnumOption.label o)))])
                      (optionsList p)) ];
     change := hc; blur := ob; focus := fo;
     hooks := {| handleChange_cell := c1; onBlur_cell := c2; onFocus_cell := c3 |} |}.

Definition renders `{utils} (history : list Props.t) : Hooks :=
  fold_left (fun h p => hooks (render p h)) history mount.

(** The option values the rendered select element can report: the
    decimal index of one of the options it was given.  (A single select
    can also report the empty value of its placeholder.) *)
Definition rendered_option (p : Props.t) (v : jsstring) : Prop :=
  exists i : nat, (i < length (optionsList p))%nat /\ v = String_of_nat i.

Definition hooks_ok (h : Hooks) : Prop :=
  coherent (fun d : ChangeEnv => d) (handleChange_cell h)
  /\ coherent Report.fresh (onBlur_cell h)
  /\ coherent Report.fresh (onFocus_cell h).

Definition view `{utils} (p : Props.t) : element :=
  markup (render p mount).

Definition reportable (p : Props.t) (event : ChangeEvent) : Prop :=
  if is_multiple (Props.multiple p)
  then Forall (rendered_option p) (selectedOptions event)
  else value event = [] \/ rendered_option p (value event).

End SelectWidget.

(** ** The host's side *)

Module Form.

(** The host keeps the value of the field and replaces it with what the
    widget passes to [onChange]; nothing else a widget does reaches it. *)
Definition notify (formData : jsval) (e : effect) : jsval :=
  match e with
  | OnChange _ v => v
  | _ => formData
  end.

Definition after (formData : jsval) (effs : list effect) : jsval :=
  fold_left notify effs formData.

End Form.

(** ** An implementation of the imported interface

    Used to run the components on examples.  [enumOptionsValueForIndex]
    and [enumOptionsIndexForValue] follow the host library's documentation
    for a single index; [JSON_stringify] is exact on values whose strings
    need no escape other than the quote and the backslash. *)

Module Rjsf.

(** An empty or null index is no selection; otherwise the option at
    [Number(valueIndex)], or [emptyValue] when there is none. *)
Definition enumOptionsValueForIndex (valueIndex : jsstring)
           (allEnumOptions : option (list EnumOption.t)) (emptyValue : jsval)
  : jsval :=
  let i := match valueIndex with [] => Int (-1) | _ => Number valueIndex end in
  match index (default [] allEnumOptions) i with
  | Some o => EnumOption.value o
  | None => emptyValue
  end.

Definition isSelected (value selected : jsval) : bool :=
  match selected with
  | JArr l => existsb (fun sel => same_value sel value) l
  | _ => same_value selected value
  end.

Definition enumOptionsIndexForValue (value : jsval)
           (allEnumOptions : option (list EnumOption.t)) (multiple : bool)
  : jsval :=
  let selectedIndexes :=
    omap (fun x => x)
         (imap (fun i o =>
                  if isSelected (EnumOption.value o) value
                  then Some (JStr (String_of_nat i)) else None)
               (default [] allEnumOptions)) in
  if multiple then JArr selectedIndexes
  else default JUndefined (selectedIndexes !! 0%nat).

Definition ui_prefix : jsstring := lit "ui:".

Fixpoint uiOptions_of (fields : list (jsstring * jsval))
  : list (jsstring * jsval) :=
  match fields with
  | [] => []
  | (k, v) :: rest =>
      let later := uiOptions_of rest in
      if same_string (take 3 k) ui_prefix then
        match v with
        | JObj inner =>
            if same_string k (lit "ui:widget") then later
            else if same_string k (lit "ui:options") then later ++ inner
            else later ++ [(drop 3 k, v)]
        | _ => later ++ [(drop 3 k, v)]
        end
      else later
  end.

Definition getUiOptions (uiSchema : jsval) : jsval :=
  match uiSchema with
  | JObj fields => JObj (uiOptions_of fields)
  | _ => JObj []
  end.

Definition getInputProps (schema : Schema.t) (defaultType : jsval)
           (options : Options.t) : list (string * jsval) :=
  [("type", js_or defaultType (JStr (lit "text")))].

Definition examplesId (id : jsstring) : jsval := JStr (id ++ lit "__examples").

Definition ariaDescribedByIds (id : jsstring) (includeExamples : bool) : jsval :=
  JStr (id ++ lit "__error " ++ id ++ lit "__description " ++ id ++ lit "__help"
           ++ if includeExamples then lit " " ++ id ++ lit "__examples" else []).

Definition quote (s : jsstring) : jsstring :=
  [34%N] ++ flat_map (fun c => if (c =? 34)%N || (c =? 92)%N
                               then [92%N; c] else [c]) s ++ [34%N].

Fixpoint json (v : jsval) : jsstring :=
  match v with
  | JUndefined | JNull | JNum NaN => lit "null"
  | JBool true => lit "true"
  | JBool false => lit "false"
  | JNum n => String_of_num n
  | JStr s => quote s
  | JArr items => lit "[" ++ join (lit ",") (map json items) ++ lit "]"
  | JObj fields =>
      lit "{"
      ++ join (lit ",")
           (omap (fun kv =>
                    match kv with
                    | (_, JUndefined) => None
                    | (k, x) => Some (quote k ++ lit ":" ++ json x)
                    end) fields)
      ++ lit "}"
  end.

Definition JSON_stringify (v : jsval) : jsval :=
  match v with
  | JUndefined => JUndefined
  | _ => JStr (json v)
  end.

Definition reference : utils :=
  {| Host.enumOptionsValueForIndex := enumOptionsValueForIndex;
     Host.enumOptionsIndexForValue := enumOptionsIndexForValue;
     Host.getUiOptions := getUiOptions;
     Host.getInputProps := getInputProps;
     Host.examplesId := examplesId;
     Host.ariaDescribedByIds := ariaDescribedByIds;
     Host.JSON_stringify := JSON_stringify |}.

End Rjsf.

(** ** Sample props and events *)

Module Sample.

Definition props : Props.t :=
  {| Props.id := lit "root_field";
     Props.value := JUndefined;
     Props.required := JBool false;
     Props.disabled := JUndefined;
     Props.readonly := JUndefined;
     Props.autofocus := JUndefined;
     Props.multiple := JUndefined;
     Props.label := JStr (lit "Field");
     Props.placeholder := JUndefined;
     Props.type := JUndefined;
     Props.schema := Schema.empty;
     Props.options := Options.empty;
     Props.onChange := 1%nat;
     Props.onFocus := Some 2%nat;
     Props.onBlur := Some 3%nat;
     Props.onChangeOverride := None |}.

Definition with_schema (p : Props.t) (s : Schema.t) : Props.t :=
  {| Props.id := Props.id p; Props.value := Props.value p;
     Props.required := Props.required p; Props.disabled := Props.disabled p;
     Props.readonly := Props.readonly p; Props.autofocus := Props.autofocus p;
     Props.multiple := Props.multiple p; Props.label := Props.label p;
     Props.placeholder := Props.placeholder p; Props.type := Props.type p;
     Props.schema := s; Props.options := Props.options p;
     Props.onChange := Props.onChange p; Props.onFocus := Props.onFocus p;
     Props.onBlur := Props.onBlur p;
     Props.onChangeOverride := Props.onChangeOverride p |}.

Definition with_options (p : Props.t) (o : Options.t) : Props.t :=
  {| Props.id := Props.id p; Props.value := Props.value p;
     Props.required := Props.required p; Props.disabled := Props.disabled p;
     Props.readonly := Props.readonly p; Props.autofocus := Props.autofocus p;
     Props.multiple := Props.multiple p; Props.label := Props.label p;
     Props.placeholder := Props.placeholder p; Props.type := Props.type p;
     Props.schema := Props.schema p; Props.options := o;
     Props.onChange := Props.onChange p; Props.onFocus := Props.onFocus p;
     Props.onBlur := Props.onBlur p;
     Props.onChangeOverride := Props.onChangeOverride p |}.

Definition with_value (p : Props.t) (v : jsval) : Props.t :=
  {| Props.id := Props.id p; Props.value := v;
     Props.required := Props.required p; Props.disabled := Props.disabled p;
     Props.readonly := Props.readonly p; Props.autofocus := Props.autofocus p;
     Props.multiple := Props.multiple p; Props.label := Props.label p;
     Props.placeholder := Props.placeholder p; Props.type := Props.type p;
     Props.schema := Props.schema p; Props.options := Props.options p;
     Props.onChange := Props.onChange p; Props.onFocus := Props.onFocus p;
     Props.onBlur := Props.onBlur p;
     Props.onChangeOverride := Props.onChangeOverride p |}.

Definition with_multiple (p : Props.t) (m : jsval) : Props.t :=
  {| Props.id := Props.id p; Props.value := Props.value p;
     Props.required := Props.required p; Props.disabled := Props.disabled p;
     Props.readonly := Props.readonly p; Props.autofocus := Props.autofocus p;
     Props.multiple := m; Props.label := Props.label p;
     Props.placeholder := Props.placeholder p; Props.type := Props.type p;
     Props.schema := Props.schema p; Props.options := Props.options p;
     Props.onChange := Props.onChange p; Props.onFocus := Props.onFocus p;
     Props.onBlur := Props.onBlur p;
     Props.onChangeOverride := Props.onChangeOverride p |}.

Definition with_override (p : Props.t) (f : option callback) : Props.t :=
  {| Props.id := Props.id p; Props.value := Props.value p;
     Props.required := Props.required p; Props.disabled := Props.disabled p;
     Props.readonly := Props.readonly p; Props.autofocus := Props.autofocus p;
     Props.multiple := Props.multiple p; Props.label := Props.label p;
     Props.placeholder := Props.placeholder p; Props.type := Props.type p;
     Props.schema := Props.schema p; Props.options := Props.options p;
     Props.onChange := Props.onChange p; Props.onFocus := Props.onFocus p;
     Props.onBlur := Props.onBlur p;
     Props.onChangeOverride := f |}.

(** A field of type array: the file widget takes several files. *)
Definition array_schema : Schema.t :=
  {| Schema.type := JStr (lit "array"); Schema.examples := JUndefined;
     Schema.default := JUndefined; Schema.enumNames := JUndefined |}.

Definition files_props : Props.t := with_schema props array_schema.

Definition file (name : string) : FileWidget.File :=
  JObj [(lit "name", JStr (lit name))].

Definition two_files : FileWidget.InputEvent :=
  {| FileWidget.files := Some [file "a.txt"; file "b.png"] |}.

Definition no_files : FileWidget.InputEvent :=
  {| FileWidget.files := Some [] |}.

Definition url_a : jsstring := lit "data:text/plain;base64,YQ==".
Definition url_b : jsstring := lit "data:image/png;base64,iVBORw0KGgo=".

Definition read_error : jsval := JObj [(lit "type", JStr (lit "error"))].

Definition with_limit (m : Z) : Options.t :=
  {| Options.multiple := JUndefined; Options.accept := JUndefined;
     Options.maxByteLength := Some (Int m); Options.rows := JUndefined;
     Options.emptyValue := JUndefined; Options.enumOptions := None |}.

Definition option_of (v : jsval) (l : string) : EnumOption.t :=
  {| EnumOption.value := v; EnumOption.label := JStr (lit l) |}.

Definition with_enum (l : list EnumOption.t) : Options.t :=
  {| Options.multiple := JUndefined; Options.accept := JUndefined;
     Options.maxByteLength := None; Options.rows := JUndefined;
     Options.emptyValue := JUndefined; Options.enumOptions := Some l |}.

Definition colours : list EnumOption.t :=
  [ option_of (JStr (lit "red")) "Red"; option_of (JStr (lit "green")) "Green" ].

Definition ident (n : Z) : jsval := JObj [(lit "id", JNum (Int n))].

(** Options whose values are objects. *)
Definition people : list EnumOption.t :=
  [ option_of (ident 1) "Ada"; option_of (ident 2) "Grace" ].

Definition pick (v : string) : SelectWidget.ChangeEvent :=
  {| SelectWidget.value := lit v; SelectWidget.selectedOptions := [lit v] |}.

Definition pick_all (vs : list string) : SelectWidget.ChangeEvent :=
  {| SelectWidget.value := match vs with v :: _ => lit v | [] => [] end;
     SelectWidget.selectedOptions := map lit vs |}.

Definition section_title : TitleField.Props :=
  {| TitleField.id := lit "root__title"; TitleField.title := lit "Settings";
     TitleField.uiSchema := JObj [] |}.

Definition overridden_title : TitleField.Props :=
  {| TitleField.id := lit "root__title"; TitleField.title := lit "Settings";
     TitleField.uiSchema := JObj [(lit "ui:title", JStr (lit "Advanced"))] |}.

End Sample.

(** ** Reading an element tree *)

Module Tree.

(** The value an element ends up with for an attribute: the last entry of
    that name, or [undefined]. *)
Definition attr (name : string) (attrs : list (string * jsval)) : jsval :=
  fold_left (fun found kv => if String.eqb (fst kv) name then snd kv else found)
            attrs JUndefined.

Definition attrs_of (e : element) : list (string * jsval) :=
  match e with
  | Elem _ attrs _ => attrs
  | Val _ => []
  end.

Definition children_of (e : element) : list element :=
  match e with
  | Elem _ _ children => children
  | Val _ => []
  end.

(** The descendant reached by taking, at each step, the child at the given
    position. *)
Fixpoint at_path (path : list nat) (e : element) : option element :=
  match path with
  | [] => Some e
  | i :: rest =>
      match children_of e !! i with
      | Some c => at_path rest c
      | None => None
      end
  end.


Definition names (attrs : list (string * jsval)) : list string := map fst attrs.

Definition tag_of (e : element) : option string :=
  match e with
  | Elem tag _ _ => Some tag
  | Val _ => None
  end.

End Tree.

(** ** A mounted file widget through a change event *)

Module Loading.

(** The hooks after the state updates among [effs]. *)
Definition after (h : FileWidget.Hooks) (effs : list effect) : FileWidget.Hooks :=
  fold_left FileWidget.apply effs h.

(** The read of a reader did not fail. *)
Definition not_failed (r : option FileWidget.read_result) : Prop :=
  forall error, r <> Some (FileWidget.Failed error).

End Loading.

(** ** More sample props *)

Module Case.

Definition with_readonly (p : Props.t) (r : jsval) : Props.t :=
  {| Props.id := Props.id p; Props.value := Props.value p;
     Props.required := Props.required p; Props.disabled := Props.disabled p;
     Props.readonly := r; Props.autofocus := Props.autofocus p;
     Props.multiple := Props.multiple p; Props.label := Props.label p;
     Props.placeholder := Props.placeholder p; Props.type := Props.type p;
     Props.schema := Props.schema p; Props.options := Props.options p;
     Props.onChange := Props.onChange p; Props.onFocus := Props.onFocus p;
     Props.onBlur := Props.onBlur p;
     Props.onChangeOverride := Props.onChangeOverride p |}.

Definition read_only : Props.t := with_readonly Sample.props (JBool true).

(** A textarea holding "héllo" under a limit of 5 bytes. *)
Definition hello : jsstring := [104; 233; 108; 108; 111]%N.

Definition limited : Props.t :=
  Sample.with_value (Sample.with_options Sample.props (Sample.with_limit 5))
                    (JStr hello).

Definition text_env (m : Z) : TextareaWidget.ChangeEnv :=
  {| TextareaWidget.onChange := 1%nat;
     TextareaWidget.maxByteLength := Some (Int m) |}.

Definition input_env (m : Z) : BaseInputTemplate.ChangeEnv :=
  {| BaseInputTemplate.onChange := 1%nat;
     BaseInputTemplate.options := Sample.with_limit m;
     BaseInputTemplate.maxByteLength := Some (Int m) |}.

Definition people : Props.t :=
  Sample.with_options Sample.props (Sample.with_enum Sample.people).

Definition colours : Props.t :=
  Sample.with_options Sample.props (Sample.with_enum Sample.colours).

Definition several (p : Props.t) : Props.t := Sample.with_multiple p (JBool true).

Definition nothing_selected : SelectWidget.ChangeEvent :=
  {| SelectWidget.value := []; SelectWidget.selectedOptions := [] |}.

(** What a host's [onChange] throws. *)
Definition thrown : jsval := JObj [(lit "message", JStr (lit "invalid"))].


End Case.

(** ** FileWidget's change handler, with the reads and a host that throws

    [FileWidget.handleChange] follows the widget while the host's
    [onChange] returns.  Here the same lines of the source are followed
    further out.  Every [reader.readAsDataURL(file)] the handler starts is
    part of the history.  And a call of [onChange] may throw: it is made
    inside the [then] callback, so the throw rejects the promise that
    [then] returns, and the [catch] chained on that promise runs with the
    thrown value. *)

Module FileChange.

(** What the host's callback does when called with a value: it returns
    ([None]) or it throws ([Some error]). *)
Definition outcome := callback -> jsval -> option jsval.

(** The [then] callback; when [onChange] throws, the [catch] callback
    follows with what was thrown. *)
Definition on_fulfilled (throws : outcome) (env : FileWidget.ChangeEnv)
           (dataUrls : list jsval) : list effect :=
  let v := if FileWidget.multi env then JArr dataUrls
           else js_or (default JUndefined (dataUrls !! 0%nat)) JNull in
  SetIsLoading false :: OnChange (FileWidget.onChange env) v ::
  match throws (FileWidget.onChange env) v with
  | Some error => FileWidget.on_rejected error
  | None => []
  end.

(** The reader of file [i] ends with [r]. *)
Definition reader_done (throws : outcome) (a : FileWidget.Aggregate) (i : nat)
           (r : FileWidget.read_result) : list effect * FileWidget.Aggregate :=
  match FileWidget.alreadyCalled a !! i with
  | Some false =>
      let called := <[i := true]> (FileWidget.alreadyCalled a) in
      match r with
      | FileWidget.Loaded url =>
          let vals := <[i := JStr url]> (FileWidget.values a) in
          let left := pred (FileWidget.remaining a) in
          if FileWidget.settled a then
            ([], {| FileWidget.env := FileWidget.env a;
                    FileWidget.values := vals;
                    FileWidget.alreadyCalled := called;
                    FileWidget.remaining := left;
                    FileWidget.settled := true |})
          else if (left =? 0)%nat then
            (on_fulfilled throws (FileWidget.env a) vals,
             {| FileWidget.env := FileWidget.env a;
                FileWidget.values := vals;
                FileWidget.alreadyCalled := called;
                FileWidget.remaining := left;
                FileWidget.settled := true |})
          else
            ([], {| FileWidget.env := FileWidget.env a;
                    FileWidget.values := vals;
                    FileWidget.alreadyCalled := called;
                    FileWidget.remaining := left;
                    FileWidget.settled := false |})
      | FileWidget.Failed error =>
          if FileWidget.settled a then
            ([], {| FileWidget.env := FileWidget.env a;
                    FileWidget.values := FileWidget.values a;
                    FileWidget.alreadyCalled := called;
                    FileWidget.remaining := FileWidget.remaining a;
                    FileWidget.settled := true |})
          else
            (FileWidget.on_rejected error,
             {| FileWidget.env := FileWidget.env a;
                FileWidget.values := FileWidget.values a;
                FileWidget.alreadyCalled := called;
                FileWidget.remaining := FileWidget.remaining a;
                FileWidget.settled := true |})
      end
  | _ => ([], a)
  end.

(** The history of one change event: reads the handler started, reads that
    ended, and what the widget did. *)
Inductive step :=
| Started (i : nat) (file : FileWidget.File)
| Ended (i : nat) (r : FileWidget.read_result)
| Did (e : effect).

Fixpoint run (throws : outcome) (reads : list FileWidget.read_result)
         (a : FileWidget.Aggregate) (order : list nat) : list step :=
  match order with
  | [] => []
  | i :: rest =>
      match reads !! i with
      | Some r =>
          let '(effs, a') := reader_done throws a i r in
          Ended i r :: map Did effs ++ run throws reads a' rest
      | None => run throws reads a rest
      end
  end.

(** [handleChange(event)], followed by the reads ending in [order]:
    [fileList.map] starts one reader per file, in the order of the list,
    before any of them can end. *)
Definition handleChange (throws : outcome) (env : FileWidget.ChangeEnv)
           (event : FileWidget.InputEvent)
           (reads : list FileWidget.read_result) (order : list nat)
  : list step :=
  match FileWidget.files event with
  | None => []
  | Some fileList =>
      let n := length fileList in
      Did (SetIsLoading true) ::
      imap Started fileList ++
      if (n =? 0)%nat then map Did (on_fulfilled throws env [])
      else run throws (take n reads)
               {| FileWidget.env := env;
                  FileWidget.values := replicate n JUndefined;
                  FileWidget.alreadyCalled := replicate n false;
                  FileWidget.remaining := n;
                  FileWidget.settled := false |}
               order
  end.

Definition effects (log : list step) : list effect :=
  omap (fun s => match s with Did e => Some e | _ => None end) log.

(** The calls of [readAsDataURL]: which file, as which element. *)
Definition started (log : list step) : list (nat * FileWidget.File) :=
  omap (fun s => match s with Started i file => Some (i, file) | _ => None end)
       log.

(** What the [catch] callback does right after an effect: nothing, unless
    the effect is a call of [onChange] that throws. *)
Definition caught (throws : outcome) (e : effect) : list effect :=
  match e with
  | OnChange f v =>
      match throws f v with
      | Some error => FileWidget.on_rejected error
      | None => []
      end
  | _ => []
  end.

(** The effects of a history made while [onChange] returns, as they are
    when [onChange] behaves as [throws] says. *)
Definition with_catch (throws : outcome) (effs : list effect) : list effect :=
  flat_map (fun e => e :: caught throws e) effs.

(** A host whose callbacks return, and one whose callbacks throw [error]. *)
Definition returns : outcome := fun _ _ => None.
Definition always (error : jsval) : outcome := fun _ _ => Some error.

End FileChange.

(** ** Strings that name an index

    At most fifteen decimal digits: on these [Number] is exact, the
    integer they spell being below 2^53. *)

Module Digits.

Definition digit (c : N) : Prop := (48 <= c <= 57)%N.

Definition index_string (s : jsstring) : Prop :=
  Forall digit s /\ (length s <= 15)%nat.

End Digits.

(** ** Values of the type the source casts to

    [schema.examples as string[]]: on strings a React key is the value
    itself and [includes] compares contents. *)

Module Typed.


End Typed.

(** ** Names the input of BaseInputTemplate takes from elsewhere

    [onChange], [onBlur] and [onFocus] are written after the two spreads,
    so the handlers of the template stand under these names whatever
    [getInputProps] returns; [key] and [ref] in a spread are taken by React
    and are no properties of the element. *)

Module Reserved.

Definition handlers : list string := ["onChange"; "onBlur"; "onFocus"].

Definition react : list string := ["key"; "ref"].

End Reserved.

(* ===================================================================== *)
(** * Part II.  Theorems                                                  *)
(* ===================================================================== *)

(** ** Dependencies that compare the same are equal *)

Section Same.

Lemma same_list_eq {A} (same : A -> A -> bool) (l1 l2 : list A) :
  (forall x y, same x y = true -> x = y) ->
  same_list same l1 l2 = true -> l1 = l2.
Proof.
  intros Hsame. revert l2.
  induction l1 as [|x l1 IH]; intros [|y l2]; simpl; try discriminate; auto.
  intros [Hx Hl]%andb_true_iff. f_equal; auto.
Qed.

Lemma same_string_eq (a b : jsstring) : same_string a b = true -> a = b.
Proof. apply same_list_eq. intros x y. apply N.eqb_eq. Qed.

Lemma same_num_eq (a b : jsnum) : same_num a b = true -> a = b.
Proof.
  destruct a, b; simpl; try discriminate; auto.
  intros ->%Z.eqb_eq. reflexivity.
Qed.

Lemma same_value_eq : forall a b : jsval, same_value a b = true -> a = b.
Proof.
  fix IH 1.
  intros [| |x|x|x|x|x] [| |y|y|y|y|y]; simpl; try discriminate;
    try (intros _; reflexivity).
  - intros ->%Bool.eqb_prop. reflexivity.
  - intros ->%same_num_eq. reflexivity.
  - intros ->%same_string_eq. reflexivity.
  - intros H. f_equal. revert y H.
    induction x as [|a x IHx]; intros [|b y]; simpl; try discriminate;
      try (intros _; reflexivity).
    intros [Ha Hl]%andb_true_iff. f_equal; [apply IH, Ha | apply IHx, Hl].
  - intros H. f_equal. revert y H.
    induction x as [|[k v] x IHx]; intros [|[k' v'] y]; simpl;
      try discriminate; try (intros _; reflexivity).
    intros [[Hk Hv]%andb_true_iff Hl]%andb_true_iff.
    f_equal; [f_equal; [apply same_string_eq, Hk | apply IH, Hv] | apply IHx, Hl].
Qed.

Lemma same_option_eq {A} (same : A -> A -> bool) (a b : option A) :
  (forall x y, same x y = true -> x = y) ->
  same_option same a b = true -> a = b.
Proof.
  intros Hsame. destruct a, b; simpl; try discriminate; auto.
  intros H. f_equal. auto.
Qed.

Lemma same_pair_eq {A B} (sa : A -> A -> bool) (sb : B -> B -> bool) x y :
  (forall a b, sa a b = true -> a = b) ->
  (forall a b, sb a b = true -> a = b) ->
  same_pair sa sb x y = true -> x = y.
Proof.
  intros Ha Hb. destruct x, y. unfold same_pair. simpl.
  intros [H1 H2]%andb_true_iff. f_equal; auto.
Qed.

Lemma same_callback_eq (f g : callback) : same_callback f g = true -> f = g.
Proof. apply Nat.eqb_eq. Qed.

Lemma EnumOption_same_eq (a b : EnumOption.t) :
  EnumOption.same a b = true -> a = b.
Proof.
  destruct a, b. unfold EnumOption.same. simpl.
  intros [H1 H2]%andb_true_iff.
  apply same_value_eq in H1, H2. congruence.
Qed.

Lemma enumOptions_same_eq (a b : option (list EnumOption.t)) :
  same_option (same_list EnumOption.same) a b = true -> a = b.
Proof.
  apply same_option_eq. intros x y. apply same_list_eq, EnumOption_same_eq.
Qed.

Lemma Options_same_eq (a b : Options.t) : Options.same a b = true -> a = b.
Proof.
  destruct a, b. unfold Options.same. simpl.
  rewrite !andb_true_iff. intros [[[[[H1 H2] H3] H4] H5] H6].
  apply same_value_eq in H1, H2, H4, H5.
  apply (same_option_eq _ _ _ same_num_eq) in H3.
  apply enumOptions_same_eq in H6. congruence.
Qed.

Lemma Report_same_eq (a b : Report.deps) : Report.same a b = true -> a = b.
Proof.
  apply same_pair_eq.
  - intros x y. apply same_option_eq, same_callback_eq.
  - apply same_string_eq.
Qed.

End Same.

(** ** FileWidget: the aggregated reads *)

Section FileWidgetRun.

Import FileWidget.

Lemma waiting_insert (called : list bool) (i : nat) :
  called !! i = Some false ->
  waiting (<[i := true]> called) = pred (waiting called).
Proof.
  revert i. induction called as [|b called IH]; intros [|i]; simpl;
    try discriminate.
  - intros [= ->]. reflexivity.
  - intros H. rewrite (IH i H).
    assert (0 < waiting called)%nat.
    { clear IH. revert i H. induction called as [|c called IH]; intros [|i];
        simpl; try discriminate.
      - intros [= ->]. lia.
      - intros H. specialize (IH i H). lia. }
    destruct b; lia.
Qed.

Lemma waiting_pos (called : list bool) (i : nat) :
  called !! i = Some false -> (0 < waiting called)%nat.
Proof.
  revert i. induction called as [|b called IH]; intros [|i]; simpl;
    try discriminate.
  - intros [= ->]. lia.
  - intros H. specialize (IH i H). lia.
Qed.

Lemma waiting_none (called : list bool) (i : nat) :
  waiting called = 0%nat -> (i < length called)%nat ->
  called !! i = Some true.
Proof.
  intros Hw Hi. destruct (called !! i) as [[|]|] eqn:E.
  - reflexivity.
  - apply waiting_pos in E. lia.
  - apply lookup_ge_None in E. lia.
Qed.

Variable reads : list read_result.
Variable n : nat.
Variable e : ChangeEnv.
Hypothesis reads_short : (length reads <= n)%nat.

Lemma reader_done_settled a i r :
  settled a = true ->
  fst (reader_done a i r) = [] /\ settled (snd (reader_done a i r)) = true.
Proof.
  intros Hs. unfold reader_done.
  destruct (alreadyCalled a !! i) as [[|]|]; simpl; auto.
  destruct r; rewrite Hs; simpl; auto.
Qed.

(** Once the aggregate has settled the widget does nothing more. *)
Lemma run_settled order a :
  settled a = true ->
  Forall (fun it => exists i r, it = Ended i r) (run reads a order).
Proof.
  revert a. induction order as [|i order IH]; intros a Hs; simpl.
  - constructor.
  - destruct (reads !! i) as [r|]; [|auto].
    destruct (reader_done_settled a i r Hs) as [H1 H2].
    destruct (reader_done a i r) as [effs a']. simpl in *. subst effs.
    simpl. constructor; eauto.
Qed.

Lemma effects_ended (log : list item) :
  Forall (fun it => exists i r, it = Ended i r) log -> effects log = [].
Proof.
  induction 1 as [|it log (i & r & ->) _ IH]; [reflexivity|].
  unfold effects in *. simpl. exact IH.
Qed.

Lemma effects_app (l1 l2 : list item) :
  effects (l1 ++ l2) = effects l1 ++ effects l2.
Proof. unfold effects. apply omap_app. Qed.

Lemma effects_did (effs : list effect) : effects (map Did effs) = effs.
Proof.
  induction effs as [|x effs IH]; [reflexivity|].
  unfold effects in *. simpl. f_equal. exact IH.
Qed.

(** A reader that loads, while others are still reading. *)
Lemma loaded_pending a i url :
  pending reads n e a ->
  reads !! i = Some (Loaded url) ->
  alreadyCalled a !! i = Some false ->
  remaining a <> 1%nat ->
  exists a', reader_done a i (Loaded url) = ([], a')
             /\ pending reads n e a'
             /\ alreadyCalled a' = <[i := true]> (alreadyCalled a).
Proof.
  intros (He & Hs & Hc & Hv & Hr & Hl) Hread Hcall Hrem.
  unfold reader_done. rewrite Hcall, Hs.
  assert (0 < waiting (alreadyCalled a))%nat by (eapply waiting_pos; eauto).
  destruct (Nat.eqb_spec (pred (remaining a)) 0); [lia|].
  eexists. split; [reflexivity|]. split; [|reflexivity].
  repeat split; simpl; auto.
  - rewrite length_insert. exact Hc.
  - rewrite length_insert. exact Hv.
  - rewrite waiting_insert by exact Hcall. congruence.
  - intros j Hj. destruct (decide (i = j)) as [->|Hne].
    + exists url. split; [exact Hread|].
      apply list_lookup_insert_eq. rewrite Hv, <- Hc.
      eapply lookup_lt_Some; eauto.
    + rewrite list_lookup_insert_ne in Hj by exact Hne.
      destruct (Hl j Hj) as (u & H1 & H2). exists u. split; [exact H1|].
      rewrite list_lookup_insert_ne by exact Hne. exact H2.
Qed.

(** The last reader to load settles the aggregate with all the values. *)
Lemma loaded_last a i url :
  pending reads n e a ->
  reads !! i = Some (Loaded url) ->
  alreadyCalled a !! i = Some false ->
  remaining a = 1%nat ->
  exists a', reader_done a i (Loaded url)
             = (on_fulfilled e (<[i := JStr url]> (values a)), a')
             /\ settled a' = true
             /\ (forall j, (j < n)%nat -> j <> i ->
                    alreadyCalled a !! j = Some true)
             /\ forall j, (j < n)%nat ->
                  exists u, reads !! j = Some (Loaded u)
                            /\ <[i := JStr url]> (values a) !! j = Some (JStr u).
Proof.
  intros (He & Hs & Hc & Hv & Hr & Hl) Hread Hcall Hrem.
  assert (forall j, (j < n)%nat -> j <> i -> alreadyCalled a !! j = Some true)
    as Hothers.
  { intros j Hj Hne.
    assert (waiting (<[i := true]> (alreadyCalled a)) = 0%nat) as Hw
        by (rewrite waiting_insert by exact Hcall; lia).
    pose proof (waiting_none _ j Hw) as Hn.
    rewrite length_insert in Hn.
    rewrite list_lookup_insert_ne in Hn by congruence. apply Hn. lia. }
  unfold reader_done. rewrite Hcall, Hs, Hrem, He. simpl.
  eexists. split; [reflexivity|]. split; [reflexivity|].
  split; [exact Hothers|].
  intros j Hj. destruct (decide (i = j)) as [->|Hne].
  - exists url. split; [exact Hread|].
    apply list_lookup_insert_eq. lia.
  - destruct (Hl j (Hothers j Hj (not_eq_sym Hne))) as (u & H1 & H2).
    exists u. split; [exact H1|].
    rewrite list_lookup_insert_ne by exact Hne. exact H2.
Qed.

(** A reader that fails while the aggregate is pending settles it. *)
Lemma failed_pending a i error :
  pending reads n e a ->
  alreadyCalled a !! i = Some false ->
  exists a', reader_done a i (Failed error) = (on_rejected error, a')
             /\ settled a' = true.
Proof.
  intros (He & Hs & _) Hcall. unfold reader_done. rewrite Hcall, Hs.
  eexists. split; reflexivity.
Qed.

(** A reader that ended before changes nothing. *)
Lemma reader_done_again a i r :
  alreadyCalled a !! i <> Some false -> reader_done a i r = ([], a).
Proof.
  intros H. unfold reader_done.
  destruct (alreadyCalled a !! i) as [[|]|]; congruence.
Qed.

Lemma pending_lookup a i r :
  pending reads n e a -> reads !! i = Some r ->
  alreadyCalled a !! i = Some false
  \/ (alreadyCalled a !! i = Some true /\ exists url, r = Loaded url).
Proof.
  intros (He & Hs & Hc & Hv & Hr & Hl) Hread.
  assert (i < length (alreadyCalled a))%nat as Hi.
  { apply lookup_lt_Some in Hread. lia. }
  destruct (alreadyCalled a !! i) as [[|]|] eqn:E.
  - right. split; [reflexivity|]. destruct (Hl i E) as (u & H1 & _).
    exists u. congruence.
  - left. reflexivity.
  - apply lookup_ge_None in E. lia.
Qed.

Lemma waiting_all_called (called : list bool) :
  (forall i, (i < length called)%nat -> called !! i = Some true) ->
  waiting called = 0%nat.
Proof.
  induction called as [|b called IH]; intros H; [reflexivity|]. simpl.
  assert (b = true) as ->.
  { specialize (H 0%nat). simpl in H. injection H; [auto | lia]. }
  apply IH. intros i Hi. apply (H (S i)). simpl. lia.
Qed.

Lemma effects_ended_cons i r (log : list item) :
  effects (Ended i r :: log) = effects log.
Proof. reflexivity. Qed.

(** Every reader loads, and every reader that is still reading comes up
    in [order]: the aggregate is fulfilled with the data URLs, each at
    the index of its reader. *)
Lemma run_all_loaded order a :
  pending reads n e a ->
  (forall i r, reads !! i = Some r -> exists url, r = Loaded url) ->
  length reads = n ->
  (0 < remaining a)%nat ->
  (forall i, (i < n)%nat -> alreadyCalled a !! i = Some true \/ i ∈ order) ->
  exists vals,
    effects (run reads a order) = on_fulfilled e vals
    /\ length vals = n
    /\ forall j, (j < n)%nat ->
         exists u, reads !! j = Some (Loaded u) /\ vals !! j = Some (JStr u).
Proof.
  intros Hp Hall Hlen. revert a Hp.
  induction order as [|i order IH]; intros a Hp Hrem Hcover.
  - exfalso. destruct Hp as (_ & _ & Hc & _ & Hr & _).
    rewrite Hr, waiting_all_called in Hrem; [lia|].
    intros i Hi. destruct (Hcover i) as [H|H]; [lia|exact H|].
    apply elem_of_nil in H. contradiction.
  - simpl. destruct (reads !! i) as [r|] eqn:Hread.
    + destruct (Hall i r Hread) as [url ->].
      destruct (pending_lookup a i _ Hp Hread) as [Hcall|[Hcall _]].
      * destruct (decide (remaining a = 1%nat)) as [Hone|Hmore].
        -- destruct (loaded_last a i url Hp Hread Hcall Hone)
             as (a' & -> & Hs & _ & Hvals).
           exists (<[i := JStr url]> (values a)).
           rewrite effects_ended_cons, effects_app, effects_did.
           rewrite (effects_ended _ (run_settled order a' Hs)), app_nil_r.
           split; [reflexivity|]. split; [|exact Hvals].
           rewrite length_insert. apply Hp.
        -- destruct (loaded_pending a i url Hp Hread Hcall Hmore)
             as (a' & -> & Hp' & Hcalled').
           rewrite effects_ended_cons. simpl. apply IH; [exact Hp'| |].
           ++ destruct Hp as (_ & _ & _ & _ & Hr & _).
              destruct Hp' as (_ & _ & _ & _ & Hr' & _).
              rewrite Hr', Hcalled', waiting_insert by exact Hcall. lia.
           ++ intros j Hj. rewrite Hcalled'.
              destruct (decide (i = j)) as [->|Hne].
              ** left. apply list_lookup_insert_eq.
                 eapply lookup_lt_Some; eauto.
              ** rewrite list_lookup_insert_ne by exact Hne.
                 destruct (Hcover j Hj) as [H|H]; [left; exact H|].
                 apply elem_of_cons in H as [->|H]; [congruence|right; exact H].
      * rewrite reader_done_again by congruence.
        rewrite effects_ended_cons. simpl. apply IH; [exact Hp|exact Hrem|].
        intros j Hj. destruct (Hcover j Hj) as [H|H]; [left; exact H|].
        apply elem_of_cons in H as [->|H]; [left; exact Hcall|right; exact H].
    + apply IH; [exact Hp|exact Hrem|].
      intros j Hj. destruct (Hcover j Hj) as [H|H]; [left; exact H|].
      apply elem_of_cons in H as [->|H]; [|right; exact H].
      apply lookup_ge_None in Hread. lia.
Qed.

(** Some reader that comes up in [order] fails: the aggregate is rejected
    with the error of a failed reader, and never fulfilled. *)
Lemma run_failed order a :
  pending reads n e a ->
  (exists i error, i ∈ order /\ reads !! i = Some (Failed error)) ->
  exists j error, j ∈ order /\ reads !! j = Some (Failed error)
                  /\ effects (run reads a order) = on_rejected error.
Proof.
  revert a. induction order as [|i order IH]; intros a Hp (k & err & Hk & Hfail).
  - apply elem_of_nil in Hk. contradiction.
  - simpl. destruct (reads !! i) as [r|] eqn:Hread.
    + destruct r as [url|error].
      * assert (k ∈ order) as Hk'.
        { apply elem_of_cons in Hk as [->|H]; [congruence|exact H]. }
        destruct (pending_lookup a i _ Hp Hread) as [Hcall|[Hcall _]].
        -- assert (alreadyCalled a !! k = Some false) as Hcallk.
           { destruct (pending_lookup a k _ Hp Hfail) as [H|[_ [u H]]];
               [exact H|discriminate]. }
           assert (i <> k) as Hne by congruence.
           assert (remaining a <> 1%nat) as Hmore.
           { destruct Hp as (_ & _ & _ & _ & Hr & _). rewrite Hr.
             assert (0 < waiting (<[i := true]> (alreadyCalled a)))%nat as Hw.
             { apply (waiting_pos _ k).
               rewrite list_lookup_insert_ne by exact Hne. exact Hcallk. }
             rewrite waiting_insert in Hw by exact Hcall. lia. }
           destruct (loaded_pending a i url Hp Hread Hcall Hmore)
             as (a' & -> & Hp' & _).
           rewrite effects_ended_cons. simpl.
           destruct (IH a' Hp') as (j & error & H1 & H2 & H3); [eauto|].
           exists j, error. split; [apply elem_of_cons; auto|]. auto.
        -- rewrite reader_done_again by congruence.
           rewrite effects_ended_cons. simpl.
           destruct (IH a Hp) as (j & error & H1 & H2 & H3); [eauto|].
           exists j, error. split; [apply elem_of_cons; auto|]. auto.
      * destruct (pending_lookup a i _ Hp Hread) as [Hcall|[_ [u H]]];
          [|discriminate].
        destruct (failed_pending a i error Hp Hcall) as (a' & -> & Hs).
        exists i, error. split; [apply elem_of_cons; auto|].
        split; [exact Hread|].
        rewrite effects_ended_cons, effects_app, effects_did.
        rewrite (effects_ended _ (run_settled order a' Hs)), app_nil_r.
        reflexivity.
    + assert (k ∈ order) as Hk'.
      { apply elem_of_cons in Hk as [->|H]; [congruence|exact H]. }
      destruct (IH a Hp) as (j & error & H1 & H2 & H3); [eauto|].
      exists j, error. split; [apply elem_of_cons; auto|]. auto.
Qed.

Lemma split_at_cons {A} (x y : A) (l1 l2 rest : list A) :
  l1 ++ x :: l2 = y :: rest ->
  (l1 = [] /\ x = y /\ l2 = rest)
  \/ exists l1', l1 = y :: l1' /\ l1' ++ x :: l2 = rest.
Proof.
  destruct l1 as [|z l1]; simpl.
  - intros [= -> ->]. left. auto.
  - intros [= -> <-]. right. eauto.
Qed.

Lemma settled_silent order a l1 x l2 :
  settled a = true -> run reads a order <> l1 ++ Did x :: l2.
Proof.
  intros Hs Heq. pose proof (run_settled order a Hs) as Hall.
  rewrite Heq in Hall. apply Forall_app in Hall as [_ Hall].
  apply Forall_cons in Hall as [(i & r & [=]) _].
Qed.

Lemma ended_not_OnChange (log : list item) :
  Forall (fun it => exists i r, it = Ended i r) log ->
  Forall (fun it => ~ is_OnChange it) log.
Proof.
  intros H. eapply Forall_impl; [exact H|].
  intros it (i & r & ->) (f & v & [=]).
Qed.

(** Where the history of a pending aggregate has a call of [onChange],
    every reader had ended with its load before that call, and there is
    no other call. *)
Lemma run_onChange order a before f v after :
  pending reads n e a ->
  run reads a order = before ++ Did (OnChange f v) :: after ->
  (forall j, (j < n)%nat ->
     alreadyCalled a !! j = Some true
     \/ exists url, Ended j (Loaded url) ∈ before)
  /\ Forall (fun it => ~ is_OnChange it) before
  /\ Forall (fun it => ~ is_OnChange it) after.
Proof.
  revert a before. induction order as [|i order IH]; intros a before Hp Heq.
  - simpl in Heq. destruct before; discriminate.
  - simpl in Heq. destruct (reads !! i) as [r|] eqn:Hread; [|eauto].
    assert (forall a', pending reads n e a' ->
              alreadyCalled a' = alreadyCalled a
              \/ (alreadyCalled a' = <[i := true]> (alreadyCalled a)
                  /\ exists url, r = Loaded url) ->
              Ended i r :: run reads a' order
              = before ++ Did (OnChange f v) :: after ->
              (forall j, (j < n)%nat ->
                 alreadyCalled a !! j = Some true
                 \/ exists url, Ended j (Loaded url) ∈ before)
              /\ Forall (fun it => ~ is_OnChange it) before
              /\ Forall (fun it => ~ is_OnChange it) after) as Hstep.
    { intros a' Hp' Hcalled Heq'. symmetry in Heq'.
      apply split_at_cons in Heq' as [(_ & [=] & _)|(l1 & -> & Heq')].
      destruct (IH a' l1 Hp' (eq_sym Heq')) as (Hcov & Hb & Ha).
      split; [|split; [|exact Ha]].
      - intros j Hj. destruct (Hcov j Hj) as [H|[url H]].
        + destruct Hcalled as [Hc|[Hc [url ->]]]; rewrite Hc in H;
            [left; exact H|].
          destruct (decide (i = j)) as [->|Hne].
          * right. exists url. apply elem_of_cons. left. reflexivity.
          * rewrite list_lookup_insert_ne in H by exact Hne. left. exact H.
        + right. exists url. apply elem_of_cons. right. exact H.
      - constructor; [|exact Hb]. intros (f' & v' & [=]). }
    destruct (pending_lookup a i _ Hp Hread) as [Hcall|[Hcall _]].
    + destruct r as [url|error].
      * destruct (decide (remaining a = 1%nat)) as [Hone|Hmore].
        -- destruct (loaded_last a i url Hp Hread Hcall Hone)
             as (a' & Hdone & Hs & Hothers & _).
           rewrite Hdone in Heq. simpl in Heq. symmetry in Heq.
           apply split_at_cons in Heq as [(_ & [=] & _)|(l1 & -> & Heq)].
           apply split_at_cons in Heq as [(_ & [=] & _)|(l2 & -> & Heq)].
           apply split_at_cons in Heq as [(-> & _ & ->)|(l3 & -> & Heq)].
           ++ split; [|split].
              ** intros j Hj. destruct (decide (j = i)) as [->|Hne].
                 --- right. exists url. apply elem_of_cons. left. reflexivity.
                 --- left. apply Hothers; assumption.
              ** repeat constructor; intros (f' & v' & [=]).
              ** apply ended_not_OnChange, run_settled, Hs.
           ++ exfalso. eapply settled_silent; eauto.
        -- destruct (loaded_pending a i url Hp Hread Hcall Hmore)
             as (a' & Hdone & Hp' & Hcalled').
           rewrite Hdone in Heq. simpl in Heq.
           apply (Hstep a' Hp'); [right; eauto|exact Heq].
      * destruct (failed_pending a i error Hp Hcall) as (a' & Hdone & Hs).
        rewrite Hdone in Heq. simpl in Heq. symmetry in Heq.
        apply split_at_cons in Heq as [(_ & [=] & _)|(l1 & -> & Heq)].
        apply split_at_cons in Heq as [(_ & [=] & _)|(l2 & -> & Heq)].
        apply split_at_cons in Heq as [(_ & [=] & _)|(l3 & -> & Heq)].
        exfalso. eapply settled_silent; eauto.
    + rewrite reader_done_again in Heq by congruence. simpl in Heq.
      apply (Hstep a Hp); [left; reflexivity|exact Heq].
Qed.

(** The aggregate [handleChange] starts with. *)
Lemma initial_pending :
  pending reads n e
    {| env := e; values := replicate n JUndefined;
       alreadyCalled := replicate n false; remaining := n; settled := false |}.
Proof.
  repeat split; simpl; auto using length_replicate.
  - clear. induction n; simpl; auto.
  - intros i [H _]%lookup_replicate. discriminate.
Qed.

End FileWidgetRun.

(** ** Memoised handlers *)

Section Hooks.

Context {D E : Type} (same : D -> D -> bool).
Hypothesis same_eq : forall x y, same x y = true -> x = y.

Lemma useMemo_kept (R : D -> E -> Prop) cell deps create :
  kept R cell -> R deps (create tt) ->
  R deps (fst (useMemo same cell deps create))
  /\ kept R (snd (useMemo same cell deps create)).
Proof.
  intros Hc Hcreate. unfold useMemo.
  destruct cell as [[d e']|].
  - destruct (same d deps) eqn:Hs; simpl.
    + apply same_eq in Hs. subst d. split; [|exact Hc].
      apply Hc. reflexivity.
    + split; [exact Hcreate|]. intros d' e'' [= <- <-]. exact Hcreate.
  - simpl. split; [exact Hcreate|]. intros d' e'' [= <- <-]. exact Hcreate.
Qed.

Lemma useCallback_kept (R : D -> E -> Prop) cell deps fn :
  kept R cell -> R deps fn ->
  R deps (fst (useCallback same cell deps fn))
  /\ kept R (snd (useCallback same cell deps fn)).
Proof. intros Hc Hfn. apply useMemo_kept; assumption. Qed.

Lemma useMemo_coherent (g : D -> E) cell deps create :
  coherent g cell -> create tt = g deps ->
  fst (useMemo same cell deps create) = g deps
  /\ coherent g (snd (useMemo same cell deps create)).
Proof. intros Hc Hcreate. apply (useMemo_kept (fun d e => e = g d)); assumption. Qed.

Lemma useCallback_coherent (g : D -> E) cell deps fn :
  coherent g cell -> fn = g deps ->
  fst (useCallback same cell deps fn) = g deps
  /\ coherent g (snd (useCallback same cell deps fn)).
Proof. intros Hc Hfn. apply useMemo_coherent; assumption. Qed.

End Hooks.

Lemma kept_None {D E} (R : D -> E -> Prop) : kept R None.
Proof. intros d e [=]. Qed.

Lemma coherent_None {D E} (g : D -> E) : coherent g None.
Proof. apply kept_None. Qed.

(** A handler that reports focus or blur is the one of the last render. *)
Lemma report_fresh (cell : Report.cell) f id :
  coherent Report.fresh cell ->
  fst (useCallback Report.same cell (f, id) {| Report.cb := f; Report.id := id |})
  = {| Report.cb := f; Report.id := id |}
  /\ coherent Report.fresh
       (snd (useCallback Report.same cell (f, id)
               {| Report.cb := f; Report.id := id |})).
Proof.
  intros Hc.
  apply (useCallback_coherent Report.same Report_same_eq Report.fresh cell (f, id));
    [exact Hc | reflexivity].
Qed.

(** ** FileWidget: the mounted component *)

Section FileWidgetComponent.

Import FileWidget.

Lemma same_change_deps_eq (a b : change_deps) :
  same_change_deps a b = true -> a = b.
Proof.
  apply same_pair_eq; [apply same_callback_eq | apply Bool.eqb_prop].
Qed.

Lemma render_ok p h :
  hooks_ok h ->
  hooks_ok (hooks (render p h))
  /\ change (render p h) = {| onChange := Props.onChange p; multi := isMulti p |}
  /\ focus (render p h) = {| Report.cb := Props.onFocus p; Report.id := Props.id p |}
  /\ blur (render p h) = {| Report.cb := Props.onBlur p; Report.id := Props.id p |}.
Proof.
  intros (Hc & Hf & Hb). unfold render.
  pose proof (useCallback_coherent same_change_deps
                same_change_deps_eq change_of (handleChange_cell h)
                (Props.onChange p, isMulti p)
                {| onChange := Props.onChange p; multi := isMulti p |}
                Hc eq_refl) as [H1 H1'].
  pose proof (report_fresh (handleFocus_cell h) (Props.onFocus p) (Props.id p) Hf)
    as [H2 H2'].
  pose proof (report_fresh (handleBlur_cell h) (Props.onBlur p) (Props.id p) Hb)
    as [H3 H3'].
  destruct (useCallback same_change_deps _ _ _) as [hc c1].
  destruct (useCallback Report.same (handleFocus_cell h) _ _) as [hf c2].
  destruct (useCallback Report.same (handleBlur_cell h) _ _) as [hb c3].
  simpl in *. subst. repeat split; assumption.
Qed.

Lemma replay_ok history : hooks_ok (replay history).
Proof.
  unfold replay. rewrite <- fold_left_rev_right.
  induction (rev history) as [|x l IH]; simpl.
  - repeat split; apply coherent_None.
  - destruct x as [p|eff].
    + apply render_ok, IH.
    + destruct eff; simpl; exact IH.
Qed.

(** The change handler of a mounted widget is the one of its last
    render. *)
Lemma change_fresh history p :
  change (render p (replay history))
  = {| onChange := Props.onChange p; multi := isMulti p |}.
Proof. apply render_ok, replay_ok. Qed.

Lemma values_of_urls (urls : list jsstring) (vals : list jsval) :
  length vals = length urls ->
  (forall j, (j < length urls)%nat ->
     exists u, (Loaded <$> urls) !! j = Some (Loaded u)
               /\ vals !! j = Some (JStr u)) ->
  vals = JStr <$> urls.
Proof.
  intros Hlen H. apply list_eq. intros j.
  destruct (decide (j < length urls)%nat) as [Hj|Hj].
  - destruct (H j Hj) as (u & H1 & H2).
    rewrite list_lookup_fmap in H1. rewrite list_lookup_fmap.
    destruct (urls !! j) as [u'|]; [|discriminate].
    simpl in *. congruence.
  - rewrite !(proj2 (lookup_ge_None _ _)); [reflexivity| |].
    + rewrite length_fmap. lia.
    + lia.
Qed.

(** Every read loads and every reader ends: the widget turns the loading
    state on, then off, and reports the data URLs in the order of the
    files. *)
Lemma handleChange_all_loaded env event fileList urls order :
  files event = Some fileList ->
  length urls = length fileList ->
  (forall i, (i < length fileList)%nat -> i ∈ order) ->
  effects (handleChange env event (Loaded <$> urls) order)
  = SetIsLoading true :: on_fulfilled env (JStr <$> urls).
Proof.
  intros Hfiles Hlen Hcover. unfold handleChange. rewrite Hfiles.
  destruct (Nat.eqb_spec (length fileList) 0) as [Hz|Hnz].
  - destruct urls; [|simpl in Hlen; lia].
    change (effects (Did (SetIsLoading true) :: map Did (on_fulfilled env [])))
      with (SetIsLoading true :: effects (map Did (on_fulfilled env []))).
    rewrite effects_did. reflexivity.
  - set (n := length fileList) in *.
    assert (take n (Loaded <$> urls) = Loaded <$> urls) as ->.
    { apply take_ge. rewrite length_fmap. lia. }
    match goal with
    | |- effects (_ :: run ?r ?a ?o) = _ =>
        change (effects (Did (SetIsLoading true) :: run r a o))
          with (SetIsLoading true :: effects (run r a o))
    end.
    f_equal.
    destruct (run_all_loaded (Loaded <$> urls) n env
                ltac:(rewrite length_fmap; lia) order _
                (initial_pending (Loaded <$> urls) n env))
      as (vals & -> & Hl & Hv).
    + intros i r Hr. rewrite list_lookup_fmap in Hr.
      destruct (urls !! i); [|discriminate]. injection Hr as <-. eauto.
    + rewrite length_fmap. exact Hlen.
    + simpl. lia.
    + intros i Hi. right. apply Hcover, Hi.
    + f_equal. apply values_of_urls; [lia|].
      intros j Hj. apply Hv. lia.
Qed.

End FileWidgetComponent.

(** ** FileWidget: what a change event does *)

Section FileWidgetClaims.

Import FileWidget.

(** C1.  A change event with N selected files on a widget in multiple
    mode, every read succeeding and every reader ending (in whatever
    order): the widget calls [onChange] exactly once, with the array of
    the N data URLs in the order of the selected files. *)
Theorem multiple_files_reported_in_order
        history p event fileList urls order :
  isMulti p = true ->
  files event = Some fileList ->
  length urls = length fileList ->
  (forall i, (i < length fileList)%nat -> i ∈ order) ->
  effects (handleChange (change (render p (replay history))) event
                        (Loaded <$> urls) order)
  = [ SetIsLoading true; SetIsLoading false;
      OnChange (Props.onChange p) (JArr (JStr <$> urls)) ].
Proof.
  intros Hmulti Hfiles Hlen Hcover.
  rewrite change_fresh.
  rewrite (handleChange_all_loaded _ event fileList urls order Hfiles Hlen Hcover).
  unfold on_fulfilled. simpl. rewrite Hmulti. reflexivity.
Qed.

Lemma multiple_files_reported_in_order_witness :
  isMulti Sample.files_props = true
  /\ effects (handleChange
                (change (render Sample.files_props (replay [])))
                Sample.two_files
                (Loaded <$> [Sample.url_a; Sample.url_b]) [1; 0; 1]%nat)
     = [ SetIsLoading true; SetIsLoading false;
         OnChange 1%nat (JArr [JStr Sample.url_a; JStr Sample.url_b]) ].
Proof.
  split; [reflexivity|].
  apply (multiple_files_reported_in_order
           [] Sample.files_props Sample.two_files
           [Sample.file "a.txt"; Sample.file "b.png"]
           [Sample.url_a; Sample.url_b] [1; 0; 1]%nat);
    [reflexivity | reflexivity | reflexivity |].
  intros i Hi. simpl in Hi.
  destruct i as [|[|i]]; [| |lia].
  - apply elem_of_cons. right. apply elem_of_cons. left. reflexivity.
  - apply elem_of_cons. left. reflexivity.
Defined.

(** C3.  Some selected file fails to read: the widget logs the error of
    a failed read and calls [onChange] for none of the files; all it does
    is switch its loading state and log, so nothing reaches the host and
    the value the host holds stays what it was. *)
Theorem failed_read_is_logged_and_absorbed
        history p event fileList reads order formData :
  files event = Some fileList ->
  (exists i error, (i < length fileList)%nat /\ i ∈ order
                   /\ reads !! i = Some (Failed error)) ->
  exists error,
    (exists j, (j < length fileList)%nat /\ j ∈ order
               /\ reads !! j = Some (Failed error))
    /\ effects (handleChange (change (render p (replay history))) event
                             reads order)
       = [SetIsLoading true; SetIsLoading false; ConsoleError error]
    /\ Form.after formData
         (effects (handleChange (change (render p (replay history))) event
                                reads order))
       = formData.
Proof.
  intros Hfiles (i & err & Hi & Hin & Hread).
  unfold handleChange. rewrite Hfiles.
  destruct (Nat.eqb_spec (length fileList) 0) as [Hz|Hnz]; [lia|].
  set (n := length fileList) in *.
  set (env := change (render p (replay history))).
  destruct (run_failed (take n reads) n env
              ltac:(rewrite length_take; lia) order _
              (initial_pending (take n reads) n env))
    as (j & error & Hj & Hfail & Heff).
  { exists i, err. split; [exact Hin|].
    rewrite lookup_take_lt by exact Hi. exact Hread. }
  assert (j < n)%nat as Hjn.
  { apply lookup_lt_Some in Hfail. rewrite length_take in Hfail. lia. }
  rewrite lookup_take_lt in Hfail by exact Hjn.
  exists error. split; [eauto|].
  match goal with
  | |- effects (_ :: run ?r ?a ?o) = _ /\ _ =>
      change (effects (Did (SetIsLoading true) :: run r a o))
        with (SetIsLoading true :: effects (run r a o))
  end.
  rewrite Heff. split; reflexivity.
Qed.

Lemma failed_read_is_logged_and_absorbed_witness :
  exists error,
    (exists j, (j < 2)%nat /\ j ∈ [1; 0]%nat
               /\ [Loaded Sample.url_a; Failed Sample.read_error] !! j
                  = Some (Failed error))
    /\ effects (handleChange
                  (change (render Sample.files_props (replay [])))
                  Sample.two_files
                  [Loaded Sample.url_a; Failed Sample.read_error] [1; 0]%nat)
       = [SetIsLoading true; SetIsLoading false; ConsoleError error]
    /\ Form.after (JArr [])
         (effects (handleChange
                     (change (render Sample.files_props (replay [])))
                     Sample.two_files
                     [Loaded Sample.url_a; Failed Sample.read_error]
                     [1; 0]%nat))
       = JArr [].
Proof.
  apply (failed_read_is_logged_and_absorbed
           [] Sample.files_props Sample.two_files
           [Sample.file "a.txt"; Sample.file "b.png"]
           [Loaded Sample.url_a; Failed Sample.read_error] [1; 0]%nat (JArr []));
    [reflexivity|].
  exists 1%nat, Sample.read_error.
  split; [simpl; lia|]. split; [|reflexivity].
  apply elem_of_cons. left. reflexivity.
Defined.

(** C6.  In the history of a change event, a call of [onChange] comes
    only after the read of every selected file has ended with its load,
    which is when the aggregated promise is fulfilled, and no other call
    of [onChange] comes before or after it. *)
Theorem onChange_only_after_every_read
        history p event reads order before f v after :
  handleChange (change (render p (replay history))) event reads order
  = before ++ Did (OnChange f v) :: after ->
  (forall fileList j,
      files event = Some fileList -> (j < length fileList)%nat ->
      exists url, reads !! j = Some (Loaded url)
                  /\ Ended j (Loaded url) ∈ before)
  /\ Forall (fun it => ~ is_OnChange it) before
  /\ Forall (fun it => ~ is_OnChange it) after.
Proof.
  unfold handleChange. destruct (files event) as [fileList|] eqn:Hfiles.
  - intros Heq. symmetry in Heq.
    apply split_at_cons in Heq as [(_ & [=] & _)|(l1 & -> & Heq)].
    destruct (Nat.eqb_spec (length fileList) 0) as [Hz|Hnz].
    + simpl in Heq.
      apply split_at_cons in Heq as [(_ & [=] & _)|(l2 & -> & Heq)].
      apply split_at_cons in Heq as [(-> & _ & ->)|(l3 & -> & Heq)];
        [|destruct l3; discriminate].
      split; [|split].
      * intros fl j [= <-] Hj. lia.
      * repeat constructor; intros (f' & v' & [=]).
      * constructor.
    + set (n := length fileList) in *.
      set (env := change (render p (replay history))) in *.
      destruct (run_onChange (take n reads) n env
                  ltac:(rewrite length_take; lia) order _ l1 f v after
                  (initial_pending (take n reads) n env) (eq_sym Heq))
        as (Hcov & Hb & Ha).
      split; [|split; [|exact Ha]].
      * intros fl j [= <-] Hj. destruct (Hcov j Hj) as [H|[url H]].
        -- simpl in H. apply lookup_replicate in H as [[=] _].
        -- exists url. split; [|apply elem_of_cons; right; exact H].
           clear -Heq H Hj. revert H.
           assert (forall a l, run (take n reads) a order = l ->
                     Ended j (Loaded url) ∈ l ->
                     take n reads !! j = Some (Loaded url)) as Hrun.
           { clear. induction order as [|i order IH]; intros a l <-; simpl.
             - intros H. apply elem_of_nil in H. contradiction.
             - destruct (take n reads !! i) as [r|] eqn:Hr; [|eauto].
               destruct (reader_done a i r) as [effs a'].
               intros [H|H]%elem_of_cons; [congruence|].
               apply elem_of_app in H as [H|H]; [|eauto].
               apply list_elem_of_fmap in H as (x & [=] & _). }
           intros H. specialize (Hrun _ (l1 ++ Did (OnChange f v) :: after)
                                      (eq_sym Heq)).
           rewrite lookup_take_lt in Hrun by exact Hj. apply Hrun.
           apply elem_of_app. left. exact H.
      * constructor; [|exact Hb]. intros (f' & v' & [=]).
  - intros Heq. destruct before; discriminate.
Qed.

Lemma onChange_only_after_every_read_witness :
  (forall fileList j,
      files Sample.two_files = Some fileList -> (j < length fileList)%nat ->
      exists url, [Loaded Sample.url_a; Loaded Sample.url_b] !! j
                  = Some (Loaded url)
                  /\ Ended j (Loaded url)
                     ∈ [ Did (SetIsLoading true);
                         Ended 1%nat (Loaded Sample.url_b);
                         Ended 0%nat (Loaded Sample.url_a);
                         Did (SetIsLoading false) ])
  /\ Forall (fun it => ~ is_OnChange it)
            [ Did (SetIsLoading true);
              Ended 1%nat (Loaded Sample.url_b);
              Ended 0%nat (Loaded Sample.url_a);
              Did (SetIsLoading false) ]
  /\ Forall (fun it => ~ is_OnChange it) [].
Proof.
  apply (onChange_only_after_every_read
           [] Sample.files_props Sample.two_files
           [Loaded Sample.url_a; Loaded Sample.url_b] [1; 0]%nat
           _ 1%nat (JArr [JStr Sample.url_a; JStr Sample.url_b]) []).
  reflexivity.
Defined.

(** C7.  A change event on a widget in single-file mode, every read
    succeeding and every reader ending: [onChange] gets the data URL of
    the first file when a file was selected, and null when the list of
    data URLs is empty. *)
Theorem single_file_reports_first_or_null
        history p event fileList urls order :
  isMulti p = false ->
  files event = Some fileList ->
  length urls = length fileList ->
  Forall is_data_url urls ->
  (forall i, (i < length fileList)%nat -> i ∈ order) ->
  effects (handleChange (change (render p (replay history))) event
                        (Loaded <$> urls) order)
  = [ SetIsLoading true; SetIsLoading false;
      OnChange (Props.onChange p)
               (match urls with
                | first :: _ => JStr first
                | [] => JNull
                end) ].
Proof.
  intros Hmulti Hfiles Hlen Hurls Hcover.
  rewrite change_fresh.
  rewrite (handleChange_all_loaded _ event fileList urls order Hfiles Hlen Hcover).
  unfold on_fulfilled. simpl. rewrite Hmulti.
  destruct urls as [|first rest]; [reflexivity|].
  apply Forall_cons in Hurls as [(tail & ->) _]. reflexivity.
Qed.

Lemma single_file_reports_first_or_null_witness :
  effects (handleChange (change (render Sample.props (replay [])))
                        Sample.two_files
                        (Loaded <$> [Sample.url_a; Sample.url_b]) [0; 1]%nat)
  = [SetIsLoading true; SetIsLoading false; OnChange 1%nat (JStr Sample.url_a)]
  /\ effects (handleChange (change (render Sample.props (replay [])))
                           Sample.no_files (Loaded <$> []) [])
     = [SetIsLoading true; SetIsLoading false; OnChange 1%nat JNull].
Proof.
  split.
  - apply (single_file_reports_first_or_null
             [] Sample.props Sample.two_files
             [Sample.file "a.txt"; Sample.file "b.png"]
             [Sample.url_a; Sample.url_b] [0; 1]%nat);
      [reflexivity | reflexivity | reflexivity | |].
    + repeat constructor; eexists; reflexivity.
    + intros i Hi. simpl in Hi. destruct i as [|[|i]]; [| |lia].
      * apply elem_of_cons. left. reflexivity.
      * apply elem_of_cons. right. apply elem_of_cons. left. reflexivity.
  - apply (single_file_reports_first_or_null
             [] Sample.props Sample.no_files [] [] []);
      [reflexivity | reflexivity | reflexivity | constructor |].
    intros i Hi. simpl in Hi. lia.
Defined.

End FileWidgetClaims.

(** ** TextareaWidget: the mounted component *)

Section TextareaWidgetComponent.

Import TextareaWidget.

Lemma textarea_deps_eq (a b : change_deps) :
  same_change_deps a b = true -> a = b.
Proof.
  apply same_pair_eq; [apply same_callback_eq | apply Bool.eqb_prop].
Qed.

Lemma textarea_render_ok (P : option jsnum -> Prop) p h :
  hooks_ok P h ->
  P (Options.maxByteLength (Props.options p)) ->
  hooks_ok P (hooks (render p h))
  /\ onChange (change (render p h)) = Props.onChange p
  /\ P (maxByteLength (change (render p h)))
  /\ markup (render p h) = view p
  /\ focus (render p h) = {| Report.cb := Props.onFocus p; Report.id := Props.id p |}
  /\ blur (render p h) = {| Report.cb := Props.onBlur p; Report.id := Props.id p |}.
Proof.
  intros (Hc & Hm & Hf & Hb) HP. unfold view, render.
  pose proof (report_fresh (handleFocus_cell h) (Props.onFocus p) (Props.id p) Hf)
    as [H1 H1'].
  pose proof (report_fresh (handleBlur_cell h) (Props.onBlur p) (Props.id p) Hb)
    as [H2 H2'].
  pose proof (useMemo_coherent same_value same_value_eq encode_length
                (byteLength_cell h) (Props.value p)
                (fun _ => encode_length (Props.value p)) Hm eq_refl)
    as [H3 H3'].
  destruct (useCallback Report.same (handleFocus_cell h) _ _) as [hf c1].
  destruct (useCallback Report.same (handleBlur_cell h) _ _) as [hb c2].
  destruct (useMemo same_value (byteLength_cell h) _ _) as [bl c3].
  simpl in H1, H1', H2, H2', H3, H3'. subst hf hb bl.
  pose proof (useCallback_kept same_change_deps textarea_deps_eq
                (fun d env => onChange env = fst d /\ P (maxByteLength env))
                (handleChange_cell h)
                (Props.onChange p,
                 exceeds (encode_length (Props.value p))
                         (Options.maxByteLength (Props.options p)))
                {| onChange := Props.onChange p;
                   maxByteLength := Options.maxByteLength (Props.options p) |}
                Hc (conj eq_refl HP))
    as [[H4 H4''] H4'].
  destruct (useCallback same_change_deps (handleChange_cell h) _ _) as [hc c4].
  simpl in *. split; [exact (conj H4' (conj H3' (conj H1' H2')))|].
  repeat split; first [assumption | reflexivity].
Qed.

Lemma textarea_mount_ok P : hooks_ok P mount.
Proof.
  split; [apply kept_None|]. split; [apply coherent_None|].
  split; apply coherent_None.
Qed.

Lemma textarea_renders_ok (P : option jsnum -> Prop) history :
  Forall (fun q => P (Options.maxByteLength (Props.options q))) history ->
  hooks_ok P (renders history).
Proof.
  unfold renders. intros H. apply Forall_rev in H.
  rewrite <- fold_left_rev_right.
  induction H as [|q l Hq _ IH]; simpl.
  - apply textarea_mount_ok.
  - apply textarea_render_ok; assumption.
Qed.

(** With a limit that has not changed since the widget was mounted, the
    change handler is the one the last render would make. *)
Lemma textarea_change_fresh history p :
  Forall (fun q => Options.maxByteLength (Props.options q)
                   = Options.maxByteLength (Props.options p)) history ->
  change (render p (renders history))
  = {| onChange := Props.onChange p;
       maxByteLength := Options.maxByteLength (Props.options p) |}.
Proof.
  intros H.
  destruct (textarea_render_ok
              (fun m => m = Options.maxByteLength (Props.options p)) p
              (renders history)) as (_ & H1 & H2 & _).
  - apply textarea_renders_ok. exact H.
  - reflexivity.
  - destruct (change _). simpl in *. congruence.
Qed.

(** A limit that changes between two renders can leave the handler of
    the earlier render in place: mounted with a limit of 10 bytes and
    rendered again with a limit of 5 and the same (empty) value, the
    widget passes a value of 7 bytes to [onChange]. *)
Lemma textarea_handler_can_be_stale :
  let p10 := Sample.with_options Sample.props (Sample.with_limit 10) in
  let p5 := Sample.with_options Sample.props (Sample.with_limit 5) in
  over_limit (Options.maxByteLength (Props.options p5)) (lit "abcdefg") = true
  /\ handleChange (change (render p5 (renders [p10]))) (lit "abcdefg")
     = [OnChange 1%nat (JStr (lit "abcdefg"))].
Proof. split; reflexivity. Qed.

End TextareaWidgetComponent.

(** ** BaseInputTemplate: the mounted component *)

Section BaseInputTemplateComponent.

Import BaseInputTemplate.
Context {host : utils}.

Lemma base_deps_eq (a b : change_deps) :
  same_change_deps a b = true -> a = b.
Proof.
  apply same_pair_eq; [apply same_callback_eq | apply Options_same_eq].
Qed.

Lemma base_render_ok p h :
  hooks_ok h ->
  hooks_ok (hooks (render p h))
  /\ change (render p h)
     = match Props.onChangeOverride p with
       | Some f => Override f
       | None => Own (change_of (Props.onChange p, Props.options p))
       end
  /\ markup (render p h) = view p
  /\ blur (render p h) = {| Report.cb := Props.onBlur p; Report.id := Props.id p |}
  /\ focus (render p h) = {| Report.cb := Props.onFocus p; Report.id := Props.id p |}.
Proof.
  intros (Hc & Hm & Hb & Hf). unfold view, render.
  pose proof (useMemo_coherent same_value same_value_eq encode_length
                (byteLength_cell h) (Props.value p)
                (fun _ => encode_length (Props.value p)) Hm eq_refl)
    as [H1 H1'].
  pose proof (useCallback_coherent same_change_deps base_deps_eq change_of
                (onChange_cell h) (Props.onChange p, Props.options p)
                {| onChange := Props.onChange p; options := Props.options p;
                   maxByteLength := Options.maxByteLength (Props.options p) |}
                Hc eq_refl) as [H2 H2'].
  pose proof (report_fresh (onBlur_cell h) (Props.onBlur p) (Props.id p) Hb)
    as [H3 H3'].
  pose proof (report_fresh (onFocus_cell h) (Props.onFocus p) (Props.id p) Hf)
    as [H4 H4'].
  destruct (useMemo same_value (byteLength_cell h) _ _) as [bl c1].
  destruct (useCallback same_change_deps (onChange_cell h) _ _) as [oc c2].
  destruct (useCallback Report.same (onBlur_cell h) _ _) as [ob c3].
  destruct (useCallback Report.same (onFocus_cell h) _ _) as [fo c4].
  simpl in *. subst. split; [exact (conj H2' (conj H1' (conj H3' H4')))|].
  repeat split; first [assumption | reflexivity].
Qed.

Lemma base_renders_ok history : hooks_ok (renders history).
Proof.
  unfold renders. rewrite <- fold_left_rev_right.
  induction (rev history) as [|q l IH]; simpl.
  - split; [apply coherent_None|]. split; [apply coherent_None|].
    split; apply coherent_None.
  - apply base_render_ok, IH.
Qed.

End BaseInputTemplateComponent.

(** ** The byte-length guard of the two text inputs *)

Section ChangeGuard.

Context {host : utils}.

(** What a change event does in a mounted BaseInputTemplate. *)
Lemma base_dispatch history p value :
  BaseInputTemplate.dispatch
    (BaseInputTemplate.change
       (BaseInputTemplate.render p (BaseInputTemplate.renders history))) value
  = match Props.onChangeOverride p with
    | Some f => [OnChangeOverride f value]
    | None =>
        if BaseInputTemplate.over_limit
             (Options.maxByteLength (Props.options p)) value
        then []
        else [OnChange (Props.onChange p)
                (match value with
                 | [] => Options.emptyValue (Props.options p)
                 | _ => JStr value
                 end)]
    end.
Proof.
  destruct (base_render_ok p (BaseInputTemplate.renders history)
              (base_renders_ok history)) as (_ & -> & _).
  destruct (Props.onChangeOverride p) as [f|]; [reflexivity|].
  unfold BaseInputTemplate.dispatch, BaseInputTemplate._onChange,
    BaseInputTemplate.over_limit, BaseInputTemplate.change_of. simpl.
  destruct (Options.maxByteLength (Props.options p)) as [[|m]|]; simpl;
    try reflexivity.
  unfold js_and. simpl. destruct (m =? 0) eqn:Hm; simpl; rewrite ?Hm; reflexivity.
Qed.

(** C2, amended.  In TextareaWidget, as long as [options.maxByteLength]
    has not changed since the widget was mounted, and in BaseInputTemplate
    when the host supplies no [onChangeOverride]: a change event whose
    value is longer in UTF-8 bytes than a set (truthy) [maxByteLength]
    calls nothing, and any other change event calls [onChange] with the
    new value, BaseInputTemplate passing [options.emptyValue] for the
    empty string.  With an [onChangeOverride], BaseInputTemplate hands the
    event to the override and does not call [onChange]. *)
Theorem change_is_guarded_by_byte_length history p value :
  Forall (fun q => Options.maxByteLength (Props.options q)
                   = Options.maxByteLength (Props.options p)) history ->
  TextareaWidget.handleChange
    (TextareaWidget.change
       (TextareaWidget.render p (TextareaWidget.renders history))) value
  = (if TextareaWidget.over_limit (Options.maxByteLength (Props.options p)) value
     then []
     else [OnChange (Props.onChange p) (JStr value)])
  /\ forall history',
      BaseInputTemplate.dispatch
        (BaseInputTemplate.change
           (BaseInputTemplate.render p (BaseInputTemplate.renders history')))
        value
      = match Props.onChangeOverride p with
        | Some f => [OnChangeOverride f value]
        | None =>
            if BaseInputTemplate.over_limit
                 (Options.maxByteLength (Props.options p)) value
            then []
            else [OnChange (Props.onChange p)
                    (match value with
                     | [] => Options.emptyValue (Props.options p)
                     | _ => JStr value
                     end)]
        end.
Proof.
  intros Hsame. split; [|intros history'; apply base_dispatch].
  rewrite (textarea_change_fresh history p Hsame).
  unfold TextareaWidget.handleChange, TextareaWidget.over_limit. simpl.
  destruct (Options.maxByteLength (Props.options p)) as [[|m]|]; simpl;
    try reflexivity.
  unfold js_and. simpl. destruct (m =? 0) eqn:Hm; simpl; rewrite ?Hm; reflexivity.
Qed.

End ChangeGuard.

Lemma change_is_guarded_by_byte_length_witness :
  let p := Sample.with_options Sample.props (Sample.with_limit 5) in
  TextareaWidget.handleChange
    (TextareaWidget.change
       (TextareaWidget.render p (TextareaWidget.renders [p; p]))) (lit "hello!")
  = []
  /\ TextareaWidget.handleChange
       (TextareaWidget.change
          (TextareaWidget.render p (TextareaWidget.renders [p; p]))) (lit "hello")
     = [OnChange 1%nat (JStr (lit "hello"))]
  /\ BaseInputTemplate.dispatch
       (BaseInputTemplate.change
          (@BaseInputTemplate.render Rjsf.reference p
             (@BaseInputTemplate.renders Rjsf.reference [p]))) []
     = [OnChange 1%nat JUndefined].
Proof.
  intros p.
  assert (Forall (fun q => Options.maxByteLength (Props.options q)
                           = Options.maxByteLength (Props.options p)) [p; p])
    as Hsame by (repeat constructor).
  split; [|split].
  - exact (proj1 (@change_is_guarded_by_byte_length Rjsf.reference
                    [p; p] p (lit "hello!") Hsame)).
  - exact (proj1 (@change_is_guarded_by_byte_length Rjsf.reference
                    [p; p] p (lit "hello") Hsame)).
  - exact (proj2 (@change_is_guarded_by_byte_length Rjsf.reference
                    [p; p] p [] Hsame) [p]).
Defined.

(** C2 as stated fails where the host supplies [onChangeOverride]: no limit
    is set, the value is not empty, and the change event goes to the
    override, not to [onChange]. *)
Lemma override_takes_the_change_event :
  let p := Sample.with_override Sample.props (Some 9%nat) in
  BaseInputTemplate.over_limit (Options.maxByteLength (Props.options p)) (lit "abc")
  = false
  /\ BaseInputTemplate.dispatch
       (BaseInputTemplate.change
          (@BaseInputTemplate.render Rjsf.reference p BaseInputTemplate.mount))
       (lit "abc")
     = [OnChangeOverride 9%nat (lit "abc")]
  /\ BaseInputTemplate.dispatch
       (BaseInputTemplate.change
          (@BaseInputTemplate.render Rjsf.reference p BaseInputTemplate.mount))
       (lit "abc")
     <> [OnChange (Props.onChange p) (JStr (lit "abc"))].
Proof. split; [reflexivity|]. split; [reflexivity|discriminate]. Qed.

(** ** SelectWidget: the mounted component *)

Section SelectWidgetComponent.

Import SelectWidget.
Context {host : utils}.

Lemma same_env_eq (a b : ChangeEnv) : same_env a b = true -> a = b.
Proof.
  destruct a, b. unfold same_env. simpl.
  rewrite !andb_true_iff. intros [[[[H1 H2] H3] H4] H5].
  apply Bool.eqb_prop in H1. apply same_value_eq in H2, H4.
  apply enumOptions_same_eq in H3. apply same_callback_eq in H5.
  congruence.
Qed.

Lemma select_render_ok p h :
  hooks_ok h ->
  hooks_ok (hooks (render p h))
  /\ change (render p h) = closure p
  /\ markup (render p h) = view p
  /\ blur (render p h) = {| Report.cb := Props.onBlur p; Report.id := Props.id p |}
  /\ focus (render p h) = {| Report.cb := Props.onFocus p; Report.id := Props.id p |}.
Proof.
  intros (Hc & Hb & Hf). unfold view, render.
  pose proof (useCallback_coherent same_env same_env_eq (fun d => d)
                (handleChange_cell h) (closure p) (closure p) Hc eq_refl)
    as [H1 H1'].
  pose proof (report_fresh (onBlur_cell h) (Props.onBlur p) (Props.id p) Hb)
    as [H2 H2'].
  pose proof (report_fresh (onFocus_cell h) (Props.onFocus p) (Props.id p) Hf)
    as [H3 H3'].
  destruct (useCallback same_env (handleChange_cell h) _ _) as [hc c1].
  destruct (useCallback Report.same (onBlur_cell h) _ _) as [ob c2].
  destruct (useCallback Report.same (onFocus_cell h) _ _) as [fo c3].
  simpl in *. subst. split; [exact (conj H1' (conj H2' H3'))|].
  repeat split; first [assumption | reflexivity].
Qed.

Lemma select_renders_ok history : hooks_ok (renders history).
Proof.
  unfold renders. rewrite <- fold_left_rev_right.
  induction (rev history) as [|q l IH]; simpl.
  - split; [apply coherent_None|]. split; apply coherent_None.
  - apply select_render_ok, IH.
Qed.

Lemma select_change_fresh history p :
  change (render p (renders history)) = closure p.
Proof. apply select_render_ok, select_renders_ok. Qed.

End SelectWidgetComponent.

(** ** Decimal indexes *)

Section Decimal.

Lemma units_uint_units (d : Decimal.uint) : units_uint (uint_units d) = Some d.
Proof. induction d; simpl; rewrite ?IHd; reflexivity. Qed.

Lemma Number_String_of_nat (i : nat) :
  Number (String_of_nat i) = Int (Z.of_nat i).
Proof.
  unfold Number, String_of_nat. rewrite units_uint_units.
  rewrite DecimalNat.Unsigned.of_to. reflexivity.
Qed.

Lemma String_of_nat_nonempty (i : nat) : String_of_nat i <> [].
Proof.
  unfold String_of_nat. intros H.
  assert (Nat.to_uint i = Decimal.Nil) as Hnil.
  { destruct (Nat.to_uint i); simpl in H; try discriminate. reflexivity. }
  pose proof (DecimalNat.Unsigned.to_of (Nat.to_uint i)) as Hnorm.
  rewrite DecimalNat.Unsigned.of_to, Hnil in Hnorm. discriminate.
Qed.

Lemma String_of_num_nat (i : nat) :
  String_of_num (Int (Z.of_nat i)) = String_of_nat i.
Proof.
  unfold String_of_num.
  destruct (Z.ltb_spec (Z.of_nat i) 0); [lia|].
  rewrite Nat2Z.id. reflexivity.
Qed.

Lemma index_nat {A} (l : list A) (i : nat) : index l (Int (Z.of_nat i)) = l !! i.
Proof.
  unfold index. destruct (Z.ltb_spec (Z.of_nat i) 0); [lia|].
  rewrite Nat2Z.id. reflexivity.
Qed.

End Decimal.

(** ** The value a selection reports *)

Section OptionMapping.

Import SelectWidget.
Context {host : utils}.

(** What the host library documents of [enumOptionsValueForIndex]: no
    index gives the empty value, and the index of an option gives the
    value of that option. *)
Hypothesis host_empty :
  forall opts e, enumOptionsValueForIndex [] opts e = e.
Hypothesis host_index :
  forall l i o e,
    l !! i = Some o ->
    enumOptionsValueForIndex (String_of_nat i) (Some l) e = EnumOption.value o.

Lemma enumerated_object_list p :
  truthy (enumerated_object (Options.enumOptions (Props.options p))) = true ->
  Options.enumOptions (Props.options p) = Some (optionsList p).
Proof.
  unfold optionsList.
  destruct (Options.enumOptions (Props.options p)); [reflexivity|discriminate].
Qed.

(** One selected option, in either branch of the handler. *)
Lemma selected_value p v :
  rendered_option p v ->
  (if truthy (isEnumeratedObject (closure p))
   then direct (closure p) (Number v)
   else Some (enumOptionsValueForIndex (String_of_num (Number v))
                (Options.enumOptions (Props.options p))
                (Options.emptyValue (Props.options p))))
  = Some (enumOptionsValueForIndex v
            (Options.enumOptions (Props.options p))
            (Options.emptyValue (Props.options p))).
Proof.
  intros (i & Hi & ->). rewrite Number_String_of_nat. simpl.
  destruct (truthy (enumerated_object _)) eqn:Hobj.
  - pose proof (enumerated_object_list p Hobj) as Hlist.
    unfold direct. simpl. rewrite Hlist. simpl. rewrite index_nat.
    destruct (lookup_lt_is_Some_2 _ _ Hi) as [o Ho]. rewrite Ho. simpl.
    rewrite (host_index _ _ _ _ Ho). reflexivity.
  - rewrite String_of_num_nat. reflexivity.
Qed.

Lemma mapM_all {A B} (f : A -> option B) (g : A -> B) (l : list A)
      (P : A -> Prop) :
  (forall x, P x -> f x = Some (g x)) -> Forall P l ->
  mapM f l = Some (g <$> l).
Proof.
  intros Hf. induction 1 as [|x l Hx _ IH]; [reflexivity|].
  simpl. rewrite (Hf x Hx). simpl. rewrite IH. reflexivity.
Qed.

Lemma base_passes history p value f v :
  OnChange f v
  ∈ BaseInputTemplate.dispatch
      (BaseInputTemplate.change
         (BaseInputTemplate.render p (BaseInputTemplate.renders history))) value ->
  f = Props.onChange p
  /\ v = match value with
         | [] => Options.emptyValue (Props.options p)
         | _ => JStr value
         end.
Proof.
  rewrite base_dispatch.
  destruct (Props.onChangeOverride p).
  - intros [H|H]%elem_of_cons; [discriminate|].
    apply elem_of_nil in H. contradiction.
  - destruct (BaseInputTemplate.over_limit _ _).
    + intros H. apply elem_of_nil in H. contradiction.
    + intros [H|H]%elem_of_cons; [injection H; auto|].
      apply elem_of_nil in H. contradiction.
Qed.

(** For a list of primitive values the widget hands a non-empty index to
    the host function as it is, whatever the index and whatever the
    function does. *)
Lemma primitive_list_is_delegated history p event :
  truthy (enumerated_object (Options.enumOptions (Props.options p))) = false ->
  is_multiple (Props.multiple p) = false ->
  value event <> [] ->
  handleChange (change (render p (renders history))) event
  = Done [OnChange (Props.onChange p)
            (enumOptionsValueForIndex (value event)
               (Options.enumOptions (Props.options p))
               (Options.emptyValue (Props.options p)))].
Proof.
  intros Hprim Hsingle Hvalue. rewrite select_change_fresh.
  unfold handleChange.
  change (multiple (closure p)) with (is_multiple (Props.multiple p)).
  change (isEnumeratedObject (closure p))
    with (enumerated_object (Options.enumOptions (Props.options p))).
  rewrite Hsingle, Hprim.
  destruct (value event); [contradiction|reflexivity].
Qed.

(** C4, amended.  For every selection change the rendered select element
    can report (the empty placeholder, or options of the list it was
    given), the value SelectWidget passes to [onChange] equals
    [enumOptionsValueForIndex] of the reported index, [enumOptions] and
    the configured [emptyValue], one value per selected option when the
    select is multiple, also for lists whose option values are objects;
    this takes of the host function what its documentation says.
    BaseInputTemplate is not part of that mapping: what it passes to
    [onChange] is [options.emptyValue] for the empty string and the typed
    string otherwise. *)
Theorem selection_reports_the_mapped_value history p event :
  reportable p event ->
  handleChange (change (render p (renders history))) event
  = Done [OnChange (Props.onChange p)
            (if is_multiple (Props.multiple p)
             then JArr ((fun v => enumOptionsValueForIndex v
                                    (Options.enumOptions (Props.options p))
                                    (Options.emptyValue (Props.options p)))
                          <$> selectedOptions event)
             else enumOptionsValueForIndex (value event)
                    (Options.enumOptions (Props.options p))
                    (Options.emptyValue (Props.options p)))]
  /\ forall history' value f v,
      OnChange f v
      ∈ BaseInputTemplate.dispatch
          (BaseInputTemplate.change
             (BaseInputTemplate.render p (BaseInputTemplate.renders history')))
          value ->
      v = match value with
          | [] => Options.emptyValue (Props.options p)
          | _ => JStr value
          end.
Proof.
  intros Hrep. split; [|intros h' value f v H; eapply base_passes; eauto].
  rewrite select_change_fresh. unfold reportable in Hrep.
  unfold handleChange.
  change (multiple (closure p)) with (is_multiple (Props.multiple p)).
  destruct (is_multiple (Props.multiple p)).
  - pose proof (mapM_all _ _ _ _ (selected_value p) Hrep) as Hall.
    cbv beta in Hall.
    change (mapM _ (selectedOptions event))
      with (mapM (fun v =>
                    if truthy (isEnumeratedObject (closure p))
                    then direct (closure p) (Number v)
                    else Some (enumOptionsValueForIndex (String_of_num (Number v))
                                 (Options.enumOptions (Props.options p))
                                 (Options.emptyValue (Props.options p))))
                 (selectedOptions event)).
    rewrite Hall. reflexivity.
  - destruct Hrep as [Hempty|Hopt].
    + rewrite Hempty. simpl. rewrite host_empty. reflexivity.
    + pose proof (selected_value p _ Hopt) as Hsel.
      destruct Hopt as (i & Hi & Hv).
      destruct (value event) as [|c rest] eqn:Hval.
      * symmetry in Hv. apply String_of_nat_nonempty in Hv. contradiction.
      * destruct (truthy (isEnumeratedObject (closure p))).
        -- rewrite Hsel. reflexivity.
        -- reflexivity.
Qed.

End OptionMapping.

(** The implementation of the interface meets what is assumed of it. *)
Lemma Rjsf_empty opts e : Rjsf.enumOptionsValueForIndex [] opts e = e.
Proof.
  unfold Rjsf.enumOptionsValueForIndex. simpl. reflexivity.
Qed.

Lemma Rjsf_index l i o e :
  l !! i = Some o ->
  Rjsf.enumOptionsValueForIndex (String_of_nat i) (Some l) e = EnumOption.value o.
Proof.
  intros Ho. unfold Rjsf.enumOptionsValueForIndex.
  destruct (String_of_nat i) as [|c rest] eqn:Hs.
  - apply String_of_nat_nonempty in Hs. contradiction.
  - rewrite <- Hs, Number_String_of_nat, index_nat. simpl. rewrite Ho. reflexivity.
Qed.

Lemma selection_reports_the_mapped_value_witness :
  @SelectWidget.handleChange Rjsf.reference
    (SelectWidget.change
       (@SelectWidget.render Rjsf.reference
          (Sample.with_options Sample.props (Sample.with_enum Sample.people))
          (@SelectWidget.renders Rjsf.reference [])))
    (Sample.pick "1")
  = SelectWidget.Done [OnChange 1%nat (Sample.ident 2)]
  /\ @SelectWidget.handleChange Rjsf.reference
       (SelectWidget.change
          (@SelectWidget.render Rjsf.reference
             (Sample.with_multiple
                (Sample.with_options Sample.props (Sample.with_enum Sample.colours))
                (JBool true))
             (@SelectWidget.renders Rjsf.reference [])))
       (Sample.pick_all ["1"; "0"])
     = SelectWidget.Done
         [OnChange 1%nat (JArr [JStr (lit "green"); JStr (lit "red")])].
Proof.
  split.
  - apply (@selection_reports_the_mapped_value Rjsf.reference
             Rjsf_empty Rjsf_index []
             (Sample.with_options Sample.props (Sample.with_enum Sample.people))
             (Sample.pick "1")).
    right. exists 1%nat. split; [simpl; lia | reflexivity].
  - apply (@selection_reports_the_mapped_value Rjsf.reference
             Rjsf_empty Rjsf_index []
             (Sample.with_multiple
                (Sample.with_options Sample.props (Sample.with_enum Sample.colours))
                (JBool true))
             (Sample.pick_all ["1"; "0"])).
    repeat constructor.
    + exists 1%nat. split; [simpl; lia | reflexivity].
    + exists 0%nat. split; [simpl; lia | reflexivity].
Defined.

(** C4 as stated fails in BaseInputTemplate: text typed into the input is
    passed to [onChange] as it is, while the option mapping of the host
    library gives the empty value for an index that names no option. *)
Lemma typed_text_is_not_mapped :
  let p := Sample.with_options Sample.props (Sample.with_enum Sample.colours) in
  BaseInputTemplate.dispatch
    (BaseInputTemplate.change
       (@BaseInputTemplate.render Rjsf.reference p BaseInputTemplate.mount))
    (lit "abc")
  = [OnChange 1%nat (JStr (lit "abc"))]
  /\ @enumOptionsValueForIndex Rjsf.reference (lit "abc")
       (Options.enumOptions (Props.options p))
       (Options.emptyValue (Props.options p))
     = JUndefined
  /\ JStr (lit "abc")
     <> @enumOptionsValueForIndex Rjsf.reference (lit "abc")
          (Options.enumOptions (Props.options p))
          (Options.emptyValue (Props.options p)).
Proof. split; [reflexivity|]. split; [reflexivity|discriminate]. Qed.

(** For a list whose first value is an object the widget does not call the
    host function: whatever that function is, the outcome is the same. *)
Lemma object_list_is_indexed_by_the_widget (host1 host2 : utils) p event :
  truthy (SelectWidget.enumerated_object (Options.enumOptions (Props.options p)))
  = true ->
  @SelectWidget.handleChange host1 (SelectWidget.closure p) event
  = @SelectWidget.handleChange host2 (SelectWidget.closure p) event.
Proof.
  intros Hobj. unfold SelectWidget.handleChange.
  change (SelectWidget.isEnumeratedObject (SelectWidget.closure p))
    with (SelectWidget.enumerated_object (Options.enumOptions (Props.options p))).
  rewrite Hobj. reflexivity.
Qed.

(** Outside the events a rendered select can report, the widget's own
    indexing of a list of objects and the host function part ways: an
    index past the end of the list throws in the widget, where the host
    function gives the empty value. *)
Lemma index_past_the_end_throws :
  let p := Sample.with_options Sample.props (Sample.with_enum Sample.people) in
  @SelectWidget.handleChange Rjsf.reference (SelectWidget.closure p) (Sample.pick "7")
  = SelectWidget.TypeError
  /\ @enumOptionsValueForIndex Rjsf.reference (lit "7")
       (Options.enumOptions (Props.options p))
       (Options.emptyValue (Props.options p))
     = JUndefined.
Proof. split; reflexivity. Qed.

(** ** TitleField *)

Section TitleFieldClaims.

Import TitleField.
Context {host : utils}.

(** C9.  The heading of a rendered TitleField holds [uiOptions.title]
    when that override is set (truthy), and the [title] prop otherwise. *)
Theorem heading_is_override_or_title (p : Props) :
  let override := get (getUiOptions (uiSchema p)) "title" in
  (truthy override = true -> heading (render p) = Some [Val override])
  /\ (truthy override = false -> heading (render p) = Some [Val (JStr (title p))]).
Proof.
  intros override. unfold render, heading. simpl.
  fold override. unfold js_or.
  split; intros Hset; rewrite Hset; reflexivity.
Qed.

End TitleFieldClaims.

(** ** What the element tree depends on *)

Section Markup.

Context {host : utils}.

Lemma file_markup p h :
  FileWidget.markup (FileWidget.render p h)
  = FileWidget.view p (FileWidget.isLoading h).
Proof.
  unfold FileWidget.view, FileWidget.render.
  destruct (useCallback FileWidget.same_change_deps
              (FileWidget.handleChange_cell h) _ _) as [hc c1].
  destruct (useCallback Report.same (FileWidget.handleFocus_cell h) _ _)
    as [hf c2].
  destruct (useCallback Report.same (FileWidget.handleBlur_cell h) _ _)
    as [hb c3].
  reflexivity.
Qed.

(** C5, amended.  TextareaWidget, BaseInputTemplate and SelectWidget
    keep no state: however often and with whatever props a mounted
    component was rendered before, the element tree of a render is a
    function of the props of that render; TitleField uses no hook at
    all, and equal props give equal trees.  FileWidget keeps one piece of
    state, [isLoading], and its element tree is a function of the props
    and of that state. *)
Theorem markup_is_a_function_of_props_and_loading p :
  (forall t t' : TitleField.Props,
      t' = t -> TitleField.render t' = TitleField.render t)
  /\ (forall history,
         TextareaWidget.markup
           (TextareaWidget.render p (TextareaWidget.renders history))
         = TextareaWidget.view p)
  /\ (forall history,
         BaseInputTemplate.markup
           (BaseInputTemplate.render p (BaseInputTemplate.renders history))
         = BaseInputTemplate.view p)
  /\ (forall history,
         SelectWidget.markup
           (SelectWidget.render p (SelectWidget.renders history))
         = SelectWidget.view p)
  /\ (forall history,
         FileWidget.markup (FileWidget.render p (FileWidget.replay history))
         = FileWidget.view p (FileWidget.isLoading (FileWidget.replay history))).
Proof.
  split; [intros t t' ->; reflexivity|].
  split; [|split; [|split]]; intros history.
  - apply (textarea_render_ok (fun _ => True)); [|exact I].
    apply textarea_renders_ok. apply Forall_forall. intros q _. exact I.
  - apply base_render_ok, base_renders_ok.
  - apply select_render_ok, select_renders_ok.
  - apply file_markup.
Qed.

End Markup.

(** C5 as stated fails in FileWidget: the change event turns [isLoading]
    on, and the next render, with the same props, disables the input and
    adds the progress bar. *)
Lemma file_widget_markup_changes_while_loading :
  let p := Sample.files_props in
  let first := FileWidget.render p FileWidget.mount in
  let began :=
    FileWidget.effects
      (FileWidget.handleChange (FileWidget.change first) Sample.two_files [] []) in
  began = [SetIsLoading true]
  /\ FileWidget.markup
       (FileWidget.render p (fold_left FileWidget.apply began (FileWidget.hooks first)))
     <> FileWidget.markup first.
Proof. split; [reflexivity|discriminate]. Qed.

(** ** What an event may do *)

(** ** The change handler of FileWidget when [onChange] may throw *)

Section FileChangeCatch.

Variable throws : FileChange.outcome.

Lemma with_catch_app effs effs' :
  FileChange.with_catch throws (effs ++ effs')
  = FileChange.with_catch throws effs ++ FileChange.with_catch throws effs'.
Proof. apply flat_map_app. Qed.

Lemma with_catch_on_rejected error :
  FileChange.with_catch throws (FileWidget.on_rejected error)
  = FileWidget.on_rejected error.
Proof. reflexivity. Qed.

Lemma with_catch_on_fulfilled env vals :
  FileChange.with_catch throws (FileWidget.on_fulfilled env vals)
  = FileChange.on_fulfilled throws env vals.
Proof.
  unfold FileChange.on_fulfilled, FileWidget.on_fulfilled.
  destruct (FileWidget.multi env); simpl; rewrite app_nil_r; reflexivity.
Qed.

Lemma reader_done_with_catch a i r :
  FileChange.reader_done throws a i r
  = (FileChange.with_catch throws (fst (FileWidget.reader_done a i r)),
     snd (FileWidget.reader_done a i r)).
Proof.
  unfold FileChange.reader_done, FileWidget.reader_done.
  destruct (FileWidget.alreadyCalled a !! i) as [[|]|]; try reflexivity.
  destruct r as [url|error]; destruct (FileWidget.settled a); try reflexivity.
  destruct (Nat.eqb _ 0); [|reflexivity].
  simpl fst. rewrite with_catch_on_fulfilled. reflexivity.
Qed.

Lemma change_effects_app (log log' : list FileChange.step) :
  FileChange.effects (log ++ log')
  = FileChange.effects log ++ FileChange.effects log'.
Proof. apply omap_app. Qed.

Lemma change_effects_did (effs : list effect) :
  FileChange.effects (map FileChange.Did effs) = effs.
Proof. induction effs as [|x effs IH]; simpl; [|rewrite IH]; reflexivity. Qed.

Lemma change_effects_started {A} (f : nat -> A -> FileChange.step)
      (files : list A) :
  (forall i x, exists j file, f i x = FileChange.Started j file) ->
  FileChange.effects (imap f files) = [].
Proof.
  revert f. induction files as [|x files IH]; intros f Hf; [reflexivity|].
  simpl. destruct (Hf 0%nat x) as (j & file & ->). simpl. apply IH.
  intros i y. apply (Hf (S i) y).
Qed.

Lemma started_did (effs : list effect) :
  FileChange.started (map FileChange.Did effs) = [].
Proof. induction effs as [|x effs IH]; simpl; [|rewrite IH]; reflexivity. Qed.

Lemma started_run reads a order :
  FileChange.started (FileChange.run throws reads a order) = [].
Proof.
  revert a. induction order as [|i order IH]; intros a; [reflexivity|].
  simpl. destruct (reads !! i) as [r|]; [|apply IH].
  destruct (FileChange.reader_done throws a i r) as [effs a'].
  simpl. unfold FileChange.started. rewrite omap_app.
  fold (FileChange.started (map FileChange.Did effs)).
  fold (FileChange.started (FileChange.run throws reads a' order)).
  rewrite started_did, IH. reflexivity.
Qed.

Lemma started_imap (files : list FileWidget.File) (k : nat) :
  FileChange.started (imap (fun i => FileChange.Started (k + i)) files)
  = imap (fun i file => ((k + i)%nat, file)) files.
Proof.
  revert k. induction files as [|x files IH]; intros k; [reflexivity|].
  simpl. f_equal.
  rewrite (imap_ext _ (fun i => FileChange.Started (S k + i)) files).
  - rewrite IH. apply imap_ext. intros i y _. simpl. f_equal. lia.
  - intros i y _. simpl. f_equal. lia.
Qed.

(** The effects of the run are those of the run with callbacks that
    return, with the [catch] callback after each call that throws. *)
Lemma run_with_catch reads a order :
  FileChange.effects (FileChange.run throws reads a order)
  = FileChange.with_catch throws (FileWidget.effects (FileWidget.run reads a order)).
Proof.
  revert a. induction order as [|i order IH]; intros a; [reflexivity|].
  simpl. destruct (reads !! i) as [r|]; [|apply IH].
  rewrite reader_done_with_catch.
  destruct (FileWidget.reader_done a i r) as [effs a']. simpl fst. simpl snd.
  rewrite effects_ended_cons, effects_app, effects_did, with_catch_app.
  change (FileChange.effects (FileChange.Ended i r :: ?l))
    with (FileChange.effects l).
  rewrite change_effects_app, change_effects_did, IH. reflexivity.
Qed.

Lemma handleChange_with_catch env event reads order :
  FileChange.effects (FileChange.handleChange throws env event reads order)
  = FileChange.with_catch throws
      (FileWidget.effects (FileWidget.handleChange env event reads order)).
Proof.
  unfold FileChange.handleChange, FileWidget.handleChange.
  destruct (FileWidget.files event) as [fileList|]; [|reflexivity].
  match goal with
  | |- FileChange.effects (_ :: ?l) = _ =>
      change (FileChange.effects (FileChange.Did (SetIsLoading true) :: l))
        with (SetIsLoading true :: FileChange.effects l)
  end.
  match goal with
  | |- _ = FileChange.with_catch _ (FileWidget.effects (_ :: ?l)) =>
      change (FileWidget.effects (FileWidget.Did (SetIsLoading true) :: l))
        with (SetIsLoading true :: FileWidget.effects l)
  end.
  change (FileChange.with_catch throws (SetIsLoading true :: ?l))
    with (SetIsLoading true :: FileChange.with_catch throws l).
  f_equal. rewrite change_effects_app.
  rewrite (change_effects_started FileChange.Started) by eauto.
  rewrite app_nil_l.
  destruct (Nat.eqb _ 0).
  - rewrite change_effects_did, effects_did, with_catch_on_fulfilled.
    reflexivity.
  - apply run_with_catch.
Qed.

(** One call of [readAsDataURL] for each selected file, in their order. *)
Lemma handleChange_started env event reads order :
  FileChange.started (FileChange.handleChange throws env event reads order)
  = match FileWidget.files event with
    | Some fileList => imap pair fileList
    | None => []
    end.
Proof.
  unfold FileChange.handleChange.
  destruct (FileWidget.files event) as [fileList|]; [|reflexivity].
  change (FileChange.started (FileChange.Did ?e :: ?l))
    with (FileChange.started l).
  unfold FileChange.started at 1. rewrite omap_app.
  fold (FileChange.started (imap FileChange.Started fileList)).
  match goal with
  | |- _ ++ omap _ ?l = _ => fold (FileChange.started l)
  end.
  change (imap FileChange.Started fileList)
    with (imap (fun i => FileChange.Started (0 + i)) fileList).
  rewrite (started_imap fileList 0).
  destruct (Nat.eqb _ 0); [rewrite started_did|rewrite started_run];
    exact (app_nil_r _).
Qed.

Lemma with_catch_keeps effs e :
  e ∈ effs -> e ∈ FileChange.with_catch throws effs.
Proof.
  unfold FileChange.with_catch. rewrite !list_elem_of_In, in_flat_map.
  intros H. exists e. split; [exact H|left; reflexivity].
Qed.

(** What follows a call of [onChange] that throws. *)
Lemma with_catch_elem effs e :
  e ∈ FileChange.with_catch throws effs ->
  e ∈ effs
  \/ exists f v error,
       OnChange f v ∈ effs /\ throws f v = Some error
       /\ e ∈ FileWidget.on_rejected error.
Proof.
  unfold FileChange.with_catch. rewrite list_elem_of_In, in_flat_map.
  intros (x & Hx%list_elem_of_In & He%list_elem_of_In).
  apply elem_of_cons in He as [->|He]; [left; exact Hx|].
  right. destruct x as [f v| | | | |]; simpl in He;
    try (apply elem_of_nil in He; contradiction).
  destruct (throws f v) as [error|] eqn:Ht;
    [|apply elem_of_nil in He; contradiction].
  exists f, v, error. auto.
Qed.

End FileChangeCatch.

(** With callbacks that return, nothing is added. *)
Lemma with_catch_returns effs :
  FileChange.with_catch FileChange.returns effs = effs.
Proof.
  induction effs as [|e effs IH]; [reflexivity|].
  unfold FileChange.with_catch in *. simpl. rewrite IH.
  destruct e; reflexivity.
Qed.

(** So with callbacks that return the widget does what
    [FileWidget.handleChange] says. *)
Lemma handleChange_returns env event reads order :
  FileChange.effects
    (FileChange.handleChange FileChange.returns env event reads order)
  = FileWidget.effects (FileWidget.handleChange env event reads order).
Proof. rewrite handleChange_with_catch. apply with_catch_returns. Qed.

Section Frame.

Context {host : utils}.
Import Event.

Lemma reader_done_effects a i r :
  FileWidget.env (snd (FileWidget.reader_done a i r)) = FileWidget.env a
  /\ (fst (FileWidget.reader_done a i r) = []
      \/ (exists vals, fst (FileWidget.reader_done a i r)
                       = FileWidget.on_fulfilled (FileWidget.env a) vals)
      \/ (exists error, r = FileWidget.Failed error
                        /\ fst (FileWidget.reader_done a i r)
                           = FileWidget.on_rejected error)).
Proof.
  unfold FileWidget.reader_done.
  destruct (FileWidget.alreadyCalled a !! i) as [[|]|]; simpl; auto.
  destruct r as [url|error].
  - destruct (FileWidget.settled a); simpl; auto.
    destruct (Nat.eqb _ 0); simpl; auto.
    split; [reflexivity|]. right. left. eexists. reflexivity.
  - destruct (FileWidget.settled a); simpl; auto.
    split; [reflexivity|]. right. right. exists error. auto.
Qed.

Lemma on_fulfilled_effects env vals e :
  e ∈ FileWidget.on_fulfilled env vals ->
  (exists b, e = SetIsLoading b)
  \/ exists v, e = OnChange (FileWidget.onChange env) v.
Proof.
  unfold FileWidget.on_fulfilled.
  intros [->|[->|H]%elem_of_cons]%elem_of_cons; eauto.
  - destruct (FileWidget.multi env); eauto.
  - apply elem_of_nil in H. contradiction.
Qed.

Lemma run_effects reads order a e :
  e ∈ FileWidget.effects (FileWidget.run reads a order) ->
  (exists b, e = SetIsLoading b)
  \/ (exists v, e = OnChange (FileWidget.onChange (FileWidget.env a)) v)
  \/ (exists i error, e = ConsoleError error
                      /\ reads !! i = Some (FileWidget.Failed error)).
Proof.
  revert a. induction order as [|i order IH]; intros a; simpl.
  - intros H. apply elem_of_nil in H. contradiction.
  - destruct (reads !! i) as [r|] eqn:Hread; [|apply IH].
    destruct (reader_done_effects a i r) as [Henv Heffs].
    destruct (FileWidget.reader_done a i r) as [effs a'].
    simpl in Henv, Heffs.
    rewrite effects_ended_cons, effects_app, effects_did.
    intros [H|H]%elem_of_app.
    + destruct Heffs as [->|[[vals ->]|(error & -> & ->)]].
      * apply elem_of_nil in H. contradiction.
      * apply on_fulfilled_effects in H as [H|H]; auto.
      * unfold FileWidget.on_rejected in H.
        apply elem_of_cons in H as [->|H]; [eauto|].
        apply elem_of_cons in H as [->|H]; [eauto 8|].
        apply elem_of_nil in H. contradiction.
    + rewrite <- Henv. apply IH, H.
Qed.

Lemma file_change_effects history p event reads order e :
  e ∈ FileWidget.effects
        (FileWidget.handleChange
           (FileWidget.change (FileWidget.render p (FileWidget.replay history)))
           event reads order) ->
  permitted p Change e
  \/ (exists b, e = SetIsLoading b)
  \/ (exists i error, e = ConsoleError error
                      /\ reads !! i = Some (FileWidget.Failed error)).
Proof.
  rewrite change_fresh. unfold FileWidget.handleChange.
  destruct (FileWidget.files event) as [fileList|].
  - match goal with
    | |- e ∈ FileWidget.effects (_ :: ?l) -> _ =>
        intros H; change (e ∈ SetIsLoading true :: FileWidget.effects l) in H
    end.
    apply elem_of_cons in H as [->|H]; [eauto|].
    destruct (Nat.eqb _ 0).
    + rewrite effects_did in H.
      apply on_fulfilled_effects in H as [H|[v ->]]; [auto|].
      left. reflexivity.
    + apply run_effects in H as [H|[[v ->]|(i & error & -> & H)]]; auto.
      * left. reflexivity.
      * right. right. exists i, error. split; [reflexivity|].
        apply lookup_take_Some in H. apply H.
  - intros H. apply elem_of_nil in H. contradiction.
Qed.

Lemma report_focus_effects p (value : jsval) e :
  e ∈ match Props.onFocus p with
      | Some f => [OnFocus f (JStr (Props.id p)) value]
      | None => []
      end ->
  permitted p Focus e.
Proof.
  destruct (Props.onFocus p) as [f|] eqn:Hf.
  - intros [->|H]%elem_of_cons; [exact Hf|].
    apply elem_of_nil in H. contradiction.
  - intros H. apply elem_of_nil in H. contradiction.
Qed.

Lemma report_blur_effects p (value : jsval) e :
  e ∈ match Props.onBlur p with
      | Some f => [OnBlur f (JStr (Props.id p)) value]
      | None => []
      end ->
  permitted p Blur e.
Proof.
  destruct (Props.onBlur p) as [f|] eqn:Hf.
  - intros [->|H]%elem_of_cons; [exact Hf|].
    apply elem_of_nil in H. contradiction.
  - intros H. apply elem_of_nil in H. contradiction.
Qed.

Lemma textarea_change_effects history p value e :
  e ∈ TextareaWidget.handleChange
        (TextareaWidget.change
           (TextareaWidget.render p (TextareaWidget.renders history))) value ->
  permitted p Change e.
Proof.
  destruct (textarea_render_ok (fun _ => True) p (TextareaWidget.renders history))
    as (_ & Hcb & _).
  { apply textarea_renders_ok. apply Forall_forall. intros q _. exact I. }
  { exact I. }
  unfold TextareaWidget.handleChange. rewrite Hcb.
  destruct (truthy _).
  - intros H. apply elem_of_nil in H. contradiction.
  - intros [->|H]%elem_of_cons; [reflexivity|].
    apply elem_of_nil in H. contradiction.
Qed.

Lemma select_change_effects history p event effs e :
  SelectWidget.handleChange
    (SelectWidget.change (SelectWidget.render p (SelectWidget.renders history)))
    event = SelectWidget.Done effs ->
  e ∈ effs -> permitted p Change e.
Proof.
  rewrite select_change_fresh. unfold SelectWidget.handleChange.
  change (SelectWidget.onChange (SelectWidget.closure p)) with (Props.onChange p).
  assert (forall v, e ∈ [OnChange (Props.onChange p) v] -> permitted p Change e)
    as Hone.
  { intros v [->|H]%elem_of_cons; [reflexivity|].
    apply elem_of_nil in H. contradiction. }
  destruct (SelectWidget.multiple _).
  - destruct (mapM _ _); [|discriminate]. intros [= <-]. apply Hone.
  - destruct (SelectWidget.value event); [intros [= <-]; apply Hone|].
    destruct (truthy _).
    + destruct (SelectWidget.direct _ _); [|discriminate].
      intros [= <-]. apply Hone.
    + intros [= <-]. apply Hone.
Qed.

(** C8, amended.  In every component, everything the handler of an event
    does is a call of the host's callback for that event, taken from the
    current props: [onChange] on change, [onFocus] on focus, [onBlur] on
    blur; in BaseInputTemplate a supplied [onChangeOverride] is called on
    change in place of [onChange].  Besides that, the change handler of
    FileWidget updates its own loading state, calls [readAsDataURL] once
    on each selected file, in their order, and logs to the console the
    error of a read that failed or what a call of [onChange] it made has
    thrown.  No handler does anything else. *)
Theorem events_call_only_their_callback p e :
  (forall throws history event reads order,
      let log :=
        FileChange.handleChange throws
          (FileWidget.change (FileWidget.render p (FileWidget.replay history)))
          event reads order in
      (e ∈ FileChange.effects log ->
       permitted p Change e
       \/ (exists b, e = SetIsLoading b)
       \/ (exists error,
              e = ConsoleError error
              /\ ((exists i, reads !! i = Some (FileWidget.Failed error))
                  \/ (exists v,
                        OnChange (Props.onChange p) v ∈ FileChange.effects log
                        /\ throws (Props.onChange p) v = Some error))))
      /\ FileChange.started log
         = match FileWidget.files event with
           | Some fileList => imap pair fileList
           | None => []
           end)
  /\ (forall history event,
         (e ∈ FileWidget.handleFocus
                (FileWidget.focus
                   (FileWidget.render p (FileWidget.replay history))) event ->
          permitted p Focus e)
         /\ (e ∈ FileWidget.handleBlur
                   (FileWidget.blur
                      (FileWidget.render p (FileWidget.replay history))) event ->
             permitted p Blur e))
  /\ (forall history value,
         (e ∈ TextareaWidget.handleChange
                (TextareaWidget.change
                   (TextareaWidget.render p (TextareaWidget.renders history)))
                value ->
          permitted p Change e)
         /\ (e ∈ TextareaWidget.handleFocus
                   (TextareaWidget.focus
                      (TextareaWidget.render p (TextareaWidget.renders history)))
                   value ->
             permitted p Focus e)
         /\ (e ∈ TextareaWidget.handleBlur
                   (TextareaWidget.blur
                      (TextareaWidget.render p (TextareaWidget.renders history)))
                   value ->
             permitted p Blur e))
  /\ (forall history event value,
         (forall effs,
             SelectWidget.handleChange
               (SelectWidget.change
                  (SelectWidget.render p (SelectWidget.renders history)))
               event = SelectWidget.Done effs ->
             e ∈ effs -> permitted p Change e)
         /\ (e ∈ SelectWidget._onFocus
                   (SelectWidget.focus
                      (SelectWidget.render p (SelectWidget.renders history)))
                   value ->
             permitted p Focus e)
         /\ (e ∈ SelectWidget._onBlur
                   (SelectWidget.blur
                      (SelectWidget.render p (SelectWidget.renders history)))
                   value ->
             permitted p Blur e))
  /\ (forall history value,
         (e ∈ BaseInputTemplate.dispatch
                (BaseInputTemplate.change
                   (BaseInputTemplate.render p
                      (BaseInputTemplate.renders history)))
                value ->
          match Props.onChangeOverride p with
          | Some f => e = OnChangeOverride f value
          | None => permitted p Change e
          end)
         /\ (e ∈ BaseInputTemplate._onFocus
                   (BaseInputTemplate.focus
                      (BaseInputTemplate.render p
                         (BaseInputTemplate.renders history)))
                   value ->
             permitted p Focus e)
         /\ (e ∈ BaseInputTemplate._onBlur
                   (BaseInputTemplate.blur
                      (BaseInputTemplate.render p
                         (BaseInputTemplate.renders history)))
                   value ->
             permitted p Blur e)).
Proof.
  split; [|split; [|split; [|split]]].
  - intros throws history event reads order log.
    split; [|apply handleChange_started].
    unfold log. rewrite handleChange_with_catch.
    intros [H|(f & v & error & Hin & Ht & He)]%with_catch_elem.
    + apply file_change_effects in H as [H|[H|(i & error & -> & H)]]; auto.
      right. right. exists error. split; [reflexivity|]. left. eauto.
    + assert (f = Props.onChange p) as ->.
      { apply file_change_effects in Hin as [H|[[b H]|(i & err & H & _)]];
          [exact H|discriminate|discriminate]. }
      unfold FileWidget.on_rejected in He.
      apply elem_of_cons in He as [->|He]; [eauto|].
      apply elem_of_cons in He as [->|He];
        [|apply elem_of_nil in He; contradiction].
      right. right. exists error. split; [reflexivity|]. right. exists v.
      split; [apply with_catch_keeps, Hin|exact Ht].
  - intros history event.
    destruct (render_ok p (FileWidget.replay history) (replay_ok history))
      as (_ & _ & -> & ->).
    split; [apply report_focus_effects | apply report_blur_effects].
  - intros history value.
    destruct (textarea_render_ok (fun _ => True) p
                (TextareaWidget.renders history))
      as (_ & _ & _ & _ & Hf & Hb).
    { apply textarea_renders_ok. apply Forall_forall. intros q _. exact I. }
    { exact I. }
    split; [apply textarea_change_effects|].
    rewrite Hf, Hb.
    split; [apply report_focus_effects | apply report_blur_effects].
  - intros history event value.
    destruct (select_render_ok p (SelectWidget.renders history)
                (select_renders_ok history))
      as (_ & _ & _ & -> & ->).
    split; [intros effs; apply select_change_effects|].
    split; [apply report_focus_effects | apply report_blur_effects].
  - intros history value.
    destruct (base_render_ok p (BaseInputTemplate.renders history)
                (base_renders_ok history))
      as (_ & _ & _ & -> & ->).
    split; [|split; [apply report_focus_effects | apply report_blur_effects]].
    rewrite base_dispatch.
    destruct (Props.onChangeOverride p) as [f|].
    + intros [->|H]%elem_of_cons; [reflexivity|].
      apply elem_of_nil in H. contradiction.
    + destruct (BaseInputTemplate.over_limit _ _).
      * intros H. apply elem_of_nil in H. contradiction.
      * intros [->|H]%elem_of_cons; [reflexivity|].
        apply elem_of_nil in H. contradiction.
Qed.

End Frame.

(** C8 as stated fails twice.  In BaseInputTemplate, with an
    [onChangeOverride] in the props, a change event calls that callback,
    which is none of [onChange], [onFocus] and [onBlur], and is no console
    log.  In FileWidget, when both selected files load and the host's
    [onChange] throws, the thrown value is logged to the console, though no
    read has failed, after the loading state is turned off a second time;
    and before that the handler has had the browser read both files, which
    is neither a call of a callback nor a console log. *)
Lemma handlers_do_more_than_claimed :
  (let p := Sample.with_override Sample.props (Some 9%nat) in
   exists e,
     e ∈ BaseInputTemplate.dispatch
           (BaseInputTemplate.change
              (@BaseInputTemplate.render Rjsf.reference p BaseInputTemplate.mount))
           (lit "abc")
     /\ e = OnChangeOverride 9%nat (lit "abc")
     /\ (forall k, ~ Event.permitted p k e)
     /\ (forall error, e <> ConsoleError error))
  /\ (let p := Sample.files_props in
      let reads := [FileWidget.Loaded Sample.url_a; FileWidget.Loaded Sample.url_b] in
      FileChange.effects
        (FileChange.handleChange (FileChange.always Case.thrown)
           (FileWidget.change (FileWidget.render p FileWidget.mount))
           Sample.two_files reads [1; 0]%nat)
      = [ SetIsLoading true; SetIsLoading false;
          OnChange (Props.onChange p)
                   (JArr [JStr Sample.url_a; JStr Sample.url_b]);
          SetIsLoading false; ConsoleError Case.thrown ]
      /\ (forall i error, reads !! i <> Some (FileWidget.Failed error))
      /\ (forall k, ~ Event.permitted p k (ConsoleError Case.thrown))
      /\ FileChange.started
           (FileChange.handleChange (FileChange.always Case.thrown)
              (FileWidget.change (FileWidget.render p FileWidget.mount))
              Sample.two_files reads [1; 0]%nat)
         = [(0%nat, Sample.file "a.txt"); (1%nat, Sample.file "b.png")]).
Proof.
  split.
  - exists (OnChangeOverride 9%nat (lit "abc")).
    split; [apply elem_of_cons; left; reflexivity|].
    split; [reflexivity|]. split; [intros [] []|discriminate].
  - split; [reflexivity|]. split; [|split; [|reflexivity]].
    + intros [|[|i]] error; discriminate.
    + intros [] [].
Qed.

(** ** The theorems at sample inputs *)

Lemma heading_is_override_or_title_witness :
  TitleField.heading (@TitleField.render Rjsf.reference Sample.overridden_title)
  = Some [Val (JStr (lit "Advanced"))]
  /\ TitleField.heading (@TitleField.render Rjsf.reference Sample.section_title)
     = Some [Val (JStr (lit "Settings"))].
Proof.
  split.
  - apply (proj1 (@heading_is_override_or_title
                    Rjsf.reference Sample.overridden_title)).
    reflexivity.
  - apply (proj2 (@heading_is_override_or_title
                    Rjsf.reference Sample.section_title)).
    reflexivity.
Defined.

Lemma markup_is_a_function_of_props_and_loading_witness :
  FileWidget.markup
    (FileWidget.render Sample.files_props
       (FileWidget.replay
          [FileWidget.Render Sample.files_props;
           FileWidget.Update (SetIsLoading true)]))
  = FileWidget.view Sample.files_props true
  /\ TextareaWidget.markup
       (TextareaWidget.render Sample.props
          (TextareaWidget.renders
             [Sample.with_value Sample.props (JStr (lit "draft"))]))
     = TextareaWidget.view Sample.props.
Proof.
  split.
  - exact (proj2 (proj2 (proj2 (proj2
             (@markup_is_a_function_of_props_and_loading
                Rjsf.reference Sample.files_props))))
             [FileWidget.Render Sample.files_props;
              FileWidget.Update (SetIsLoading true)]).
  - exact (proj1 (proj2 (@markup_is_a_function_of_props_and_loading
                           Rjsf.reference Sample.props))
             [Sample.with_value Sample.props (JStr (lit "draft"))]).
Defined.

Lemma events_call_only_their_callback_witness :
  (Event.permitted Sample.files_props Event.Change (ConsoleError Case.thrown)
   \/ (exists b, ConsoleError Case.thrown = SetIsLoading b)
   \/ (exists error,
          ConsoleError Case.thrown = ConsoleError error
          /\ ((exists i,
                  [FileWidget.Loaded Sample.url_a; FileWidget.Loaded Sample.url_b]
                    !! i = Some (FileWidget.Failed error))
              \/ (exists v,
                    OnChange (Props.onChange Sample.files_props) v
                      ∈ FileChange.effects
                          (FileChange.handleChange
                             (FileChange.always Case.thrown)
                             (FileWidget.change
                                (FileWidget.render Sample.files_props
                                   (FileWidget.replay [])))
                             Sample.two_files
                             [FileWidget.Loaded Sample.url_a;
                              FileWidget.Loaded Sample.url_b]
                             [1; 0]%nat)
                    /\ FileChange.always Case.thrown
                         (Props.onChange Sample.files_props) v
                       = Some error))))
  /\ Event.permitted Sample.props Event.Focus
       (OnFocus 2%nat (JStr (lit "root_field")) (JStr (lit "text")))
  /\ Event.permitted Sample.props Event.Change
       (OnChange 1%nat (JStr (lit "text"))).
Proof.
  split; [|split].
  - apply (proj1 (proj1 (@events_call_only_their_callback Rjsf.reference
                           Sample.files_props (ConsoleError Case.thrown))
                   (FileChange.always Case.thrown) [] Sample.two_files
                   [FileWidget.Loaded Sample.url_a; FileWidget.Loaded Sample.url_b]
                   [1; 0]%nat)).
    vm_compute. do 4 (apply list_elem_of_further). apply list_elem_of_here.
  - apply (proj1 (proj2 (proj1 (proj2 (proj2
             (@events_call_only_their_callback Rjsf.reference Sample.props
                (OnFocus 2%nat (JStr (lit "root_field")) (JStr (lit "text"))))))
             [] (lit "text")))).
    apply elem_of_cons. left. reflexivity.
  - apply (proj1 (proj1 (proj2 (proj2
             (@events_call_only_their_callback Rjsf.reference Sample.props
                (OnChange 1%nat (JStr (lit "text"))))))
             [] (lit "text"))).
    apply elem_of_cons. left. reflexivity.
Defined.

(* ===================================================================== *)
(** * Part III.  Further properties of the components                     *)
(* ===================================================================== *)

(** ** Dependencies compare the same as themselves *)

Section SameRefl.

Lemma same_list_refl {A} (same : A -> A -> bool) (l : list A) :
  (forall x, same x x = true) -> same_list same l l = true.
Proof.
  intros Hrefl. induction l as [|x l IH]; simpl; [reflexivity|].
  rewrite Hrefl, IH. reflexivity.
Qed.

Lemma same_string_refl (s : jsstring) : same_string s s = true.
Proof. apply same_list_refl, N.eqb_refl. Qed.

Lemma same_num_refl (n : jsnum) : same_num n n = true.
Proof. destruct n; simpl; [reflexivity|apply Z.eqb_refl]. Qed.

Lemma same_value_refl : forall v : jsval, same_value v v = true.
Proof.
  fix IH 1. intros [| |b|n|s|items|fields]; simpl; try reflexivity.
  - apply Bool.eqb_reflx.
  - apply same_num_refl.
  - apply same_string_refl.
  - induction items as [|x items IHl]; simpl; [reflexivity|].
    rewrite (IH x), IHl. reflexivity.
  - induction fields as [|[k x] fields IHl]; simpl; [reflexivity|].
    rewrite same_string_refl, (IH x), IHl. reflexivity.
Qed.

Lemma same_option_refl {A} (same : A -> A -> bool) (o : option A) :
  (forall x, same x x = true) -> same_option same o o = true.
Proof. intros Hrefl. destruct o; simpl; auto. Qed.

Lemma EnumOption_same_refl (o : EnumOption.t) : EnumOption.same o o = true.
Proof. unfold EnumOption.same. rewrite !same_value_refl. reflexivity. Qed.

Lemma Options_same_refl (o : Options.t) : Options.same o o = true.
Proof.
  unfold Options.same. rewrite !same_value_refl.
  rewrite (same_option_refl _ _ same_num_refl).
  rewrite (same_option_refl _ _
             (fun l => same_list_refl _ l EnumOption_same_refl)).
  reflexivity.
Qed.

Lemma Report_same_refl (d : Report.deps) : Report.same d d = true.
Proof.
  unfold Report.same, same_pair.
  rewrite (same_option_refl _ _ Nat.eqb_refl), same_string_refl. reflexivity.
Qed.

Lemma same_callback_bool_refl (d : callback * bool) :
  same_pair same_callback Bool.eqb d d = true.
Proof.
  unfold same_pair, same_callback.
  rewrite Nat.eqb_refl, Bool.eqb_reflx. reflexivity.
Qed.

Lemma same_env_refl (c : SelectWidget.ChangeEnv) : SelectWidget.same_env c c = true.
Proof.
  unfold SelectWidget.same_env, same_callback.
  rewrite Bool.eqb_reflx, !same_value_refl, Nat.eqb_refl.
  rewrite (same_option_refl _ _
             (fun l => same_list_refl _ l EnumOption_same_refl)).
  reflexivity.
Qed.

End SameRefl.

(** ** FileWidget: the loading state through a change event *)

Section FileWidgetLoading.

Import FileWidget.

Variable reads : list read_result.
Variable n : nat.
Variable e : ChangeEnv.
Hypothesis reads_short : (length reads <= n)%nat.

(** While a reader that has not ended stays away and no reader fails, the
    aggregate stays pending and the widget does nothing. *)
Lemma run_waits order a k :
  pending reads n e a ->
  alreadyCalled a !! k = Some false ->
  k ∉ order ->
  (forall i, i ∈ order -> Loading.not_failed (reads !! i)) ->
  effects (run reads a order) = [].
Proof.
  revert a. induction order as [|i order IH]; intros a Hp Hk Hnot Hok;
    [reflexivity|].
  simpl. apply not_elem_of_cons in Hnot as [Hne Hnot].
  assert (forall j, j ∈ order -> Loading.not_failed (reads !! j)) as Hok'.
  { intros j Hj. apply Hok. apply elem_of_cons. right. exact Hj. }
  destruct (reads !! i) as [r|] eqn:Hread; [|apply IH; assumption].
  destruct r as [url|error].
  - destruct (pending_lookup reads n e reads_short a i _ Hp Hread)
      as [Hcall|[Hcall _]].
    + assert (remaining a <> 1%nat) as Hmore.
      { destruct Hp as (_ & _ & _ & _ & Hr & _). rewrite Hr.
        assert (0 < waiting (<[i := true]> (alreadyCalled a)))%nat as Hw.
        { apply (waiting_pos _ k).
          rewrite list_lookup_insert_ne by congruence. exact Hk. }
        rewrite waiting_insert in Hw by exact Hcall. lia. }
      destruct (loaded_pending reads n e reads_short a i url Hp Hread Hcall Hmore)
        as (a' & -> & Hp' & Hcalled').
      rewrite effects_ended_cons. simpl. apply IH; try assumption.
      rewrite Hcalled', list_lookup_insert_ne by congruence. exact Hk.
    + rewrite reader_done_again by congruence.
      rewrite effects_ended_cons. simpl. apply IH; assumption.
  - exfalso. apply (Hok i (list_elem_of_here i order) error). exact Hread.
Qed.

(** The first reader to fail settles the aggregate with its error. *)
Lemma run_first_failure before i after a error :
  pending reads n e a ->
  alreadyCalled a !! i = Some false ->
  reads !! i = Some (Failed error) ->
  (forall j, j ∈ before -> Loading.not_failed (reads !! j)) ->
  effects (run reads a (before ++ i :: after)) = on_rejected error.
Proof.
  revert a. induction before as [|j before IH]; intros a Hp Hi Hread Hok.
  - simpl. rewrite Hread.
    destruct (failed_pending reads n e a i error Hp Hi) as (a' & -> & Hs).
    rewrite effects_ended_cons, effects_app, effects_did.
    rewrite (effects_ended _ (run_settled reads after a' Hs)), app_nil_r.
    reflexivity.
  - simpl.
    assert (forall k, k ∈ before -> Loading.not_failed (reads !! k)) as Hok'.
    { intros k Hk. apply Hok. apply elem_of_cons. right. exact Hk. }
    assert (j <> i) as Hne.
    { intros ->. apply (Hok i (list_elem_of_here i before) error). exact Hread. }
    destruct (reads !! j) as [r|] eqn:Hrj; [|apply IH; assumption].
    destruct r as [url|error'].
    + destruct (pending_lookup reads n e reads_short a j _ Hp Hrj)
        as [Hcall|[Hcall _]].
      * assert (remaining a <> 1%nat) as Hmore.
        { destruct Hp as (_ & _ & _ & _ & Hr & _). rewrite Hr.
          assert (0 < waiting (<[j := true]> (alreadyCalled a)))%nat as Hw.
          { apply (waiting_pos _ i).
            rewrite list_lookup_insert_ne by exact Hne. exact Hi. }
          rewrite waiting_insert in Hw by exact Hcall. lia. }
        destruct (loaded_pending reads n e reads_short a j url Hp Hrj Hcall Hmore)
          as (a' & -> & Hp' & Hcalled').
        rewrite effects_ended_cons. simpl. apply IH; try assumption.
        rewrite Hcalled', list_lookup_insert_ne by exact Hne. exact Hi.
      * rewrite reader_done_again by congruence.
        rewrite effects_ended_cons. simpl. apply IH; assumption.
    + exfalso. apply (Hok j (list_elem_of_here j before) error'). exact Hrj.
Qed.

End FileWidgetLoading.

Section FileWidgetLifecycle.

Import FileWidget.

Lemma take_not_failed (reads : list read_result) (n i : nat) :
  ((i < n)%nat -> Loading.not_failed (reads !! i)) ->
  Loading.not_failed (take n reads !! i).
Proof.
  intros H error Hfail.
  destruct (decide (i < n)%nat) as [Hi|Hi].
  - rewrite lookup_take_lt in Hfail by exact Hi. exact (H Hi error Hfail).
  - rewrite lookup_take_ge in Hfail by lia. discriminate.
Qed.

Lemma effects_started (log : list item) :
  effects (Did (SetIsLoading true) :: log) = SetIsLoading true :: effects log.
Proof. reflexivity. Qed.



(** As long as the read of some selected file has not ended and no read
    that ended has failed, the widget has done nothing but turn its loading
    state on; rendered in that state, with whatever props, its input is
    disabled and the progress bar is in the tree. *)
Theorem outstanding_read_keeps_loading history p event fileList reads order k h q :
  files event = Some fileList ->
  (k < length fileList)%nat ->
  k ∉ order ->
  (forall i, i ∈ order -> (i < length fileList)%nat ->
             Loading.not_failed (reads !! i)) ->
  effects (handleChange (change (render p (replay history))) event reads order)
  = [SetIsLoading true]
  /\ exists input bar,
      Tree.at_path [0%nat]
        (markup (render q (Loading.after h [SetIsLoading true]))) = Some input
      /\ Tree.tag_of input = Some "input"
      /\ truthy (Tree.attr "disabled" (Tree.attrs_of input)) = true
      /\ Tree.at_path [1%nat; 0%nat]
           (markup (render q (Loading.after h [SetIsLoading true]))) = Some bar
      /\ Tree.tag_of bar = Some "progress".
Proof.
  intros Hfiles Hk Hnot Hok. split.
  - unfold handleChange. rewrite Hfiles.
    destruct (Nat.eqb_spec (length fileList) 0) as [Hz|Hnz]; [lia|].
    rewrite effects_started. f_equal.
    set (n := length fileList) in *.
    apply (run_waits (take n reads) n (change (render p (replay history)))
             ltac:(rewrite length_take; lia) order _ k).
    + apply initial_pending.
    + simpl. apply lookup_replicate. auto.
    + exact Hnot.
    + intros i Hi. apply take_not_failed. intros Hin. apply Hok; assumption.
  - rewrite file_markup. unfold view, render. simpl.
    eexists _, _. split; [reflexivity|]. split; [reflexivity|].
    split; [|split; reflexivity].
    unfold Tree.attr. simpl. unfold js_or.
    destruct (truthy (Props.disabled q)) eqn:Hd; simpl.
    + rewrite Hd. exact Hd.
    + destruct (truthy (Props.readonly q)) eqn:Hr; simpl;
        [exact Hr|reflexivity].
Qed.

(** The error the widget logs is the error of the read that failed first:
    the reads that ended before it did not fail, and whatever ends after it
    changes nothing. *)
Theorem first_failure_is_the_one_logged
        history p event fileList reads before i after error :
  files event = Some fileList ->
  (i < length fileList)%nat ->
  reads !! i = Some (Failed error) ->
  (forall j, j ∈ before -> (j < length fileList)%nat ->
             Loading.not_failed (reads !! j)) ->
  effects (handleChange (change (render p (replay history))) event reads
                        (before ++ i :: after))
  = [SetIsLoading true; SetIsLoading false; ConsoleError error].
Proof.
  intros Hfiles Hi Hread Hok. unfold handleChange. rewrite Hfiles.
  destruct (Nat.eqb_spec (length fileList) 0) as [Hz|Hnz]; [lia|].
  rewrite effects_started. f_equal.
  set (n := length fileList) in *.
  apply (run_first_failure (take n reads) n (change (render p (replay history)))
           ltac:(rewrite length_take; lia)).
  - apply initial_pending.
  - simpl. apply lookup_replicate. auto.
  - rewrite lookup_take_lt by exact Hi. exact Hread.
  - intros j Hj. apply take_not_failed. intros Hin. apply Hok; assumption.
Qed.

(** What [onChange] gets fits what the rendered input allows: an array
    with one entry per selected file when the input has the [multiple]
    attribute, and a single string or null when it has not. *)
Theorem reported_value_fits_the_input
        history p event fileList urls order input :
  files event = Some fileList ->
  length urls = length fileList ->
  (forall i, (i < length fileList)%nat -> i ∈ order) ->
  Tree.at_path [0%nat] (markup (render p (replay history))) = Some input ->
  exists v,
    effects (handleChange (change (render p (replay history))) event
                          (Loaded <$> urls) order)
    = [SetIsLoading true; SetIsLoading false; OnChange (Props.onChange p) v]
    /\ if truthy (Tree.attr "multiple" (Tree.attrs_of input))
       then exists items, v = JArr items /\ length items = length fileList
       else v = JNull \/ exists s, v = JStr s.
Proof.
  intros Hfiles Hlen Hcover Hinput.
  rewrite file_markup in Hinput. unfold view, render in Hinput. simpl in Hinput.
  injection Hinput as <-.
  rewrite change_fresh.
  rewrite (handleChange_all_loaded _ event fileList urls order Hfiles Hlen Hcover).
  unfold on_fulfilled, Tree.attr. simpl.
  destruct (isMulti p); simpl.
  - eexists. split; [reflexivity|]. eexists. split; [reflexivity|].
    rewrite length_fmap. exact Hlen.
  - eexists. split; [reflexivity|].
    destruct urls as [|first rest]; simpl; [left; reflexivity|].
    unfold js_or. destruct (truthy (JStr first)); eauto.
Qed.

End FileWidgetLifecycle.

(** ** UTF-8 byte counts *)

Section Utf8.

Lemma utf8_cons (c : N) (rest : jsstring) :
  utf8 (c :: rest)
  = if high_surrogate c then
      match rest with
      | d :: rest' =>
          if low_surrogate d
          then utf8_code_point (0x10000 + (c - 0xD800) * 1024 + (d - 0xDC00))%N
                 ++ utf8 rest'
          else replacement ++ utf8 rest
      | [] => replacement
      end
    else if low_surrogate c then replacement ++ utf8 rest
    else utf8_code_point c ++ utf8 rest.
Proof. destruct rest; reflexivity. Qed.

Lemma utf8_code_point_length (cp : N) :
  (1 <= length (utf8_code_point cp) <= 4)%nat
  /\ ((cp < 0x10000)%N -> (length (utf8_code_point cp) <= 3)%nat)
  /\ ((0x10000 <= cp)%N -> length (utf8_code_point cp) = 4%nat)
  /\ ((cp < 0x80)%N -> utf8_code_point cp = [cp]).
Proof.
  unfold utf8_code_point.
  destruct (N.ltb_spec cp 0x80); [simpl; repeat split; intros; lia|].
  destruct (N.ltb_spec cp 0x800); [simpl; repeat split; intros; lia|].
  destruct (N.ltb_spec cp 0x10000); simpl; repeat split; intros; lia.
Qed.

Lemma replacement_length : length replacement = 3%nat.
Proof. reflexivity. Qed.

Lemma utf8_length_bounds (n : nat) :
  forall s : jsstring,
    (length s <= n)%nat ->
    (length s <= length (utf8 s))%nat
    /\ (Forall (fun c => (c < 0x10000)%N) s ->
        (length (utf8 s) <= 3 * length s)%nat).
Proof.
  induction n as [|n IH]; intros s Hn.
  - destruct s; [simpl; split; intros; lia|simpl in Hn; lia].
  - destruct s as [|c rest]; [simpl; split; intros; lia|].
    simpl in Hn. rewrite utf8_cons.
    destruct (IH rest ltac:(lia)) as [Hlow Hup].
    pose proof (utf8_code_point_length c) as (Hc & Hc3 & _).
    destruct (high_surrogate c) eqn:Hhigh.
    + destruct rest as [|d rest'].
      * rewrite replacement_length. simpl. split; intros; lia.
      * destruct (low_surrogate d) eqn:Hlo.
        -- destruct (IH rest' ltac:(simpl in Hn; lia)) as [Hlow' Hup'].
           assert (length (utf8_code_point
                             (0x10000 + (c - 0xD800) * 1024 + (d - 0xDC00))%N)
                   = 4%nat) as Hfour.
           { apply utf8_code_point_length. lia. }
           rewrite length_app, Hfour. simpl. split; [lia|].
           intros Hall. apply Forall_cons in Hall as [_ Hall].
           apply Forall_cons in Hall as [_ Hall].
           specialize (Hup' Hall). lia.
        -- rewrite length_app, replacement_length. simpl in *. split; [lia|].
           intros Hall. apply Forall_cons in Hall as [_ Hall].
           specialize (Hup Hall). lia.
    + destruct (low_surrogate c).
      * rewrite length_app, replacement_length. simpl. split; [lia|].
        intros Hall. apply Forall_cons in Hall as [_ Hall].
        specialize (Hup Hall). lia.
      * rewrite length_app. simpl. split; [lia|].
        intros Hall. apply Forall_cons in Hall as [Hc16 Hall].
        specialize (Hup Hall). specialize (Hc3 Hc16). lia.
Qed.

Lemma utf8_ascii (s : jsstring) :
  Forall (fun c => (c < 0x80)%N) s -> utf8 s = s.
Proof.
  induction 1 as [|c rest Hc _ IH]; [reflexivity|].
  rewrite utf8_cons.
  assert (high_surrogate c = false) as ->.
  { unfold high_surrogate. destruct (N.leb_spec 0xD800 c); [lia|reflexivity]. }
  assert (low_surrogate c = false) as ->.
  { unfold low_surrogate. destruct (N.leb_spec 0xDC00 c); [lia|reflexivity]. }
  rewrite (proj2 (proj2 (proj2 (utf8_code_point_length c))) Hc).
  rewrite IH. reflexivity.
Qed.

End Utf8.

(** ** The byte limit of the two text inputs, by cases *)

Section ByteLimit.

(** What the guard of both handlers comes to. *)
Lemma textarea_guard env value :
  TextareaWidget.handleChange env value
  = if TextareaWidget.over_limit (TextareaWidget.maxByteLength env) value
    then []
    else [OnChange (TextareaWidget.onChange env) (JStr value)].
Proof.
  unfold TextareaWidget.handleChange, TextareaWidget.over_limit.
  destruct (TextareaWidget.maxByteLength env) as [[|m]|]; simpl; try reflexivity.
  unfold js_and. simpl. destruct (m =? 0) eqn:Hm; simpl; rewrite ?Hm; reflexivity.
Qed.

Lemma base_guard env value :
  BaseInputTemplate._onChange env value
  = if BaseInputTemplate.over_limit (BaseInputTemplate.maxByteLength env) value
    then []
    else [OnChange (BaseInputTemplate.onChange env)
            (match value with
             | [] => Options.emptyValue (BaseInputTemplate.options env)
             | _ => JStr value
             end)].
Proof.
  unfold BaseInputTemplate._onChange, BaseInputTemplate.over_limit.
  destruct (BaseInputTemplate.maxByteLength env) as [[|m]|]; simpl;
    try reflexivity.
  unfold js_and. simpl. destruct (m =? 0) eqn:Hm; simpl; rewrite ?Hm; reflexivity.
Qed.

Lemma over_limit_Int (m : Z) (value : jsstring) :
  TextareaWidget.over_limit (Some (Int m)) value
  = negb (m =? 0) && (m <? Z.of_nat (length (utf8 value))).
Proof. reflexivity. Qed.

(** The byte limit against the length of the value in UTF-16 code units,
    for a limit [m] other than 0.  A value of more code units than [m] is
    always dropped; a value of well-formed code units, at most a third of
    [m] of them, is never dropped; and for ASCII text the limit counts
    characters: the value is dropped exactly when it has more than [m]. *)
Theorem byte_limit_against_length (m : Z) tenv benv value :
  m <> 0 ->
  TextareaWidget.maxByteLength tenv = Some (Int m) ->
  BaseInputTemplate.maxByteLength benv = Some (Int m) ->
  (m < Z.of_nat (length value) ->
   TextareaWidget.handleChange tenv value = []
   /\ BaseInputTemplate._onChange benv value = [])
  /\ (Forall (fun c => (c < 0x10000)%N) value ->
      3 * Z.of_nat (length value) <= m ->
      TextareaWidget.handleChange tenv value <> []
      /\ BaseInputTemplate._onChange benv value <> [])
  /\ (Forall (fun c => (c < 0x80)%N) value ->
      (TextareaWidget.handleChange tenv value = [] <-> m < Z.of_nat (length value))
      /\ (BaseInputTemplate._onChange benv value = []
          <-> m < Z.of_nat (length value))).
Proof.
  intros Hm Ht Hb. rewrite textarea_guard, base_guard, Ht, Hb.
  change (BaseInputTemplate.over_limit (Some (Int m)) value)
    with (TextareaWidget.over_limit (Some (Int m)) value).
  rewrite over_limit_Int.
  destruct (Z.eqb_spec m 0) as [|_]; [contradiction|]. simpl.
  destruct (utf8_length_bounds (length value) value (Nat.le_refl _))
    as [Hlow Hup].
  split; [|split].
  - intros Hlong. destruct (Z.ltb_spec m (Z.of_nat (length (utf8 value))));
      [split; reflexivity|lia].
  - intros Hwf Hshort. specialize (Hup Hwf).
    destruct (Z.ltb_spec m (Z.of_nat (length (utf8 value)))); [lia|].
    split; discriminate.
  - intros Hascii. rewrite (utf8_ascii value Hascii).
    destruct (Z.ltb_spec m (Z.of_nat (length value))).
    + split; split; auto.
    + split; split; first [discriminate | lia].
Qed.

(** The limits that do not limit, and the limits that block.  A limit
    that is absent, 0 or NaN switches the guard off: every change reaches
    [onChange].  A negative limit blocks every change, also the one that
    empties the field. *)
Theorem degenerate_byte_limits tenv benv value :
  (TextareaWidget.maxByteLength tenv = BaseInputTemplate.maxByteLength benv) ->
  (truthy (opt_num (TextareaWidget.maxByteLength tenv)) = false ->
   TextareaWidget.handleChange tenv value
   = [OnChange (TextareaWidget.onChange tenv) (JStr value)]
   /\ BaseInputTemplate._onChange benv value
      = [OnChange (BaseInputTemplate.onChange benv)
           (match value with
            | [] => Options.emptyValue (BaseInputTemplate.options benv)
            | _ => JStr value
            end)])
  /\ (forall m, TextareaWidget.maxByteLength tenv = Some (Int m) -> m < 0 ->
        TextareaWidget.handleChange tenv value = []
        /\ BaseInputTemplate._onChange benv value = []).
Proof.
  intros Hsame. rewrite textarea_guard, base_guard, <- Hsame.
  change (BaseInputTemplate.over_limit (TextareaWidget.maxByteLength tenv) value)
    with (TextareaWidget.over_limit (TextareaWidget.maxByteLength tenv) value).
  split.
  - intros Hoff. unfold TextareaWidget.over_limit. rewrite Hoff.
    split; reflexivity.
  - intros m -> Hneg. rewrite over_limit_Int.
    destruct (Z.eqb_spec m 0); [lia|].
    destruct (Z.ltb_spec m (Z.of_nat (length (utf8 value)))); [|lia].
    split; reflexivity.
Qed.

End ByteLimit.

(** ** TextareaWidget: which limit the kept handler enforces *)

Section TextareaKept.

Import TextareaWidget.


(** The byte counter under the textarea never shows a remembered length:
    after any renders, it shows the UTF-8 length of the value of this
    render over the limit of this render.  A limit of 0 puts the bare
    number 0 in the tree in place of the counter, and without a limit
    there is nothing. *)
Theorem textarea_counter_is_current history p :
  let shown := Tree.at_path [1%nat] (markup (render p (renders history))) in
  (forall m, Options.maxByteLength (Props.options p) = Some (Int m) -> m <> 0 ->
     exists counter,
       shown = Some counter
       /\ Tree.tag_of counter = Some "div"
       /\ Tree.children_of counter
          = [ Val (JNum (Int (Z.of_nat (encode_length (Props.value p)))));
              Val (JStr (lit "/"));
              Val (JNum (Int m)) ])
  /\ (Options.maxByteLength (Props.options p) = Some (Int 0) ->
      shown = Some (Val (JNum (Int 0))))
  /\ (Options.maxByteLength (Props.options p) = None ->
      shown = Some (Val JUndefined)).
Proof.
  intros shown. subst shown.
  destruct (textarea_render_ok (fun _ => True) p (renders history))
    as (_ & _ & _ & -> & _).
  { apply textarea_renders_ok. apply Forall_forall. intros q _. exact I. }
  { exact I. }
  unfold view, render. simpl.
  split; [|split].
  - intros m -> Hm. simpl. unfold when. simpl.
    destruct (Z.eqb_spec m 0); [contradiction|]. simpl.
    eexists. split; [reflexivity|]. split; reflexivity.
  - intros ->. reflexivity.
  - intros ->. reflexivity.
Qed.

End TextareaKept.

(** ** Read-only fields *)

Section ReadOnly.

Context {host : utils}.

(** A field the host marks read-only is rendered disabled: in the file
    input, the textarea and the select, after any renders, a truthy
    [readonly] makes the [disabled] attribute truthy, whatever [disabled]
    itself is.  The textarea further never gets an undefined or null
    [value]: it gets the value when that is truthy and the empty string
    otherwise. *)
Theorem readonly_fields_are_disabled p :
  truthy (Props.readonly p) = true ->
  (forall h, exists input,
      Tree.at_path [0%nat] (FileWidget.markup (FileWidget.render p h)) = Some input
      /\ Tree.tag_of input = Some "input"
      /\ truthy (Tree.attr "disabled" (Tree.attrs_of input)) = true)
  /\ (forall history, exists area,
         Tree.at_path [0%nat]
           (TextareaWidget.markup
              (TextareaWidget.render p (TextareaWidget.renders history)))
         = Some area
         /\ Tree.tag_of area = Some "textarea"
         /\ truthy (Tree.attr "disabled" (Tree.attrs_of area)) = true
         /\ Tree.attr "value" (Tree.attrs_of area)
            = (if truthy (Props.value p) then Props.value p else JStr []))
  /\ (forall history, exists select,
         Tree.at_path [0%nat]
           (SelectWidget.markup
              (SelectWidget.render p (SelectWidget.renders history)))
         = Some select
         /\ Tree.tag_of select = Some "select"
         /\ truthy (Tree.attr "disabled" (Tree.attrs_of select)) = true).
Proof.
  intros Hro.
  assert (truthy (js_or (Props.disabled p) (Props.readonly p)) = true) as Hdis.
  { unfold js_or. destruct (truthy (Props.disabled p)) eqn:Hd; assumption. }
  split; [|split].
  - intros h. rewrite file_markup. unfold FileWidget.view, FileWidget.render.
    simpl. eexists. split; [reflexivity|]. split; [reflexivity|].
    unfold Tree.attr. simpl.
    unfold js_or at 1. rewrite Hdis. exact Hdis.
  - intros history.
    destruct (textarea_render_ok (fun _ => True) p (TextareaWidget.renders history))
      as (_ & _ & _ & -> & _).
    { apply textarea_renders_ok. apply Forall_forall. intros q _. exact I. }
    { exact I. }
    unfold TextareaWidget.view, TextareaWidget.render. simpl.
    eexists. split; [reflexivity|]. split; [reflexivity|].
    split; [exact Hdis|reflexivity].
  - intros history.
    destruct (select_render_ok p (SelectWidget.renders history)
                (select_renders_ok history)) as (_ & _ & -> & _).
    unfold SelectWidget.view, SelectWidget.render. simpl.
    eexists. split; [reflexivity|]. split; [reflexivity|].
    exact Hdis.
Qed.

End ReadOnly.

(** ** SelectWidget: errors and edges of a selection *)

Section SelectEdges.

Import SelectWidget.
Context {host : utils}.

Lemma direct_objects p i :
  truthy (enumerated_object (Options.enumOptions (Props.options p))) = true ->
  direct (closure p) i = EnumOption.value <$> index (optionsList p) i.
Proof.
  intros Hobj. unfold direct. simpl.
  rewrite (enumerated_object_list p Hobj). simpl.
  destruct (index (optionsList p) i); reflexivity.
Qed.

Lemma handleChange_unfold p event :
  handleChange (closure p) event
  = if is_multiple (Props.multiple p) then
      match
        mapM (fun v =>
                if truthy (enumerated_object (Options.enumOptions (Props.options p)))
                then direct (closure p) (Number v)
                else Some (enumOptionsValueForIndex (String_of_num (Number v))
                             (Options.enumOptions (Props.options p))
                             (Options.emptyValue (Props.options p))))
             (selectedOptions event)
      with
      | Some newValue => Done [OnChange (Props.onChange p) (JArr newValue)]
      | None => TypeError
      end
    else
      match value event with
      | [] => Done [OnChange (Props.onChange p)
                      (Options.emptyValue (Props.options p))]
      | _ =>
          if truthy (enumerated_object (Options.enumOptions (Props.options p)))
          then match direct (closure p) (Number (value event)) with
               | Some v => Done [OnChange (Props.onChange p) v]
               | None => TypeError
               end
          else Done [OnChange (Props.onChange p)
                       (enumOptionsValueForIndex (value event)
                          (Options.enumOptions (Props.options p))
                          (Options.emptyValue (Props.options p)))]
      end.
Proof. unfold handleChange. destruct (value event); reflexivity. Qed.

(** X11.  When the widget's own indexing throws, for an event whose
    reported values are strings of at most fifteen decimal digits (on
    these [Number] gives the integer they spell).  It throws only for a
    list whose first value is an object, and there exactly when a reported
    index names no option of the list; for a list of primitive values it
    does not throw, and neither for an event that the rendered select can
    report. *)
Theorem select_throws_exactly_past_the_list history p event :
  ((if is_multiple (Props.multiple p)
    then Forall Digits.index_string (selectedOptions event)
    else Digits.index_string (value event)) ->
   (handleChange (change (render p (renders history))) event = TypeError
    <-> truthy (enumerated_object (Options.enumOptions (Props.options p))) = true
        /\ if is_multiple (Props.multiple p)
           then Exists (fun v => index (optionsList p) (Number v) = None)
                       (selectedOptions event)
           else value event <> []
                /\ index (optionsList p) (Number (value event)) = None))
  /\ (reportable p event ->
      handleChange (change (render p (renders history))) event <> TypeError).
Proof.
  rewrite select_change_fresh.
  set (outcome := handleChange (closure p) event).
  assert (outcome = TypeError
          <-> truthy (enumerated_object (Options.enumOptions (Props.options p)))
              = true
              /\ if is_multiple (Props.multiple p)
                 then Exists (fun v => index (optionsList p) (Number v) = None)
                             (selectedOptions event)
                 else value event <> []
                      /\ index (optionsList p) (Number (value event)) = None)
    as Hthrows.
  { subst outcome. rewrite handleChange_unfold.
    destruct (truthy (enumerated_object _)) eqn:Hobj.
    - destruct (is_multiple (Props.multiple p)).
      + destruct (mapM _ _) as [vs|] eqn:Hm.
        * split; [discriminate|]. intros [_ Hex]. exfalso.
          assert (mapM (fun v => direct (closure p) (Number v))
                       (selectedOptions event) = None) as Hnone.
          { apply mapM_None. eapply Exists_impl; [exact Hex|].
            intros v Hv. simpl in Hv. rewrite (direct_objects p _ Hobj), Hv.
            reflexivity. }
          congruence.
        * split; [|reflexivity]. intros _. split; [reflexivity|].
          apply mapM_None in Hm. eapply Exists_impl; [exact Hm|].
          intros v Hv. simpl in Hv. rewrite (direct_objects p _ Hobj) in Hv.
          destruct (index (optionsList p) (Number v)); [discriminate|reflexivity].
      + destruct (value event) as [|c rest] eqn:Hval.
        * split; [discriminate|]. intros (_ & Hne & _). contradiction.
        * rewrite (direct_objects p _ Hobj).
          destruct (index (optionsList p) (Number (c :: rest))); simpl.
          -- split; [discriminate|]. intros (_ & _ & [=]).
          -- split; [|reflexivity]. intros _. repeat split. discriminate.
    - split; [|intros [[=] _]].
      destruct (is_multiple (Props.multiple p)).
      + destruct (mapM _ _) as [vs|] eqn:Hm; [discriminate|].
        apply mapM_None in Hm. apply Exists_exists in Hm as (v & _ & [=]).
      + destruct (value event); discriminate. }
  split; [intros _; exact Hthrows|].
  intros Hrep Hthrow. apply Hthrows in Hthrow as [Hobj Hpast].
  unfold reportable in Hrep.
  assert (forall v, rendered_option p v ->
                    index (optionsList p) (Number v) <> None) as Hin.
  { intros v (i & Hi & ->). rewrite Number_String_of_nat, index_nat.
    intros Hnone. apply lookup_ge_None in Hnone. lia. }
  destruct (is_multiple (Props.multiple p)).
  - apply Exists_exists in Hpast as (v & Hv & Hnone).
    rewrite Forall_forall in Hrep. exact (Hin v (Hrep v Hv) Hnone).
  - destruct Hpast as [Hne Hnone]. destruct Hrep as [Hempty|Hopt];
      [contradiction|]. exact (Hin _ Hopt Hnone).
Qed.

(** The shape of what a selection reports.  A multiple select reports one
    value per selected option, so an empty selection reports the empty
    array and not the configured empty value; a single select whose value
    is the empty string reports the configured empty value, for every kind
    of list. *)
Theorem selection_shape history p event :
  (is_multiple (Props.multiple p) = true ->
   (forall effs,
       handleChange (change (render p (renders history))) event = Done effs ->
       exists vs, effs = [OnChange (Props.onChange p) (JArr vs)]
                  /\ length vs = length (selectedOptions event))
   /\ (selectedOptions event = [] ->
       handleChange (change (render p (renders history))) event
       = Done [OnChange (Props.onChange p) (JArr [])]))
  /\ (is_multiple (Props.multiple p) = false ->
      value event = [] ->
      handleChange (change (render p (renders history))) event
      = Done [OnChange (Props.onChange p) (Options.emptyValue (Props.options p))]).
Proof.
  rewrite select_change_fresh, handleChange_unfold.
  split.
  - intros ->. split.
    + intros effs. destruct (mapM _ _) as [vs|] eqn:Hm; [|discriminate].
      intros [= <-]. exists vs. split; [reflexivity|].
      apply mapM_Some in Hm. apply Forall2_length in Hm. symmetry. exact Hm.
    + intros ->. reflexivity.
  - intros -> ->. reflexivity.
Qed.

(** From the rendered option back to its value, for a list of objects.
    The option element at position [i] carries the index [i] as its value,
    and a change event that reports that index passes the value of the
    option at [i] to [onChange], alone from a single select and in an
    array from a multiple one, without any help of the host function. *)
Theorem object_option_round_trip history p i o :
  truthy (enumerated_object (Options.enumOptions (Props.options p))) = true ->
  optionsList p !! i = Some o ->
  exists opt,
    Tree.at_path [0%nat; S i] (markup (render p (renders history))) = Some opt
    /\ Tree.tag_of opt = Some "option"
    /\ Tree.attr "value" (Tree.attrs_of opt) = JNum (Int (Z.of_nat i))
    /\ forall event,
        (if is_multiple (Props.multiple p)
         then selectedOptions event
              = [ToString (Tree.attr "value" (Tree.attrs_of opt))]
         else value event = ToString (Tree.attr "value" (Tree.attrs_of opt))) ->
        handleChange (change (render p (renders history))) event
        = Done [OnChange (Props.onChange p)
                  (if is_multiple (Props.multiple p)
                   then JArr [EnumOption.value o]
                   else EnumOption.value o)].
Proof.
  intros Hobj Ho.
  destruct (select_render_ok p (renders history) (select_renders_ok history))
    as (_ & -> & -> & _).
  unfold view, render. simpl. rewrite list_lookup_imap, Ho. simpl.
  eexists. split; [reflexivity|]. split; [reflexivity|].
  split; [reflexivity|].
  intros event Hev. unfold Tree.attr in Hev. simpl in Hev.
  rewrite handleChange_unfold, Hobj.
  assert (direct (closure p) (Number (String_of_num (Int (Z.of_nat i))))
          = Some (EnumOption.value o)) as Hdirect.
  { rewrite String_of_num_nat, Number_String_of_nat, (direct_objects p _ Hobj).
    rewrite index_nat, Ho. reflexivity. }
  destruct (is_multiple (Props.multiple p)).
  - rewrite Hev. simpl. rewrite Hdirect. reflexivity.
  - rewrite Hev, Hdirect.
    destruct (String_of_num (Int (Z.of_nat i))) eqn:Hs; [|reflexivity].
    rewrite String_of_num_nat in Hs. apply String_of_nat_nonempty in Hs.
    contradiction.
Qed.

(** What an option shows.  An entry of [schema.enumNames] for its
    position, when truthy, is shown in place of the label; without one, a
    label that is a string is shown as it is, for both kinds of list, and
    in a list of primitive values a label that is falsy (0, null, ...) is
    shown as the empty string. *)
Theorem option_text history p i o :
  optionsList p !! i = Some o ->
  let enumName := enumName (Schema.enumNames (Props.schema p)) i in
  exists text,
    Tree.at_path [0%nat; S i; 0%nat] (markup (render p (renders history)))
    = Some (Val text)
    /\ (truthy enumName = true -> text = enumName)
    /\ (truthy enumName = false ->
        (forall s, EnumOption.label o = JStr s -> text = JStr s)
        /\ (truthy (enumerated_object (Options.enumOptions (Props.options p)))
            = false ->
            truthy (EnumOption.label o) = false -> text = JStr [])).
Proof.
  intros Ho name.
  destruct (select_render_ok p (renders history) (select_renders_ok history))
    as (_ & _ & -> & _).
  unfold view, render. simpl. rewrite list_lookup_imap, Ho. simpl.
  eexists. split; [reflexivity|]. fold name. unfold js_or.
  split.
  - intros ->. reflexivity.
  - intros ->. split.
    + intros s Hs. rewrite Hs.
      destruct (truthy (enumerated_object _)); [reflexivity|].
      unfold getDisplayValue. destruct s; reflexivity.
    + intros -> Hfalsy. unfold getDisplayValue. rewrite Hfalsy. reflexivity.
Qed.

End SelectEdges.

(** ** Attribute lists *)

Section Attributes.

Lemma fold_attr_absent name (l : list (string * jsval)) (d : jsval) :
  name ∉ Tree.names l ->
  fold_left (fun found kv => if String.eqb (fst kv) name then snd kv else found)
            l d = d.
Proof.
  revert d. induction l as [|[k v] l IH]; intros d Hnot; [reflexivity|].
  unfold Tree.names in Hnot. simpl in Hnot.
  apply not_elem_of_cons in Hnot as [Hne Hnot]. simpl.
  destruct (String.eqb_spec k name) as [->|_]; [contradiction|].
  apply IH. exact Hnot.
Qed.

Lemma attr_app_absent name (a b : list (string * jsval)) :
  name ∉ Tree.names b -> Tree.attr name (a ++ b) = Tree.attr name a.
Proof.
  intros Hnot. unfold Tree.attr. rewrite fold_left_app.
  apply fold_attr_absent. exact Hnot.
Qed.

Lemma attr_app_present name (a b : list (string * jsval)) :
  name ∈ Tree.names b -> Tree.attr name (a ++ b) = Tree.attr name b.
Proof.
  induction b as [|[k v] b IH] using rev_ind.
  - intros H. apply elem_of_nil in H. contradiction.
  - intros Hin. rewrite app_assoc. unfold Tree.attr in *.
    rewrite (fold_left_app _ (a ++ b)), (fold_left_app _ b). simpl.
    destruct (String.eqb_spec k name) as [_|Hne]; [reflexivity|].
    apply IH. unfold Tree.names in Hin. rewrite map_app in Hin.
    apply elem_of_app in Hin as [Hin|Hin]; [exact Hin|].
    simpl in Hin. apply elem_of_cons in Hin as [->|Hin]; [contradiction|].
    apply elem_of_nil in Hin. contradiction.
Qed.

Lemma names_elem (k : string) (v : jsval) (l : list (string * jsval)) :
  (k, v) ∈ l -> k ∈ Tree.names l.
Proof.
  intros H. unfold Tree.names. apply list_elem_of_fmap. exists (k, v). auto.
Qed.

Lemma attr_lookup k v (l : list (string * jsval)) :
  NoDup (Tree.names l) -> (k, v) ∈ l -> Tree.attr k l = v.
Proof.
  unfold Tree.attr. generalize JUndefined.
  induction l as [|[k' v'] l IH]; intros d Hnd Hin.
  - apply elem_of_nil in Hin. contradiction.
  - unfold Tree.names in Hnd. simpl in Hnd.
    apply NoDup_cons in Hnd as [Hfresh Hnd]. simpl.
    apply elem_of_cons in Hin as [[= <- <-]|Hin].
    + rewrite String.eqb_refl. apply fold_attr_absent. exact Hfresh.
    + apply IH; assumption.
Qed.

Lemma prop_lookup k v (l : list (string * jsval)) :
  NoDup (Tree.names l) -> (k, v) ∈ l -> BaseInputTemplate.prop k l = v.
Proof.
  induction l as [|[k' v'] l IH]; intros Hnd Hin.
  - apply elem_of_nil in Hin. contradiction.
  - unfold Tree.names in Hnd. simpl in Hnd.
    apply NoDup_cons in Hnd as [Hfresh Hnd]. simpl.
    apply elem_of_cons in Hin as [[= <- <-]|Hin].
    + rewrite String.eqb_refl. reflexivity.
    + destruct (String.eqb_spec k k') as [->|_].
      * exfalso. apply Hfresh. eapply names_elem. exact Hin.
      * apply IH; assumption.
Qed.

Lemma names_filter (P : string * jsval -> Prop) `{forall x, Decision (P x)}
      (l : list (string * jsval)) :
  NoDup (Tree.names l) -> NoDup (Tree.names (filter P l)).
Proof.
  induction l as [|kv l IH]; intros Hnd; [constructor|].
  unfold Tree.names in *. simpl in Hnd. apply NoDup_cons in Hnd as [Hfresh Hnd].
  rewrite filter_cons. destruct (decide (P kv)); [|apply IH, Hnd].
  simpl. apply NoDup_cons. split; [|apply IH, Hnd].
  intros Hin. apply Hfresh. apply list_elem_of_fmap in Hin as (x & -> & Hx).
  apply list_elem_of_filter in Hx as [_ Hx].
  apply list_elem_of_fmap. exists x. auto.
Qed.

End Attributes.

(** ** BaseInputTemplate: the attributes of the input and the datalist *)

Section BaseInputTree.

Import BaseInputTemplate.
Context {host : utils}.

Lemma base_markup history p : markup (render p (renders history)) = view p.
Proof. apply base_render_ok, base_renders_ok. Qed.

(** The attributes the template sets itself, and what the spread of
    [htmlInputProps] adds for a given object of input props. *)
Lemma input_of_view p :
  exists own,
    Tree.names own = ["id"; "name"; "value"; "placeholder"; "required";
                      "disabled"; "autoFocus"; "className"]
    /\ Tree.attr "disabled" own = js_or (Props.disabled p) (Props.readonly p)
    /\ Tree.attr "value" own
       = (if truthy (Props.value p) || same_value (Props.value p) (JNum (Int 0))
          then Props.value p else JStr [])
    /\ Tree.at_path [0%nat; 1%nat] (view p)
       = Some (Elem "input"
                 (own
                  ++ filter (fun kv => negb (existsb (String.eqb (fst kv)) extracted)
                                       = true)
                       (getInputProps (Props.schema p) (Props.type p)
                          (Props.options p))
                  ++ ([ ("step", prop "step" (getInputProps (Props.schema p)
                                                (Props.type p) (Props.options p)));
                        ("min", prop "min" (getInputProps (Props.schema p)
                                              (Props.type p) (Props.options p)));
                        ("max", prop "max" (getInputProps (Props.schema p)
                                              (Props.type p) (Props.options p)));
                        ("accept", prop "accept" (getInputProps (Props.schema p)
                                                    (Props.type p)
                                                    (Props.options p))) ]
                      ++ (if truthy (Schema.examples (Props.schema p))
                          then [("list", examplesId (Props.id p))] else []))
                  ++ [("aria-describedby",
                       ariaDescribedByIds (Props.id p)
                         (truthy (Schema.examples (Props.schema p))))])
                 []).
Proof.
  exists [ ("id", JStr (Props.id p));
           ("name", JStr (Props.id p));
           ("value",
            if truthy (Props.value p) || same_value (Props.value p) (JNum (Int 0))
            then Props.value p else JStr []);
           ("placeholder", Props.placeholder p);
           ("required", Props.required p);
           ("disabled", js_or (Props.disabled p) (Props.readonly p));
           ("autoFocus", Props.autofocus p);
           ("className", JStr (lit "input input-bordered w-full")) ].
  repeat split.
Qed.

Lemma not_extracted (k : string) :
  k ∉ extracted -> negb (existsb (String.eqb k) extracted) = true.
Proof.
  intros Hnot. apply negb_true_iff, not_true_is_false. intros Hex.
  apply existsb_exists in Hex as (x & Hx & Heq).
  apply String.eqb_eq in Heq. subst x. apply Hnot, list_elem_of_In, Hx.
Qed.

(** X15.  What [getInputProps] returns reaches the input element: for
    every name it returns, and for [step], [min], [max] and [accept] also
    when it does not return them, the input's attribute is the property of
    the returned object, over whatever the template set under that name
    itself.  The names left out are those the template or React has the
    last word on: [aria-describedby], the handlers [onChange], [onBlur]
    and [onFocus] that follow the spreads, [key] and [ref], and [list]
    when the schema has examples. *)
Theorem input_props_reach_the_input history p k :
  let given := getInputProps (Props.schema p) (Props.type p) (Props.options p) in
  NoDup (Tree.names given) ->
  k ∈ Tree.names given \/ k ∈ extracted ->
  k <> "aria-describedby" ->
  k ∉ Reserved.handlers ->
  k ∉ Reserved.react ->
  (k = "list" -> truthy (Schema.examples (Props.schema p)) = false) ->
  exists input,
    Tree.at_path [0%nat; 1%nat] (markup (render p (renders history))) = Some input
    /\ Tree.tag_of input = Some "input"
    /\ Tree.attr k (Tree.attrs_of input) = prop k given.
Proof.
  intros given Hnd Hk Haria _ _ Hlist. rewrite base_markup.
  destruct (input_of_view p) as (own & _ & _ & _ & ->).
  fold given. eexists. split; [reflexivity|]. split; [reflexivity|].
  cbn [Tree.attrs_of]. rewrite !app_assoc.
  rewrite attr_app_absent.
  2:{ intros [->|H]%elem_of_cons; [simpl in *; congruence|].
      apply elem_of_nil in H. contradiction. }
  assert (k ∉ Tree.names (if truthy (Schema.examples (Props.schema p))
                          then [("list", examplesId (Props.id p))] else []))
    as Hnolist.
  { destruct (truthy (Schema.examples (Props.schema p))) eqn:Hex.
    - intros [->|H]%elem_of_cons; [simpl in *; specialize (Hlist eq_refl); discriminate|].
      apply elem_of_nil in H. contradiction.
    - intros H. apply elem_of_nil in H. contradiction. }
  rewrite attr_app_absent by exact Hnolist.
  assert (k ∈ extracted \/ k ∉ extracted) as [Hext|Hnot].
  { unfold extracted.
    destruct (String.eqb_spec k "step") as [->|?]; [left; repeat constructor|].
    destruct (String.eqb_spec k "min") as [->|?]; [left; repeat constructor|].
    destruct (String.eqb_spec k "max") as [->|?]; [left; repeat constructor|].
    destruct (String.eqb_spec k "accept") as [->|?]; [left; repeat constructor|].
    right. intros H. repeat (apply elem_of_cons in H as [->|H]; [congruence|]).
    apply elem_of_nil in H. contradiction. }
  - rewrite attr_app_present.
    + unfold extracted in Hext.
      repeat (apply elem_of_cons in Hext as [->|Hext]; [reflexivity|]).
      apply elem_of_nil in Hext. contradiction.
    + exact Hext.
  - destruct Hk as [Hk|Hk]; [|contradiction].
    rewrite attr_app_absent by exact Hnot.
    apply list_elem_of_fmap in Hk as ([k' v] & -> & Hin). simpl in *.
    rewrite (prop_lookup k' v given Hnd Hin).
    rewrite attr_app_present.
    + apply attr_lookup; [apply names_filter, Hnd|].
      apply list_elem_of_filter. split; [|exact Hin].
      exact (not_extracted k' Hnot).
    + eapply names_elem. apply list_elem_of_filter. split; [|exact Hin].
      exact (not_extracted k' Hnot).
Qed.

(** Where [getInputProps] returns nothing under [disabled] and [value],
    the template's own attributes stand: a read-only field is disabled,
    and the input always has a value, the props' value when that is truthy
    or the number 0 and the empty string otherwise, never undefined or
    null. *)
Theorem template_attributes_stand history p :
  let given := getInputProps (Props.schema p) (Props.type p) (Props.options p) in
  "disabled" ∉ Tree.names given ->
  "value" ∉ Tree.names given ->
  exists input,
    Tree.at_path [0%nat; 1%nat] (markup (render p (renders history))) = Some input
    /\ (truthy (Props.readonly p) = true ->
        truthy (Tree.attr "disabled" (Tree.attrs_of input)) = true)
    /\ Tree.attr "value" (Tree.attrs_of input)
       = (if truthy (Props.value p) || same_value (Props.value p) (JNum (Int 0))
          then Props.value p else JStr [])
    /\ Tree.attr "value" (Tree.attrs_of input) <> JUndefined
    /\ Tree.attr "value" (Tree.attrs_of input) <> JNull.
Proof.
  intros given Hdis Hval. rewrite base_markup.
  destruct (input_of_view p) as (own & Hnames & Hod & Hov & ->).
  fold given. eexists. split; [reflexivity|]. cbn [Tree.attrs_of].
  assert (forall k, k ∉ Tree.names given -> k ∉ extracted -> k <> "list" ->
                    k <> "aria-describedby" ->
                    Tree.attr k
                      (own ++ filter (fun kv => negb (existsb (String.eqb (fst kv))
                                                        extracted) = true) given
                       ++ ([("step", prop "step" given); ("min", prop "min" given);
                            ("max", prop "max" given);
                            ("accept", prop "accept" given)]
                           ++ (if truthy (Schema.examples (Props.schema p))
                               then [("list", examplesId (Props.id p))] else []))
                       ++ [("aria-describedby",
                            ariaDescribedByIds (Props.id p)
                              (truthy (Schema.examples (Props.schema p))))])
                    = Tree.attr k own) as Hown.
  { intros k Hk Hext Hlist Haria. rewrite !app_assoc.
    rewrite attr_app_absent.
    2:{ intros [->|H]%elem_of_cons; [simpl in *; congruence|].
        apply elem_of_nil in H. contradiction. }
    rewrite attr_app_absent.
    2:{ destruct (truthy (Schema.examples (Props.schema p))).
        - intros [->|H]%elem_of_cons; [simpl in *; congruence|].
          apply elem_of_nil in H. contradiction.
        - intros H. apply elem_of_nil in H. contradiction. }
    rewrite attr_app_absent by exact Hext.
    apply attr_app_absent. intros Hin. apply Hk.
    apply list_elem_of_fmap in Hin as (x & -> & Hx).
    apply list_elem_of_filter in Hx as [_ Hx].
    apply list_elem_of_fmap. exists x. auto. }
  assert (forall k, k = "disabled" \/ k = "value" -> k ∉ extracted) as Hne.
  { intros k Hk H. unfold extracted in H.
    repeat (apply elem_of_cons in H as [->|H];
            [destruct Hk; discriminate|]).
    apply elem_of_nil in H. contradiction. }
  rewrite (Hown "disabled" Hdis (Hne _ (or_introl eq_refl))) by discriminate.
  rewrite (Hown "value" Hval (Hne _ (or_intror eq_refl))) by discriminate.
  rewrite Hod, Hov. split; [|split; [reflexivity|]].
  - intros Hro. unfold js_or.
    destruct (truthy (Props.disabled p)) eqn:Hd; assumption.
  - destruct (truthy (Props.value p)) eqn:Ht; simpl.
    + split; intros Heq; rewrite Heq in Ht; discriminate.
    + destruct (same_value (Props.value p) (JNum (Int 0))) eqn:Hz.
      * apply same_value_eq in Hz. rewrite Hz. split; discriminate.
      * split; discriminate.
Qed.


End BaseInputTree.

(** ** Focus and blur *)

Section FocusBlur.

Context {host : utils}.

(** Focus and blur are reported under the id of the current props, never
    under an id of an earlier render: in all four components the handlers
    of a mounted component pass the current id and what the element holds
    (for the file input its files, or null without a file list), and do
    nothing when the host gave no callback. *)
Theorem focus_and_blur_report_the_current_id p :
  (forall history event,
      FileWidget.handleFocus
        (FileWidget.focus (FileWidget.render p (FileWidget.replay history))) event
      = match Props.onFocus p with
        | Some f => [OnFocus f (JStr (Props.id p))
                       (match FileWidget.files event with
                        | Some fileList => JArr fileList
                        | None => JNull
                        end)]
        | None => []
        end
      /\ FileWidget.handleBlur
           (FileWidget.blur (FileWidget.render p (FileWidget.replay history))) event
         = match Props.onBlur p with
           | Some f => [OnBlur f (JStr (Props.id p))
                          (match FileWidget.files event with
                           | Some fileList => JArr fileList
                           | None => JNull
                           end)]
           | None => []
           end)
  /\ (forall history value,
         let focused := match Props.onFocus p with
                        | Some f => [OnFocus f (JStr (Props.id p)) (JStr value)]
                        | None => []
                        end in
         let blurred := match Props.onBlur p with
                        | Some f => [OnBlur f (JStr (Props.id p)) (JStr value)]
                        | None => []
                        end in
         TextareaWidget.handleFocus
           (TextareaWidget.focus
              (TextareaWidget.render p (TextareaWidget.renders history))) value
         = focused
         /\ TextareaWidget.handleBlur
              (TextareaWidget.blur
                 (TextareaWidget.render p (TextareaWidget.renders history))) value
            = blurred
         /\ SelectWidget._onFocus
              (SelectWidget.focus
                 (SelectWidget.render p (SelectWidget.renders history))) value
            = focused
         /\ SelectWidget._onBlur
              (SelectWidget.blur
                 (SelectWidget.render p (SelectWidget.renders history))) value
            = blurred
         /\ BaseInputTemplate._onFocus
              (BaseInputTemplate.focus
                 (BaseInputTemplate.render p (BaseInputTemplate.renders history)))
              value
            = focused
         /\ BaseInputTemplate._onBlur
              (BaseInputTemplate.blur
                 (BaseInputTemplate.render p (BaseInputTemplate.renders history)))
              value
            = blurred).
Proof.
  split.
  - intros history event.
    destruct (render_ok p (FileWidget.replay history) (replay_ok history))
      as (_ & _ & -> & ->).
    split; reflexivity.
  - intros history value focused blurred.
    destruct (textarea_render_ok (fun _ => True) p (TextareaWidget.renders history))
      as (_ & _ & _ & _ & -> & ->).
    { apply textarea_renders_ok. apply Forall_forall. intros q _. exact I. }
    { exact I. }
    destruct (select_render_ok p (SelectWidget.renders history)
                (select_renders_ok history)) as (_ & _ & _ & -> & ->).
    destruct (base_render_ok p (BaseInputTemplate.renders history)
                (base_renders_ok history)) as (_ & _ & _ & -> & ->).
    repeat split.
Qed.

End FocusBlur.

(** ** The further properties at sample inputs *)


Lemma outstanding_read_keeps_loading_witness :
  FileWidget.effects
    (FileWidget.handleChange
       (FileWidget.change
          (FileWidget.render Sample.files_props (FileWidget.replay [])))
       Sample.two_files [FileWidget.Loaded Sample.url_a] [0]%nat)
  = [SetIsLoading true]
  /\ exists input bar,
      Tree.at_path [0%nat]
        (FileWidget.markup
           (FileWidget.render Sample.files_props
              (Loading.after FileWidget.mount [SetIsLoading true])))
      = Some input
      /\ Tree.tag_of input = Some "input"
      /\ truthy (Tree.attr "disabled" (Tree.attrs_of input)) = true
      /\ Tree.at_path [1%nat; 0%nat]
           (FileWidget.markup
              (FileWidget.render Sample.files_props
                 (Loading.after FileWidget.mount [SetIsLoading true])))
         = Some bar
      /\ Tree.tag_of bar = Some "progress".
Proof.
  apply (outstanding_read_keeps_loading [] Sample.files_props Sample.two_files
           [Sample.file "a.txt"; Sample.file "b.png"]
           [FileWidget.Loaded Sample.url_a] [0]%nat 1%nat FileWidget.mount
           Sample.files_props).
  - reflexivity.
  - simpl. lia.
  - intros [[=]|H]%elem_of_cons. apply elem_of_nil in H. contradiction.
  - intros i [->|H]%elem_of_cons _ error; [discriminate|].
    apply elem_of_nil in H. contradiction.
Defined.

Lemma first_failure_is_the_one_logged_witness :
  FileWidget.effects
    (FileWidget.handleChange
       (FileWidget.change
          (FileWidget.render Sample.files_props (FileWidget.replay [])))
       Sample.two_files
       [FileWidget.Loaded Sample.url_a; FileWidget.Failed Sample.read_error]
       ([0]%nat ++ 1%nat :: [0; 1]%nat))
  = [SetIsLoading true; SetIsLoading false; ConsoleError Sample.read_error].
Proof.
  apply (first_failure_is_the_one_logged [] Sample.files_props Sample.two_files
           [Sample.file "a.txt"; Sample.file "b.png"]
           [FileWidget.Loaded Sample.url_a; FileWidget.Failed Sample.read_error]
           [0]%nat 1%nat [0; 1]%nat Sample.read_error).
  - reflexivity.
  - simpl. lia.
  - reflexivity.
  - intros j [->|H]%elem_of_cons _ error; [discriminate|].
    apply elem_of_nil in H. contradiction.
Defined.

Lemma reported_value_fits_the_input_witness :
  exists v,
    FileWidget.effects
      (FileWidget.handleChange
         (FileWidget.change
            (FileWidget.render Sample.files_props (FileWidget.replay [])))
         Sample.two_files
         (FileWidget.Loaded <$> [Sample.url_a; Sample.url_b]) [1; 0]%nat)
    = [SetIsLoading true; SetIsLoading false;
       OnChange (Props.onChange Sample.files_props) v]
    /\ exists items, v = JArr items /\ length items = 2%nat.
Proof.
  destruct (reported_value_fits_the_input [] Sample.files_props Sample.two_files
              [Sample.file "a.txt"; Sample.file "b.png"]
              [Sample.url_a; Sample.url_b] [1; 0]%nat
              (Elem "input"
                 [ ("id", JStr (lit "root_field"));
                   ("type", JStr (lit "file"));
                   ("className", JStr (lit "file-input w-full"));
                   ("required", JBool false);
                   ("disabled", JBool false);
                   ("multiple", JBool true);
                   ("accept", JUndefined) ] []))
    as (v & Heff & Hshape).
  - reflexivity.
  - reflexivity.
  - intros i Hi. simpl in Hi. destruct i as [|[|i]]; [| |lia].
    + apply elem_of_cons. right. apply elem_of_cons. left. reflexivity.
    + apply elem_of_cons. left. reflexivity.
  - reflexivity.
  - exists v. split; [exact Heff|exact Hshape].
Defined.

Lemma byte_limit_against_length_witness :
  (TextareaWidget.handleChange (Case.text_env 5) (lit "hello!") = []
   /\ BaseInputTemplate._onChange (Case.input_env 5) (lit "hello!") = [])
  /\ (TextareaWidget.handleChange (Case.text_env 15) Case.hello <> []
      /\ BaseInputTemplate._onChange (Case.input_env 15) Case.hello <> []).
Proof.
  split.
  - apply (byte_limit_against_length 5 (Case.text_env 5) (Case.input_env 5)
             (lit "hello!")); [lia|reflexivity|reflexivity|simpl; lia].
  - apply (byte_limit_against_length 15 (Case.text_env 15) (Case.input_env 15)
             Case.hello); [lia|reflexivity|reflexivity| |simpl; lia].
    repeat constructor.
Defined.

Lemma degenerate_byte_limits_witness :
  (TextareaWidget.handleChange (Case.text_env 0) Case.hello
   = [OnChange 1%nat (JStr Case.hello)]
   /\ BaseInputTemplate._onChange (Case.input_env 0) Case.hello
      = [OnChange 1%nat (JStr Case.hello)])
  /\ (TextareaWidget.handleChange (Case.text_env (-1)) [] = []
      /\ BaseInputTemplate._onChange (Case.input_env (-1)) [] = []).
Proof.
  split.
  - apply (degenerate_byte_limits (Case.text_env 0) (Case.input_env 0) Case.hello);
      reflexivity.
  - apply (proj2 (degenerate_byte_limits (Case.text_env (-1)) (Case.input_env (-1))
                    [] eq_refl) (-1)); [reflexivity|lia].
Defined.


Lemma textarea_counter_is_current_witness :
  exists counter,
    Tree.at_path [1%nat]
      (TextareaWidget.markup
         (TextareaWidget.render Case.limited
            (TextareaWidget.renders [Sample.props; Case.limited; Sample.props])))
    = Some counter
    /\ Tree.tag_of counter = Some "div"
    /\ Tree.children_of counter
       = [Val (JNum (Int 6)); Val (JStr (lit "/")); Val (JNum (Int 5))].
Proof.
  apply (proj1 (textarea_counter_is_current
                  [Sample.props; Case.limited; Sample.props] Case.limited) 5);
    [reflexivity|lia].
Defined.

Lemma readonly_fields_are_disabled_witness :
  exists area,
    Tree.at_path [0%nat]
      (TextareaWidget.markup
         (TextareaWidget.render Case.read_only (TextareaWidget.renders [])))
    = Some area
    /\ Tree.tag_of area = Some "textarea"
    /\ truthy (Tree.attr "disabled" (Tree.attrs_of area)) = true
    /\ Tree.attr "value" (Tree.attrs_of area) = JStr [].
Proof.
  apply (proj1 (proj2 (@readonly_fields_are_disabled Rjsf.reference
                         Case.read_only eq_refl)) []).
Defined.

Lemma select_throws_exactly_past_the_list_witness :
  @SelectWidget.handleChange Rjsf.reference
    (SelectWidget.change
       (@SelectWidget.render Rjsf.reference Case.people
          (@SelectWidget.renders Rjsf.reference [])))
    (Sample.pick "7")
  = SelectWidget.TypeError
  /\ @SelectWidget.handleChange Rjsf.reference
       (SelectWidget.change
          (@SelectWidget.render Rjsf.reference Case.people
             (@SelectWidget.renders Rjsf.reference [])))
       (Sample.pick "1")
     <> SelectWidget.TypeError.
Proof.
  split.
  - apply (proj1 (@select_throws_exactly_past_the_list Rjsf.reference
                    [] Case.people (Sample.pick "7"))).
    + change (Digits.index_string [55%N]). split; [|simpl; lia].
      apply Forall_cons. split; [unfold Digits.digit; lia|apply Forall_nil_2].
    + split; [reflexivity|]. split; [discriminate|reflexivity].
  - apply (proj2 (@select_throws_exactly_past_the_list Rjsf.reference
                    [] Case.people (Sample.pick "1"))).
    right. exists 1%nat. split; [simpl; lia|reflexivity].
Defined.

Lemma selection_shape_witness :
  @SelectWidget.handleChange Rjsf.reference
    (SelectWidget.change
       (@SelectWidget.render Rjsf.reference (Case.several Case.colours)
          (@SelectWidget.renders Rjsf.reference [])))
    Case.nothing_selected
  = SelectWidget.Done [OnChange 1%nat (JArr [])]
  /\ @SelectWidget.handleChange Rjsf.reference
       (SelectWidget.change
          (@SelectWidget.render Rjsf.reference Case.colours
             (@SelectWidget.renders Rjsf.reference [])))
       Case.nothing_selected
     = SelectWidget.Done [OnChange 1%nat JUndefined].
Proof.
  split.
  - apply (proj1 (@selection_shape Rjsf.reference [] (Case.several Case.colours)
                    Case.nothing_selected)); reflexivity.
  - apply (proj2 (@selection_shape Rjsf.reference [] Case.colours
                    Case.nothing_selected)); reflexivity.
Defined.

Lemma object_option_round_trip_witness :
  exists opt,
    Tree.at_path [0%nat; 2%nat]
      (SelectWidget.markup
         (@SelectWidget.render Rjsf.reference Case.people
            (@SelectWidget.renders Rjsf.reference [])))
    = Some opt
    /\ Tree.tag_of opt = Some "option"
    /\ Tree.attr "value" (Tree.attrs_of opt) = JNum (Int 1)
    /\ @SelectWidget.handleChange Rjsf.reference
         (SelectWidget.change
            (@SelectWidget.render Rjsf.reference Case.people
               (@SelectWidget.renders Rjsf.reference [])))
         (Sample.pick "1")
       = SelectWidget.Done [OnChange 1%nat (Sample.ident 2)].
Proof.
  destruct (@object_option_round_trip Rjsf.reference [] Case.people 1%nat
              (Sample.option_of (Sample.ident 2) "Grace") eq_refl eq_refl)
    as (opt & Hat & Htag & Hval & Hback).
  exists opt. split; [exact Hat|]. split; [exact Htag|]. split; [exact Hval|].
  apply (Hback (Sample.pick "1")). simpl. rewrite Hval. reflexivity.
Defined.

Lemma option_text_witness :
  exists text,
    Tree.at_path [0%nat; 1%nat; 0%nat]
      (SelectWidget.markup
         (@SelectWidget.render Rjsf.reference Case.colours
            (@SelectWidget.renders Rjsf.reference [])))
    = Some (Val text)
    /\ text = JStr (lit "Red").
Proof.
  destruct (@option_text Rjsf.reference [] Case.colours 0%nat
              (Sample.option_of (JStr (lit "red")) "Red") eq_refl)
    as (text & Hat & _ & Hlabel).
  exists text. split; [exact Hat|].
  apply (proj1 (Hlabel eq_refl)). reflexivity.
Defined.

Lemma input_props_reach_the_input_witness :
  exists input,
    Tree.at_path [0%nat; 1%nat]
      (BaseInputTemplate.markup
         (@BaseInputTemplate.render Rjsf.reference Sample.props
            (@BaseInputTemplate.renders Rjsf.reference [])))
    = Some input
    /\ Tree.tag_of input = Some "input"
    /\ Tree.attr "type" (Tree.attrs_of input) = JStr (lit "text").
Proof.
  apply (@input_props_reach_the_input Rjsf.reference [] Sample.props "type").
  - repeat constructor. intros H. apply elem_of_nil in H. contradiction.
  - left. apply elem_of_cons. left. reflexivity.
  - discriminate.
  - unfold Reserved.handlers. intros H.
    repeat (apply elem_of_cons in H as [H|H]; [discriminate|]).
    apply elem_of_nil in H. contradiction.
  - unfold Reserved.react. intros H.
    repeat (apply elem_of_cons in H as [H|H]; [discriminate|]).
    apply elem_of_nil in H. contradiction.
  - discriminate.
Defined.

Lemma template_attributes_stand_witness :
  exists input,
    Tree.at_path [0%nat; 1%nat]
      (BaseInputTemplate.markup
         (@BaseInputTemplate.render Rjsf.reference Case.read_only
            (@BaseInputTemplate.renders Rjsf.reference [])))
    = Some input
    /\ (truthy (Props.readonly Case.read_only) = true ->
        truthy (Tree.attr "disabled" (Tree.attrs_of input)) = true)
    /\ Tree.attr "value" (Tree.attrs_of input) = JStr []
    /\ Tree.attr "value" (Tree.attrs_of input) <> JUndefined
    /\ Tree.attr "value" (Tree.attrs_of input) <> JNull.
Proof.
  apply (@template_attributes_stand Rjsf.reference [] Case.read_only).
  - intros [[=]|H]%elem_of_cons. apply elem_of_nil in H. contradiction.
  - intros [[=]|H]%elem_of_cons. apply elem_of_nil in H. contradiction.
Defined.

